(** * voice-agent-be: the booking tools and the shutdown protocol

    A shallow embedding of [db.py] (the [Database] client of the remote
    appointments table) and [agent.py] (the [BookingAgent] tools, the
    end-of-call handler and the disconnect action), with the properties of
    the specification stated over it.

    Python objects are records; a method that mutates [self] or talks to an
    external collaborator is a computation in a state-and-exception monad
    whose state survives a raised exception, as it does in Python.  What an
    external collaborator answers (the remote table, the room, the audio
    output, the language model) is not decided by the program: it is an
    input, the record [Env], and the theorems quantify over it.  So is the
    time the awaited playout and closing task take; the trace records what
    the sleeps and the waits with a timeout have taken.  The table is
    shared by the sessions: [Sessions] places what the others write
    between the requests of a call. *)

From Stdlib Require Import List String Ascii Bool Arith NArith QArith Lqa Lia.
Import ListNotations.
Close Scope Q_scope.
Open Scope string_scope.

(** ** Exceptions and the monad *)

(** The exceptions the handlers of the program can see: instances of
    Python's [Exception].  [asyncio.TimeoutError] has a handler of its own
    in two places, every other exception is told apart by its message. *)
Inductive exn : Type :=
| TimeoutError
| Error (msg : string).

Inductive result (A : Type) : Type :=
| Ok (a : A)
| Raise (e : exn).
Arguments Ok {A} a.
Arguments Raise {A} e.

Section Monad.
Variable St : Type.

Definition M (A : Type) : Type := St -> result A * St.

Definition ret {A} (a : A) : M A := fun s => (Ok a, s).

Definition bind {A B} (m : M A) (k : A -> M B) : M B :=
  fun s => match m s with
           | (Ok a, s') => k a s'
           | (Raise e, s') => (Raise e, s')
           end.

Definition raise {A} (e : exn) : M A := fun s => (Raise e, s).

Definition get : M St := fun s => (Ok s, s).

Definition modify (f : St -> St) : M unit := fun s => (Ok tt, f s).

(** [try: m  except Exception as e: h e]; what [m] did to the state before
    it raised stays done. *)
Definition try_except {A} (m : M A) (h : exn -> M A) : M A :=
  fun s => match m s with
           | (Ok a, s') => (Ok a, s')
           | (Raise e, s') => h e s'
           end.

(** [for x in l: body x]. *)
Fixpoint for_each {A} (l : list A) (body : A -> M unit) : M unit :=
  match l with
  | [] => ret tt
  | x :: l' => bind (body x) (fun _ => for_each l' body)
  end.
End Monad.

Arguments ret {St A} a.
Arguments bind {St A B} m k.
Arguments raise {St A} e.
Arguments get {St}.
Arguments modify {St} f.
Arguments try_except {St A} m h.
Arguments for_each {St A} l body.

Declare Scope py_scope.
Delimit Scope py_scope with py.
Notation "x <- m ;; k" := (bind m (fun x => k))
  (at level 61, m at next level, right associativity) : py_scope.
Notation "m ;; k" := (bind m (fun _ => k))
  (at level 61, right associativity) : py_scope.
Open Scope py_scope.

(** ** Python values *)

(** Truth value of an optional string: [None] and [""] are false. *)
Definition truthy (o : option string) : bool :=
  match o with
  | Some s => negb (s =? "")
  | None => false
  end.

(** [o or default]. *)
Definition or_else (o : option string) (default : string) : string :=
  if truthy o then match o with Some s => s | None => default end
  else default.

(** [sep.join(l)]. *)
Fixpoint join (sep : string) (l : list string) : string :=
  match l with
  | [] => ""
  | [x] => x
  | x :: l' => x ++ sep ++ join sep l'
  end.

(** [l[-n:]] for [n > 0]. *)
Definition last_n {A} (n : nat) (l : list A) : list A :=
  skipn (List.length l - n) l.

Definition nl : string := String (ascii_of_nat 10) "".

(** A Python [str] is a sequence of characters; a [string] here is the
    sequence of the bytes of its UTF-8 encoding.  Concatenation, [join],
    equality and the test for the empty string are the same on both; what
    looks at single characters ([strip]) reads the bytes one character at a
    time. *)

(** [str.isspace] on the characters below 128, one byte each: tab, line
    feed, vertical tab, form feed, carriage return, the four separators
    28..31, space. *)
Definition is_space (c : ascii) : bool :=
  let n := nat_of_ascii c in
  ((9 <=? n) && (n <=? 13) || (28 <=? n) && (n <=? 31) || (n =? 32))%nat.

(** [str.isspace] on the characters of two bytes: U+0085 (next line) and
    U+00A0 (no-break space). *)
Definition is_space2 (c1 c2 : ascii) : bool :=
  let n1 := N_of_ascii c1 in
  let n2 := N_of_ascii c2 in
  ((n1 =? 194) && ((n2 =? 133) || (n2 =? 160)))%N.

(** [str.isspace] on the characters of three bytes: U+1680, U+2000 to
    U+200A, U+2028, U+2029, U+202F, U+205F and U+3000.  No character of
    four bytes is a blank. *)
Definition is_space3 (c1 c2 c3 : ascii) : bool :=
  let n1 := N_of_ascii c1 in
  let n2 := N_of_ascii c2 in
  let n3 := N_of_ascii c3 in
  ((n1 =? 225) && (n2 =? 154) && (n3 =? 128)
   || (n1 =? 226) && (n2 =? 128)
      && ((128 <=? n3) && (n3 <=? 138) || (n3 =? 168) || (n3 =? 169)
          || (n3 =? 175))
   || (n1 =? 226) && (n2 =? 129) && (n3 =? 159)
   || (n1 =? 227) && (n2 =? 128) && (n3 =? 128))%N.

(** The string is one blank character. *)
Definition is_blank (s : string) : bool :=
  match s with
  | String c1 EmptyString => is_space c1
  | String c1 (String c2 EmptyString) => is_space2 c1 c2
  | String c1 (String c2 (String c3 EmptyString)) => is_space3 c1 c2 c3
  | _ => false
  end.

(** [s.lstrip()]: the blank characters at the head are dropped. *)
Fixpoint lstrip (s : string) : string :=
  match s with
  | String c1 s1 =>
      if is_space c1 then lstrip s1
      else
        match s1 with
        | String c2 s2 =>
            if is_space2 c1 c2 then lstrip s2
            else
              match s2 with
              | String c3 s3 => if is_space3 c1 c2 c3 then lstrip s3 else s
              | EmptyString => s
              end
        | EmptyString => s
        end
  | EmptyString => EmptyString
  end.

(** [s.rstrip()]: once the rest is stripped, what is left is dropped when
    it is one blank character. *)
Fixpoint rstrip (s : string) : string :=
  match s with
  | String c s' =>
      let t := String c (rstrip s') in
      if is_blank t then EmptyString else t
  | EmptyString => EmptyString
  end.

(** [s.strip()]. *)
Definition strip (s : string) : string := rstrip (lstrip s).

(** ** The data model *)

(** Modelled from the spec: the schema of the remote [appointments] table,
    which is not part of the sources.  A row as [select("*")] returns it:
    [create_appointment] (db.py:41-47) supplies [contact_number],
    [user_name], [slot_time], [details] and [status]; the store assigns the
    record identifier [id] and the creation time [created_at]. *)
Record Appointment : Type := mkAppointment {
  id : nat;
  created_at : nat;
  contact_number : string;
  user_name : string;
  slot_time : string;
  details : string;
  status : string }.

(** The remote table: its rows in insertion order and the next identifier
    the store will assign. *)
Record Table : Type := mkTable {
  rows : list Appointment;
  next_id : nat }.

(** [AgentSession], as far as agent.py looks into it: whether
    [output.audio] and [llm] are set, and whether [_closing_task] is. *)
Record Session : Type := mkSession {
  audio : bool;
  llm : bool;
  _closing_task : bool }.

(** A track publication of the local participant; [track] is the kind of
    its track, [None] when it has none. *)
Record TrackPublication : Type := mkTrackPublication {
  track : option string }.

(** [rtc.Room]: [isconnected()] and [local_participant.track_publications]. *)
Record Room : Type := mkRoom {
  connected : bool;
  local_participant : option (list TrackPublication) }.

(** An item of [self.chat_ctx.items]: an [llm.ChatMessage] with its role,
    its text content and the truth value of [extra.get("is_summary")], or
    an item of another class (a function call, its output, a handoff). *)
Inductive ChatItem : Type :=
| ChatMessage (role : string) (text_content : option string) (is_summary : bool)
| OtherItem.

(** A chunk of the streamed answer of the language model: [chunk.delta],
    and in it [content]. *)
Record Chunk : Type := mkChunk {
  delta : option (option string) }.

(** What [json.dumps] is given before [publish_data] sends it. *)
Inductive Payload : Type :=
| ToolCall (tool : string) (args : list (string * string))
| ConversationSummary (summary : string) (appointments : list string)
                      (contact : option string).

(** The places where [end_conversation] awaits after it has created the
    background task: the event loop can run that task there. *)
Inductive AwaitPoint : Type :=
| AtPlayout
| AtChat
| AtPublish.

Definition AwaitPoint_eqb (a b : AwaitPoint) : bool :=
  match a, b with
  | AtPlayout, AtPlayout | AtChat, AtChat | AtPublish, AtPublish => true
  | _, _ => false
  end.

(** Calls on the external collaborators, in the order they are made, and
    after a wait with a timeout the time it has taken. *)
Inductive Event : Type :=
| EvPublish (p : Payload)
| EvFlush
| EvWaitPlayout
| EvSleep (seconds : nat)
| EvWaited (seconds : Q)
| EvChat (messages : list (string * string))
| EvCreateTask
| EvPerformDisconnection
| EvShutdown
| EvWaitClosing
| EvTrackStop (kind : string)
| EvDisconnect.

(** Tasks handed to [asyncio.create_task]. *)
Inductive Task : Type :=
| DisconnectAfterGoodbye.

(** The agent ([self]) and what it acts on.  main.py:121 and main.py:145
    bind [agent.ctx.room] and [agent._room] to one object: [_room] stands
    for both.  [table] is the remote table as the requests of this agent
    find it and leave it; main.py:119 builds one agent per session, all on
    that table, and what the other sessions write between two requests of
    this one is placed there by [Sessions.served]. *)
Record State : Type := mkState {
  client : bool;                       (* self.db.client is set *)
  user_contact : option string;
  user_name' : option string;         (* self.user_name *)
  _agent_session : option Session;
  _room : option Room;
  chat_ctx : list ChatItem;
  table : Table;                       (* the remote table *)
  pending : list Task;                 (* created, not yet run *)
  trace : list Event }.

Definition set_user_contact (c : option string) (s : State) : State :=
  mkState (client s) c (user_name' s) (_agent_session s) (_room s)
          (chat_ctx s) (table s) (pending s) (trace s).

Definition set_session (a : option Session) (s : State) : State :=
  mkState (client s) (user_contact s) (user_name' s) a (_room s)
          (chat_ctx s) (table s) (pending s) (trace s).

Definition set_room (r : option Room) (s : State) : State :=
  mkState (client s) (user_contact s) (user_name' s) (_agent_session s) r
          (chat_ctx s) (table s) (pending s) (trace s).

Definition set_table (t : Table) (s : State) : State :=
  mkState (client s) (user_contact s) (user_name' s) (_agent_session s)
          (_room s) (chat_ctx s) t (pending s) (trace s).

Definition set_pending (p : list Task) (s : State) : State :=
  mkState (client s) (user_contact s) (user_name' s) (_agent_session s)
          (_room s) (chat_ctx s) (table s) p (trace s).

Definition log (ev : Event) (s : State) : State :=
  mkState (client s) (user_contact s) (user_name' s) (_agent_session s)
          (_room s) (chat_ctx s) (table s) (pending s) (trace s ++ [ev]).

(** What the external collaborators do during one tool call.  An outcome
    [None] is a normal return, [Some e] is the exception [e] raised. *)
Record Env : Type := mkEnv {
  (* the appointment store: [.execute()] of each query *)
  select_by_contact : option exn;
  select_by_slot : option exn;
  insert_row : option exn;
  update_status : option exn;
  update_slot : option exn;
  now : nat;
  (* the room *)
  publish_tool_call : option exn;
  publish_summary : option exn;
  track_stop : string -> option exn;
  disconnect : option exn;
  (* the audio output, for the handler and for the background task *)
  flush : option exn;
  wait_for_playout : option exn;
  flush_goodbye : option exn;
  wait_goodbye : option exn;
  (* the language model: chunks streamed, then the end or an exception *)
  chat : list (string * string) -> list Chunk * option exn;
  (* the session *)
  shutdown : option exn;
  shutdown_creates_closing_task : bool;
  wait_closing : option exn;
  (* the event loop: where it runs the background task, [None] for after
     the handler has returned *)
  background_at : option AwaitPoint;
  (* the clock: the seconds after which the playout of the goodbye and the
     closing task end, with the outcomes [wait_goodbye] and [wait_closing],
     when nothing cuts them short *)
  playout_seconds : Q;
  closing_seconds : Q }.

Definition P : Type -> Type := M State.

(** A call on an external collaborator: recorded, then its outcome. *)
Definition call (ev : Event) (outcome : option exn) : P unit :=
  modify (log ev) ;;
  match outcome with
  | Some e => raise e
  | None => ret tt
  end.

(** ** db.py: the [Database] client *)

Module Database.

(** The guard of every query: [.execute()] raises or the query runs. *)
Definition execute {A} (outcome : option exn) (query : P A) : P A :=
  match outcome with
  | Some e => raise e
  | None => query
  end.

(** db.py:20-33. *)
Definition get_appointments (e : Env) (user_contact : string)
  : P (list Appointment) :=
  s <- get ;;
  if negb (client s) then ret []
  else
    try_except
      (execute (select_by_contact e)
         (ret (filter (fun a => contact_number a =? user_contact)
                      (rows (table s)))))
      (fun _ => ret []).

(** db.py:35-52.  The inserted row comes back as [response.data]. *)
Definition create_appointment (e : Env)
    (user_contact user_name slot details : string)
  : P (option (list Appointment)) :=
  s <- get ;;
  if negb (client s) then ret None
  else
    try_except
      (execute (insert_row e)
         (let t := table s in
          let data := mkAppointment (next_id t) (now e) user_contact
                        user_name slot details "confirmed" in
          modify (set_table (mkTable (rows t ++ [data]) (S (next_id t)))) ;;
          ret (Some [data])))
      (fun _ => ret None).

(** [.update(change).eq("id", appointment_id)]: the rows it changes are
    the returned data. *)
Definition update_eq_id (change : Appointment -> Appointment)
    (appointment_id : nat) (t : Table) : Table :=
  mkTable (map (fun a => if (id a =? appointment_id)%nat then change a else a)
               (rows t))
          (next_id t).

Definition updated (change : Appointment -> Appointment)
    (appointment_id : nat) (t : Table) : list Appointment :=
  map change (filter (fun a => (id a =? appointment_id)%nat) (rows t)).

Definition with_status (st : string) (a : Appointment) : Appointment :=
  mkAppointment (id a) (created_at a) (contact_number a) (user_name a)
                (slot_time a) (details a) st.

Definition with_slot_time (slot : string) (a : Appointment) : Appointment :=
  mkAppointment (id a) (created_at a) (contact_number a) (user_name a)
                slot (details a) (status a).

(** db.py:54-67. *)
Definition cancel_appointment (e : Env) (appointment_id : nat)
  : P (option (list Appointment)) :=
  s <- get ;;
  if negb (client s) then ret None
  else
    try_except
      (execute (update_status e)
         (let change := with_status "cancelled" in
          modify (set_table (update_eq_id change appointment_id (table s))) ;;
          ret (Some (updated change appointment_id (table s)))))
      (fun _ => ret None).

(** db.py:69-82. *)
Definition update_appointment (e : Env) (appointment_id : nat)
    (new_slot : string) : P (option (list Appointment)) :=
  s <- get ;;
  if negb (client s) then ret None
  else
    try_except
      (execute (update_slot e)
         (let change := with_slot_time new_slot in
          modify (set_table (update_eq_id change appointment_id (table s))) ;;
          ret (Some (updated change appointment_id (table s)))))
      (fun _ => ret None).

(** db.py:84-112. *)
Definition is_slot_available (e : Env) (slot : string) : P bool :=
  s <- get ;;
  if negb (client s) then ret true
  else
    try_except
      (execute (select_by_slot e)
         (let data := filter (fun a => (slot_time a =? slot)
                                       && (status a =? "confirmed"))
                             (rows (table s)) in
          ret (List.length data =? 0)%nat))
      (fun _ => ret true).

End Database.

(** ** agent.py: the tools of [BookingAgent] *)

Module BookingAgent.
Import Database.

Definition isconnected (s : State) : bool :=
  match _room s with
  | Some r => connected r
  | None => false
  end.

(** [self.user_contact], once its truth has been tested. *)
Definition the_contact (s : State) : string :=
  match user_contact s with
  | Some c => c
  | None => ""
  end.

(** Truth value of what a store write returns: [None] and the empty list
    are false. *)
Definition truthy_data (r : option (list Appointment)) : bool :=
  match r with
  | Some (_ :: _) => true
  | _ => false
  end.

(** [room.local_participant] is set. *)
Definition has_participant (s : State) : bool :=
  match _room s with
  | Some r => match local_participant r with
              | Some _ => true
              | None => false
              end
  | None => false
  end.

(** The [AttributeError] of [room.local_participant.publish_data] when
    [local_participant] is [None]. *)
Definition no_participant : exn :=
  Error "'NoneType' object has no attribute 'publish_data'".

(** [await room.local_participant.publish_data(payload)]: the attribute
    is looked up on the local participant first, so that without one the
    call raises and nothing is sent. *)
Definition publish_data (s : State) (send : P unit) : P unit :=
  if has_participant s then send else raise no_participant.

(** agent.py:36-52.  The publication goes out when the room is connected
    ([self.ctx.room] is the object of [_room]); a failure to publish is
    logged only. *)
Definition _broadcast_tool_call (e : Env) (tool_name : string)
    (args : list (string * string)) : P unit :=
  try_except
    (s <- get ;;
     if isconnected s
     then publish_data s
            (call (EvPublish (ToolCall tool_name args)) (publish_tool_call e))
     else ret tt)
    (fun _ => ret tt).

(** agent.py:54-69. *)
Definition identify_user (e : Env) (contact_number : string) : P string :=
  _broadcast_tool_call e "identify_user" [("contact_number", contact_number)] ;;
  modify (set_user_contact (Some contact_number)) ;;
  ret ("Thank you! I have your contact number " ++ contact_number
       ++ ". How can I help you today?").

Definition msg_book_unidentified : string :=
  "I need your contact number before booking. Please provide it using the identify_user tool.".

Definition msg_already (slot : string) : string :=
  "You already have an appointment at " ++ slot ++ ".".

Definition msg_taken (slot : string) : string :=
  "I'm sorry, but the slot " ++ slot
  ++ " is already booked by another customer. Please choose a different time slot.".

Definition msg_booked (slot details : string) : string :=
  "Appointment booked successfully for " ++ slot
  ++ ". Your appointment details: " ++ details ++ ".".

Definition msg_system_error : string :=
  "I'm sorry, I couldn't book the appointment due to a system error.".

(** agent.py:89-122. *)
Definition book_appointment (e : Env) (slot details : string) : P string :=
  _broadcast_tool_call e "book_appointment"
    [("slot", slot); ("details", details)] ;;
  s <- get ;;
  if negb (truthy (user_contact s)) then ret msg_book_unidentified
  else
    existing <- get_appointments e (the_contact s) ;;
    if existsb (fun appt => (slot_time appt =? slot)
                            && (status appt =? "confirmed")) existing
    then ret (msg_already slot)
    else
      slot_available <- is_slot_available e slot ;;
      if negb slot_available then ret (msg_taken slot)
      else
        result <- create_appointment e (the_contact s)
                    (or_else (user_name' s) "Unknown") slot details ;;
        if truthy_data result then ret (msg_booked slot details)
        else ret msg_system_error.

Definition msg_cancel_unidentified : string :=
  "Please provide your phone number.".

Definition msg_cancelled (slot : string) : string :=
  "Appointment at " ++ slot ++ " has been cancelled.".

Definition msg_no_active (slot : string) : string :=
  "I couldn't find an active appointment at " ++ slot ++ ".".

(** [next((a for a in appts if a.get("slot_time") == slot and
    a.get("status") != "cancelled"), None)]. *)
Definition active_at (slot : string) (appts : list Appointment)
  : option Appointment :=
  find (fun a => (slot_time a =? slot) && negb (status a =? "cancelled"))
       appts.

(** agent.py:141-166. *)
Definition cancel_appointment (e : Env) (slot : string) : P string :=
  _broadcast_tool_call e "cancel_appointment" [("slot", slot)] ;;
  s <- get ;;
  if negb (truthy (user_contact s)) then ret msg_cancel_unidentified
  else
    appts <- get_appointments e (the_contact s) ;;
    match active_at slot appts with
    | Some target =>
        Database.cancel_appointment e (id target) ;;
        ret (msg_cancelled slot)
    | None => ret (msg_no_active slot)
    end.

Definition msg_modify_unidentified : string :=
  "Please identify yourself first using the identify_user tool.".

Definition msg_not_found (old_slot : string) : string :=
  "Could not find appointment at " ++ old_slot ++ ".".

Definition msg_changed (old_slot new_slot : string) : string :=
  "Appointment changed from " ++ old_slot ++ " to " ++ new_slot ++ ".".

(** agent.py:168-201. *)
Definition modify_appointment (e : Env) (old_slot new_slot : string)
  : P string :=
  _broadcast_tool_call e "modify_appointment"
    [("old_slot", old_slot); ("new_slot", new_slot)] ;;
  s <- get ;;
  if negb (truthy (user_contact s)) then ret msg_modify_unidentified
  else
    appts <- get_appointments e (the_contact s) ;;
    match active_at old_slot appts with
    | None => ret (msg_not_found old_slot)
    | Some target =>
        slot_available <- is_slot_available e new_slot ;;
        if negb slot_available then ret (msg_taken new_slot)
        else
          update_appointment e (id target) new_slot ;;
          ret (msg_changed old_slot new_slot)
    end.

(** *** Vocabulary of the statements *)

(** A publication can be sent: the room is connected and has its local
    participant. *)
Definition can_publish (s : State) : bool :=
  isconnected s && has_participant s.

(** The state [_broadcast_tool_call] leaves: the publication is
    recorded when it can be sent, nothing else changes. *)
Definition after_broadcast (tool_name : string)
    (args : list (string * string)) (s : State) : State :=
  if can_publish s then log (EvPublish (ToolCall tool_name args)) s else s.

(** The records of the table that belong to the contact [c]. *)
Definition own_rows (c : string) (t : Table) : list Appointment :=
  filter (fun a => contact_number a =? c) (rows t).

(** A confirmed record for [slot]. *)
Definition confirmed_at (slot : string) (a : Appointment) : bool :=
  (slot_time a =? slot) && (status a =? "confirmed").

(** The record [create_appointment] inserts for the caller of [s]. *)
Definition new_row (e : Env) (s : State) (slot details : string)
  : Appointment :=
  mkAppointment (next_id (table s)) (now e) (the_contact s)
                (or_else (user_name' s) "Unknown") slot details "confirmed".

End BookingAgent.

(** ** agent.py: the end of the call *)

Module Shutdown.
Import BookingAgent.

Definition session_audio (s : State) : bool :=
  match _agent_session s with
  | Some a => audio a
  | None => false
  end.

Definition session_llm (s : State) : bool :=
  match _agent_session s with
  | Some a => llm a
  | None => false
  end.

Definition session_closing_task (s : State) : bool :=
  match _agent_session s with
  | Some a => _closing_task a
  | None => false
  end.

(** What [shutdown(drain=True)] leaves in the session when it returns. *)
Definition after_shutdown (e : Env) (s : State) : State :=
  match _agent_session s with
  | Some a =>
      set_session
        (Some (mkSession (audio a) (llm a)
                 (_closing_task a || shutdown_creates_closing_task e))) s
  | None => s
  end.

(** What [disconnect()] leaves in the room when it returns. *)
Definition after_disconnect (s : State) : State :=
  match _room s with
  | Some r => set_room (Some (mkRoom false (local_participant r))) s
  | None => s
  end.

(** The publications step 2 walks through: those of the local participant
    of a connected room (agent.py:444-448). *)
Definition track_publications (s : State) : option (list TrackPublication) :=
  match _room s with
  | Some r => if connected r then local_participant r else None
  | None => None
  end.

(** A number of seconds written as a whole number in the source. *)
Definition seconds (n : nat) : Q := inject_Z (Z.of_nat n).

(** [await asyncio.wait_for(aw, timeout=timeout)]: left alone, [aw] ends
    after [needs] seconds with [outcome]; when that is later than [timeout]
    it is cancelled at [timeout] and [TimeoutError] is raised.  The time
    the wait has taken goes to the trace. *)
Definition wait_for (ev : Event) (needs : Q) (outcome : option exn)
    (timeout : Q) : P unit :=
  modify (log ev) ;;
  if Qle_bool needs timeout
  then modify (log (EvWaited needs)) ;;
       match outcome with
       | Some ex => raise ex
       | None => ret tt
       end
  else modify (log (EvWaited timeout)) ;; raise TimeoutError.

(** agent.py:419-467.  Its entry is recorded in the trace. *)
Definition _perform_disconnection (e : Env) : P unit :=
  modify (log EvPerformDisconnection) ;;
  try_except
    ((* 1. shut the session down *)
     s <- get ;;
     match _agent_session s with
     | Some _ =>
         call EvShutdown (shutdown e) ;;
         modify (after_shutdown e) ;;
         s1 <- get ;;
         if session_closing_task s1
         then try_except
                (wait_for EvWaitClosing (closing_seconds e) (wait_closing e)
                   (seconds 5))
                (fun ex => match ex with
                           | TimeoutError => ret tt
                           | Error _ => ret tt
                           end)
         else ret tt
     | None => ret tt
     end ;;
     (* 2. stop the published tracks *)
     s2 <- get ;;
     match track_publications s2 with
     | Some pubs =>
         for_each pubs
           (fun track_pub =>
              match track track_pub with
              | Some kind =>
                  try_except (call (EvTrackStop kind) (track_stop e kind))
                             (fun _ => ret tt)
              | None => ret tt
              end)
     | None => ret tt
     end ;;
     (* 3. leave the room *)
     s3 <- get ;;
     if isconnected s3
     then call EvDisconnect (disconnect e) ;; modify after_disconnect
     else ret tt)
    (fun _ => ret tt).

Definition goodbye_wait_time : nat := 8.

(** Lines 226-259: the wait for the goodbye to be spoken. *)
Definition goodbye_wait (e : Env) : P unit :=
  call (EvSleep 1) None ;;
  s <- get ;;
  if session_audio s
  then try_except
         (call EvFlush (flush_goodbye e) ;;
          wait_for EvWaitPlayout (playout_seconds e) (wait_goodbye e)
            (seconds (goodbye_wait_time - 1)))
         (fun ex => match ex with
                    | TimeoutError => ret tt
                    | Error _ =>
                        let remaining_time := goodbye_wait_time - 1 in
                        if (0 <? remaining_time)%nat
                        then call (EvSleep remaining_time) None
                        else ret tt
                    end)
  else call (EvSleep (goodbye_wait_time - 1)) None.

(** agent.py:220-272. *)
Definition _disconnect_after_goodbye (e : Env) : P unit :=
  try_except
    (goodbye_wait e ;;
     _perform_disconnection e)
    (fun _ => try_except (_perform_disconnection e) (fun _ => ret tt)).

(** [asyncio.create_task]: the task is queued, not run. *)
Definition create_task (t : Task) : P unit :=
  modify (fun s => log EvCreateTask (set_pending (pending s ++ [t]) s)).

(** The event loop runs a task to its end; an exception the task raises
    stays in the task object. *)
Definition run_task (e : Env) (t : Task) : P unit :=
  match t with
  | DisconnectAfterGoodbye =>
      try_except (_disconnect_after_goodbye e) (fun _ => ret tt)
  end.

Definition run_pending (e : Env) : P unit :=
  s <- get ;;
  modify (set_pending []) ;;
  for_each (pending s) (run_task e).

(** [await] of an external call at the point [pt]: the call is made,
    the event loop may run the queued task while the handler is
    suspended, then the call's outcome comes back. *)
Definition await_call (e : Env) (pt : AwaitPoint) (ev : Event)
    (outcome : option exn) : P unit :=
  modify (log ev) ;;
  (match background_at e with
   | Some pt' => if AwaitPoint_eqb pt pt' then run_pending e else ret tt
   | None => ret tt
   end) ;;
  match outcome with
  | Some ex => raise ex
  | None => ret tt
  end.

Definition in_user_assistant (role : string) : bool :=
  (role =? "user") || (role =? "assistant").

(** Lines 300-310: the lines submitted for summarization. *)
Definition conversation_messages (items : list ChatItem) : list string :=
  flat_map
    (fun item =>
       match item with
       | ChatMessage role text_content is_summary =>
           if truthy text_content then
             if negb (in_user_assistant role) then []
             else if is_summary then []
             else [role ++ ": " ++ strip (or_else text_content "")]
           else []
       | OtherItem => []
       end) items.

(** Lines 352-355 and 363-366. *)
Definition history_parts (items : list ChatItem) : list string :=
  flat_map
    (fun item =>
       match item with
       | ChatMessage role text_content _ =>
           if truthy text_content
           then [role ++ ": " ++ or_else text_content ""]
           else []
       | OtherItem => []
       end) items.

Definition no_history : string := "No conversation history available.".

Definition history_fallback (items : list ChatItem) : string :=
  match history_parts items with
  | [] => no_history
  | parts => join nl parts
  end.

Definition summary_instructions : string :=
  "Compress the conversation into a short, faithful summary." ++ nl
  ++ "Focus on user goals, constraints, decisions, key facts/preferences/entities, and pending tasks."
  ++ nl
  ++ "Exclude chit-chat and greetings. Be concise. Include any appointments that were booked, modified, or cancelled.".

Definition summary_ctx (messages : list string) : list (string * string) :=
  [("system", summary_instructions);
   ("user", "Conversation to summarize:" ++ nl ++ nl ++ join nl messages)].

(** The contents the loop of lines 331-335 keeps. *)
Definition kept_contents (chunks : list Chunk) : list string :=
  flat_map
    (fun chunk =>
       match delta chunk with
       | Some (Some content) => if content =? "" then [] else [content]
       | _ => []
       end) chunks.

(** [async for chunk in llm.chat(chat_ctx=summary_ctx)]. *)
Definition chat_stream (e : Env) (ctx : list (string * string))
  : P (list string) :=
  await_call e AtChat (EvChat ctx) (snd (chat e ctx)) ;;
  ret (kept_contents (fst (chat e ctx))).

(** Step 2, lines 296-371: the summary. *)
Definition generate_summary (e : Env) : P string :=
  s <- get ;;
  if session_llm s
  then
    try_except
      (let messages := conversation_messages (chat_ctx s) in
       match messages with
       | _ :: _ =>
           chunks <- chat_stream e (summary_ctx messages) ;;
           let summary := strip (join "" chunks) in
           if negb (summary =? "") then ret summary
           else ret (join nl (last_n 10 messages))
       | [] => ret no_history
       end)
      (fun _ => ret (history_fallback (chat_ctx s)))
  else ret (history_fallback (chat_ctx s)).

Definition describe (a : Appointment) : string :=
  slot_time a ++ " - " ++ details a ++ " (" ++ status a ++ ")".

(** Lines 377-391: the confirmed appointments of the caller. *)
Definition booked_appointments (e : Env) : P (list string) :=
  s <- get ;;
  if truthy (user_contact s)
  then
    try_except
      (appts <- Database.get_appointments e (the_contact s) ;;
       ret (map describe
                (filter (fun a => status a =? "confirmed") appts)))
      (fun _ => ret [])
  else ret [].

Definition goodbye : string :=
  "Thank you for calling. Have a great day! Goodbye!".

(** agent.py:203-417. *)
Definition end_conversation (e : Env) : P string :=
  _broadcast_tool_call e "end_conversation" [] ;;
  s <- get ;;
  (match _agent_session s with
   | Some _ => create_task DisconnectAfterGoodbye
   | None => ret tt
   end) ;;
  try_except
    ((* Step 1: the audio already queued *)
     s1 <- get ;;
     (if session_audio s1
      then try_except
             (call EvFlush (flush e) ;;
              await_call e AtPlayout EvWaitPlayout (wait_for_playout e))
             (fun _ => ret tt)
      else ret tt) ;;
     (* Step 2: the summary *)
     summary <- generate_summary e ;;
     booked <- booked_appointments e ;;
     s2 <- get ;;
     if isconnected s2
     then try_except
            (publish_data s2
               (await_call e AtPublish
                  (EvPublish (ConversationSummary summary booked
                                (user_contact s2)))
                  (publish_summary e)))
            (fun _ => ret tt)
     else ret tt)
    (fun _ => ret tt) ;;
  ret goodbye.

(** One execution of the shutdown protocol: the handler, then whatever
    the event loop still has to run. *)
Definition shutdown_protocol (e : Env) : P string :=
  r <- end_conversation e ;;
  run_pending e ;;
  ret r.

End Shutdown.

(** ** Vocabulary of the statements on the shutdown protocol *)

Module Measure.

Definition is_invocation (ev : Event) : bool :=
  match ev with
  | EvPerformDisconnection => true
  | _ => false
  end.

(** How many times the trace enters [_perform_disconnection]. *)
Definition invocations (tr : list Event) : nat :=
  List.length (filter is_invocation tr).

(** A step of the disconnect action after the session shutdown: a track
    stopped or the room left. *)
Definition is_later_step (ev : Event) : bool :=
  match ev with
  | EvTrackStop _ | EvDisconnect => true
  | _ => false
  end.

(** [m] moves every state to one related to it by [R], whether it
    returns or raises. *)
Definition Respects (R : State -> State -> Prop) {A} (m : P A) : Prop :=
  forall s, R s (snd (m s)).

(** No invocation is added and the queue of tasks is as it was. *)
Definition quiet (s s' : State) : Prop :=
  invocations (trace s') = invocations (trace s)
  /\ pending s' = pending s.

(** Invocations made plus tasks still queued. *)
Definition due (s : State) : nat :=
  invocations (trace s) + List.length (pending s).

Definition balanced (s s' : State) : Prop := due s' = due s.

(** The trace is only ever extended. *)
Definition grows (s s' : State) : Prop :=
  exists evs, trace s' = (trace s ++ evs)%list.

(** The room is as it was, and no later step is added to the trace. *)
Definition room_kept (s s' : State) : Prop :=
  _room s' = _room s
  /\ filter is_later_step (trace s') = filter is_later_step (trace s).

(** The time a wait with a timeout takes. *)
Definition waited (needs timeout : Q) : Q :=
  if Qle_bool needs timeout then needs else timeout.

(** The kinds of the tracks the loop of agent.py:446-456 stops. *)
Definition kinds (pubs : list TrackPublication) : list string :=
  flat_map (fun p => match track p with Some k => [k] | None => [] end) pubs.

(** The transcript as the specification words it: the system, user and
    assistant turns, prior summaries left out.  [conversation_messages]
    is what the code submits. *)
Definition transcript_as_specified (items : list ChatItem) : list string :=
  flat_map
    (fun item =>
       match item with
       | ChatMessage role text_content is_summary =>
           if truthy text_content
              && ((role =? "system") || (role =? "user")
                  || (role =? "assistant"))
              && negb is_summary
           then [role ++ ": " ++ strip (or_else text_content "")]
           else []
       | OtherItem => []
       end) items.

(** A turn the summarization is given: a user or assistant message that
    has a text and is not a prior summary. *)
Definition is_turn (item : ChatItem) : bool :=
  match item with
  | ChatMessage role (Some text) is_summary =>
      negb (text =? "") && ((role =? "user") || (role =? "assistant"))
      && negb is_summary
  | _ => false
  end.

(** Its line: the role, then the text without the blanks around it. *)
Definition turn_line (item : ChatItem) : string :=
  match item with
  | ChatMessage role (Some text) _ => role ++ ": " ++ strip text
  | _ => ""
  end.

(** A message that has a text, whatever its role. *)
Definition has_text (item : ChatItem) : bool :=
  match item with
  | ChatMessage _ (Some text) _ => negb (text =? "")
  | _ => false
  end.

(** Its line: the role, then the text as it is. *)
Definition raw_line (item : ChatItem) : string :=
  match item with
  | ChatMessage role (Some text) _ => role ++ ": " ++ text
  | _ => ""
  end.

End Measure.

(** ** Concrete callers, tables and collaborators *)

Module Samples.

Definition caller : string := "+15551234".
Definition other_caller : string := "+15559999".
Definition morning : string := "10:30am - 11:30am, 26th January".
Definition afternoon : string := "2:15pm - 3:15pm, 26th January".

(** Every collaborator answers, the model streams one chunk. *)
Definition quiet : Env :=
  mkEnv None None None None None 0 None None (fun _ => None) None
        None None None None
        (fun _ => ([mkChunk (Some (Some "Booked a checkup."))], None))
        None true None None 2 1.

Definition down : exn := Error "connection lost".

(** [quiet], with one call of the store failing. *)
Definition insert_fails : Env :=
  mkEnv None None (Some down) None None 0 None None (fun _ => None) None
        None None None None (chat quiet) None true None None 2 1.

Definition update_fails : Env :=
  mkEnv None None None (Some down) (Some down) 0 None None (fun _ => None)
        None None None None None (chat quiet) None true None None 2 1.

Definition contact_query_fails : Env :=
  mkEnv (Some down) None None None None 0 None None (fun _ => None) None
        None None None None (chat quiet) None true None None 2 1.

Definition slot_query_fails : Env :=
  mkEnv None (Some down) None None None 0 None None (fun _ => None) None
        None None None None (chat quiet) None true None None 2 1.

Definition row (i : nat) (c slot st : string) : Appointment :=
  mkAppointment i 0 c "Unknown" slot "checkup" st.

(** The agent as [__init__] leaves it, on a given table. *)
Definition agent (has_client : bool) (t : Table) : State :=
  mkState has_client None None None None [] t [] [].

(** The agent once [caller] has been identified. *)
Definition identified (has_client : bool) (t : Table) : State :=
  set_user_contact (Some caller) (agent has_client t).

Definition empty_table : Table := mkTable [] 1.

(** [caller] holds the morning slot. *)
Definition one_booking : Table :=
  mkTable [row 1 caller morning "confirmed"] 2.

(** [caller] holds the morning slot, [other_caller] the afternoon one. *)
Definition two_callers : Table :=
  mkTable [row 1 caller morning "confirmed";
           row 2 other_caller afternoon "confirmed"] 3.

(** [caller] holds both slots. *)
Definition two_bookings : Table :=
  mkTable [row 1 caller morning "confirmed";
           row 2 caller afternoon "confirmed"] 3.

(** [caller] holds the afternoon slot only. *)
Definition afternoon_only : Table :=
  mkTable [row 1 caller afternoon "confirmed"] 2.

(** The language model answers with blanks only. *)
Definition silent_model : Env :=
  mkEnv None None None None None 0 None None (fun _ => None) None
        None None None None
        (fun _ => ([mkChunk None; mkChunk (Some (Some "  "))], None))
        None true None None 2 1.

(** The language model raises after a first chunk. *)
Definition failing_model : Env :=
  mkEnv None None None None None 0 None None (fun _ => None) None
        None None None None
        (fun _ => ([mkChunk (Some (Some "The caller"))], Some down))
        None true None None 2 1.

(** The session refuses the shutdown request. *)
Definition shutdown_raises : Env :=
  mkEnv None None None None None 0 None None (fun _ => None) None
        None None None None (chat quiet)
        (Some (Error "AgentSession is not running")) true None None 2 1.

(** Every call that can fail does, the waits with a timeout are cut short,
    and the background task runs while the handler waits for the language
    model. *)
Definition restless : Env :=
  mkEnv (Some down) (Some down) (Some down) (Some down) (Some down) 0
        (Some down) (Some down) (fun _ => Some down) (Some down)
        (Some down) (Some down) (Some down) (Some TimeoutError)
        (fun _ => ([], Some down))
        None true (Some TimeoutError) (Some AtChat) 9 6.

Definition transcript : list ChatItem :=
  [ChatMessage "system"
     (Some "You are a helpful voice assistant for booking appointments.")
     false;
   ChatMessage "user" (Some " I would like a checkup. ") false;
   OtherItem;
   ChatMessage "assistant" (Some "Your checkup is booked.") false;
   ChatMessage "assistant" (Some "The caller asked for a checkup.") true].

(** [caller] on the line: session and room set, two tracks published. *)
Definition in_call : State :=
  mkState true (Some caller) None
          (Some (mkSession true true false))
          (Some (mkRoom true
                   (Some [mkTrackPublication (Some "audio");
                          mkTrackPublication None;
                          mkTrackPublication (Some "video")])))
          transcript one_booking [] [].

End Samples.

(** ** The constructors and the tools that only read *)

Module Listing.
Import Database BookingAgent.

(** db.py:9-18: without both [SUPABASE_URL] and [SUPABASE_KEY], set and
    not empty, there is no client.  With both, [create_client] is called:
    it returns the client or raises (on a URL or a key it refuses), and
    nothing handles that exception.  The result is whether [self.client]
    is set. *)
Definition Database__init__ (url key : option string)
    (create_client : option exn) : result bool :=
  if negb (truthy url) || negb (truthy key) then Ok false
  else match create_client with
       | Some ex => Raise ex
       | None => Ok true
       end.

(** agent.py:16-34: the agent as its constructor leaves it, given the
    environment of the process, the chat context of the framework and
    the remote table; an exception of [Database()] leaves the
    constructor. *)
Definition BookingAgent__init__ (url key : option string)
    (create_client : option exn) (items : list ChatItem) (t : Table)
  : result State :=
  match Database__init__ url key create_client with
  | Ok has_client =>
      Ok (mkState has_client None None None None items t [] [])
  | Raise ex => Raise ex
  end.

Definition msg_slots : string :=
  "Available slots are: 10:30am - 11:30am, 26th January;"
  ++ " 2:15pm - 3:15pm, 26th January; "
  ++ "9:00am - 10:00am, 27th January; "
  ++ "3:45pm - 4:45pm, 27th January; "
  ++ "11:00am - 12:00pm, 28th January; "
  ++ "1:30pm - 2:30pm, 28th January; "
  ++ "10:00am - 11:00am, 29th January; "
  ++ "4:00pm - 5:00pm, 29th January; "
  ++ "9:15am - 10:15am, 30th January; "
  ++ "2:00pm - 3:00pm, 30th January.".

(** agent.py:71-87. *)
Definition fetch_slots (e : Env) : P string :=
  _broadcast_tool_call e "fetch_slots" [] ;;
  ret msg_slots.

Definition msg_retrieve_unidentified : string :=
  "Please provide your contact number first.".

Definition msg_no_appointments : string :=
  "You have no appointments on record.".

(** [f"{a.get('slot_time')} ({a.get('details')}) - {a.get('status')}"]. *)
Definition listing_line (a : Appointment) : string :=
  slot_time a ++ " (" ++ details a ++ ") - " ++ status a.

(** agent.py:124-139. *)
Definition retrieve_appointments (e : Env) : P string :=
  _broadcast_tool_call e "retrieve_appointments" [] ;;
  s <- get ;;
  if negb (truthy (user_contact s)) then ret msg_retrieve_unidentified
  else
    appts <- get_appointments e (the_contact s) ;;
    match appts with
    | [] => ret msg_no_appointments
    | _ :: _ =>
        ret ("Here are your appointments: "
             ++ join ", " (map listing_line appts))
    end.

End Listing.

(** ** Vocabulary of the statements on the store and on the trace *)

Module Invariants.
Import BookingAgent.

Definition is_confirmed (a : Appointment) : bool := status a =? "confirmed".

(** The slots that hold a confirmed record, one entry per record. *)
Definition confirmed_slots (t : Table) : list string :=
  map slot_time (filter is_confirmed (rows t)).

(** No slot holds two confirmed records. *)
Definition one_confirmed_per_slot (t : Table) : Prop :=
  NoDup (confirmed_slots t).

(** The record [a'] is the record [a] at a later time: the identifier,
    the creation time, the owner, the name and the details are the same,
    and a cancelled record is still cancelled. *)
Definition same_record (a a' : Appointment) : Prop :=
  id a' = id a
  /\ created_at a' = created_at a
  /\ contact_number a' = contact_number a
  /\ user_name a' = user_name a
  /\ details a' = details a
  /\ (status a = "cancelled" -> status a' = "cancelled").

(** The table [t'] is the table [t] at a later time: every record is
    still there, in place, and [added] came after them. *)
Definition evolves (added : list Appointment) (t t' : Table) : Prop :=
  exists kept,
    rows t' = (kept ++ added)%list /\ Forall2 same_record (rows t) kept.

(** Relations between the state before and the state after. *)
Definition table_kept (s s' : State) : Prop := table s' = table s.

(** What the handler of the end of the call leaves alone before it
    publishes the summary: the agent, the room and the table; no summary
    has been published. *)
Definition is_summary_event (ev : Event) : bool :=
  match ev with
  | EvPublish (ConversationSummary _ _ _) => true
  | _ => false
  end.

Definition before_summary (s s' : State) : Prop :=
  client s' = client s
  /\ user_contact s' = user_contact s
  /\ _agent_session s' = _agent_session s
  /\ _room s' = _room s
  /\ chat_ctx s' = chat_ctx s
  /\ table s' = table s
  /\ exists evs,
       trace s' = (trace s ++ evs)%list
       /\ filter is_summary_event evs = [].





(** A non-cancelled record at [slot]: the test of [active_at]. *)
Definition is_active_at (slot : string) (a : Appointment) : bool :=
  (slot_time a =? slot) && negb (status a =? "cancelled").

(** What [get_appointments] gives the tools: the records of the contact,
    or nothing when the client is absent or the query raises. *)
Definition fetched (e : Env) (s : State) : list Appointment :=
  if client s
  then match select_by_contact e with
       | None => own_rows (the_contact s) (table s)
       | Some _ => []
       end
  else [].

(** What [is_slot_available] answers. *)
Definition answered_available (e : Env) (s : State) (slot : string) : bool :=
  if client s
  then match select_by_slot e with
       | None => negb (existsb (confirmed_at slot) (rows (table s)))
       | Some _ => true
       end
  else true.

(** The table after [.update(...).eq("id", i)] has been written. *)
Definition written (change : Appointment -> Appointment) (i : nat)
    (s : State) : Table :=
  Database.update_eq_id change i (table s).

(** The answer of [retrieve_appointments] for the records [l]. *)
Definition listing (l : list Appointment) : string :=
  match l with
  | [] => Listing.msg_no_appointments
  | _ :: _ =>
      "Here are your appointments: " ++ join ", " (map Listing.listing_line l)
  end.

(** The appointments the summary of the call lists (agent.py:377-385). *)
Definition booked_list (e : Env) (s : State) : list string :=
  if truthy (user_contact s) && client s
  then match select_by_contact e with
       | None =>
           map Shutdown.describe
               (filter is_confirmed (own_rows (the_contact s) (table s)))
       | Some _ => []
       end
  else [].

End Invariants.

(** ** Several sessions on one table *)

Module Sessions.
Import Database BookingAgent Invariants.

(** What the other sessions write to the table between the requests of
    this one: before its query by contact, before its availability query
    and before its write. *)
Record Others : Type := mkOthers {
  before_query : Table -> Table;
  before_check : Table -> Table;
  before_write : Table -> Table }.

(** No other session writes. *)
Definition at_rest : Others :=
  mkOthers (fun t => t) (fun t => t) (fun t => t).

(** A request of this session, served on the table as the other sessions
    have left it. *)
Definition served {A} (others : Table -> Table) (request : P A) : P A :=
  modify (fun s => set_table (others (table s)) s) ;; request.

(** agent.py:89-122, with the other sessions at work. *)
Definition book_appointment_among (o : Others) (e : Env)
    (slot details : string) : P string :=
  _broadcast_tool_call e "book_appointment"
    [("slot", slot); ("details", details)] ;;
  s <- get ;;
  if negb (truthy (user_contact s)) then ret msg_book_unidentified
  else
    existing <- served (before_query o)
                  (get_appointments e (the_contact s)) ;;
    if existsb (fun appt => (slot_time appt =? slot)
                            && (status appt =? "confirmed")) existing
    then ret (msg_already slot)
    else
      slot_available <- served (before_check o) (is_slot_available e slot) ;;
      if negb slot_available then ret (msg_taken slot)
      else
        result <- served (before_write o)
                    (create_appointment e (the_contact s)
                       (or_else (user_name' s) "Unknown") slot details) ;;
        if truthy_data result then ret (msg_booked slot details)
        else ret msg_system_error.

(** agent.py:168-201, with the other sessions at work. *)
Definition modify_appointment_among (o : Others) (e : Env)
    (old_slot new_slot : string) : P string :=
  _broadcast_tool_call e "modify_appointment"
    [("old_slot", old_slot); ("new_slot", new_slot)] ;;
  s <- get ;;
  if negb (truthy (user_contact s)) then ret msg_modify_unidentified
  else
    appts <- served (before_query o) (get_appointments e (the_contact s)) ;;
    match active_at old_slot appts with
    | None => ret (msg_not_found old_slot)
    | Some target =>
        slot_available <- served (before_check o)
                            (is_slot_available e new_slot) ;;
        if negb slot_available then ret (msg_taken new_slot)
        else
          served (before_write o)
            (update_appointment e (id target) new_slot) ;;
          ret (msg_changed old_slot new_slot)
    end.


(** The other sessions leave no slot with two confirmed records. *)
Definition keeps_one_confirmed (others : Table -> Table) : Prop :=
  forall t, one_confirmed_per_slot t -> one_confirmed_per_slot (others t).

(** The other sessions confirm nothing at [slot]. *)
Definition books_nothing_at (slot : string) (others : Table -> Table) : Prop :=
  forall t, ~ In slot (confirmed_slots t) ->
            ~ In slot (confirmed_slots (others t)).

Definition unique_ids (t : Table) : Prop := NoDup (map id (rows t)).

Definition keeps_unique_ids (others : Table -> Table) : Prop :=
  forall t, unique_ids t -> unique_ids (others t).

End Sessions.

(** ** More callers, tables and collaborators *)

Module Samples2.
Import Samples.

Definition free_slot : string := "9:00am - 10:00am, 27th January".

(** [caller] has cancelled the morning slot and holds the afternoon one. *)
Definition one_cancelled : Table :=
  mkTable [row 1 caller morning "cancelled";
           row 2 caller afternoon "confirmed";
           row 3 other_caller free_slot "confirmed"] 4.

(** The agent on [in_call]'s line, without a session. *)
Definition no_session : State := set_session None in_call.

(** The agent on [in_call]'s line, in a connected room that has no local
    participant. *)
Definition no_participant_call : State :=
  set_room (Some (mkRoom true None)) in_call.



(** U+00A0, U+3000 and U+0085 in UTF-8. *)
Definition nbsp : string :=
  String (ascii_of_nat 194) (String (ascii_of_nat 160) "").
Definition ideographic_space : string :=
  String (ascii_of_nat 227)
    (String (ascii_of_nat 128) (String (ascii_of_nat 128) "")).
Definition next_line : string :=
  String (ascii_of_nat 194) (String (ascii_of_nat 133) "").

(** The language model answers with blank characters beyond ASCII. *)
Definition blank_model : Env :=
  mkEnv None None None None None 0 None None (fun _ => None) None
        None None None None
        (fun _ => ([mkChunk (Some (Some nbsp));
                    mkChunk (Some (Some (ideographic_space ++ next_line)))],
                   None))
        None true None None 2 1.

(** Twelve turns after the instructions, the first with no-break spaces
    around its text. *)
Definition long_transcript : list ChatItem :=
  [ChatMessage "system" (Some "You are a helpful voice assistant.") false;
   ChatMessage "assistant" (Some (nbsp ++ "Hello." ++ nbsp)) false;
   ChatMessage "user" (Some "Hi.") false;
   ChatMessage "assistant" (Some "Your number?") false;
   ChatMessage "user" (Some "+15551234") false;
   ChatMessage "assistant" (Some "How can I help?") false;
   ChatMessage "user" (Some "A checkup.") false;
   ChatMessage "assistant" (Some "Which slot?") false;
   ChatMessage "user" (Some "The morning.") false;
   ChatMessage "assistant" (Some "Booked.") false;
   ChatMessage "user" (Some "Thanks.") false;
   ChatMessage "assistant" (Some "Anything else?") false;
   ChatMessage "user" (Some "No, bye.") false].

Definition long_call : State :=
  mkState true (Some caller) None (Some (mkSession true true false))
          (_room in_call) long_transcript one_booking [] [].

End Samples2.

(** ** Running the monad *)

Module Run.
Import Database BookingAgent.

Lemma bind_eq {St A B} (m : M St A) (k : A -> M St B) (s : St) :
  bind m k s = match m s with
               | (Ok a, s') => k a s'
               | (Raise e, s') => (Raise e, s')
               end.
Proof. reflexivity. Qed.

Lemma get_run {St} (s : St) : get s = (Ok s, s).
Proof. reflexivity. Qed.

Lemma ret_run {St A} (a : A) (s : St) : ret a s = (Ok a, s).
Proof. reflexivity. Qed.

Lemma modify_run {St} (f : St -> St) (s : St) : modify f s = (Ok tt, f s).
Proof. reflexivity. Qed.

Lemma broadcast_run e tool args s :
  _broadcast_tool_call e tool args s = (Ok tt, after_broadcast tool args s).
Proof.
  unfold _broadcast_tool_call, after_broadcast, can_publish, publish_data,
    try_except, bind, get, call, modify.
  destruct (isconnected s); [|reflexivity].
  destruct (has_participant s); [|reflexivity].
  destruct (publish_tool_call e); reflexivity.
Qed.

Lemma get_appointments_run e c s :
  get_appointments e c s =
  (Ok (if client s then
         match select_by_contact e with
         | None => own_rows c (table s)
         | Some _ => []
         end
       else []), s).
Proof.
  unfold get_appointments, bind, get, try_except, execute.
  destruct (client s); [destruct (select_by_contact e)|]; reflexivity.
Qed.

Lemma no_match_iff {A} (p : A -> bool) (l : list A) :
  (List.length (filter p l) =? 0)%nat = negb (existsb p l).
Proof.
  induction l as [|a l IH]; [reflexivity|].
  simpl. destruct (p a); [reflexivity | exact IH].
Qed.

Lemma is_slot_available_run e slot s :
  is_slot_available e slot s =
  (Ok (if client s then
         match select_by_slot e with
         | None => negb (existsb (confirmed_at slot) (rows (table s)))
         | Some _ => true
         end
       else true), s).
Proof.
  unfold is_slot_available, bind, get, try_except, execute.
  destruct (client s); [destruct (select_by_slot e)|]; try reflexivity.
  unfold ret. rewrite no_match_iff. reflexivity.
Qed.

Lemma create_appointment_run e c n slot details s :
  create_appointment e c n slot details s =
  if client s then
    match insert_row e with
    | None =>
        let data :=
          mkAppointment (next_id (table s)) (now e) c n slot details
                        "confirmed" in
        (Ok (Some [data]),
         set_table (mkTable (rows (table s) ++ [data])
                            (S (next_id (table s)))) s)
    | Some _ => (Ok None, s)
    end
  else (Ok None, s).
Proof.
  unfold create_appointment, bind, get, try_except, execute.
  destruct (client s); [destruct (insert_row e)|]; reflexivity.
Qed.

Lemma cancel_appointment_run e i s :
  Database.cancel_appointment e i s =
  if client s then
    match update_status e with
    | None =>
        (Ok (Some (updated (with_status "cancelled") i (table s))),
         set_table (update_eq_id (with_status "cancelled") i (table s)) s)
    | Some _ => (Ok None, s)
    end
  else (Ok None, s).
Proof.
  unfold Database.cancel_appointment, bind, get, try_except, execute.
  destruct (client s); [destruct (update_status e)|]; reflexivity.
Qed.

Lemma update_appointment_run e i slot s :
  update_appointment e i slot s =
  if client s then
    match update_slot e with
    | None =>
        (Ok (Some (updated (with_slot_time slot) i (table s))),
         set_table (update_eq_id (with_slot_time slot) i (table s)) s)
    | Some _ => (Ok None, s)
    end
  else (Ok None, s).
Proof.
  unfold update_appointment, bind, get, try_except, execute.
  destruct (client s); [destruct (update_slot e)|]; reflexivity.
Qed.

(** The broadcast touches the trace only. *)
Lemma after_broadcast_client t a s :
  client (after_broadcast t a s) = client s.
Proof. unfold after_broadcast. destruct (can_publish s); reflexivity. Qed.

Lemma after_broadcast_user_contact t a s :
  user_contact (after_broadcast t a s) = user_contact s.
Proof. unfold after_broadcast. destruct (can_publish s); reflexivity. Qed.

Lemma after_broadcast_user_name t a s :
  user_name' (after_broadcast t a s) = user_name' s.
Proof. unfold after_broadcast. destruct (can_publish s); reflexivity. Qed.

Lemma after_broadcast_table t a s :
  table (after_broadcast t a s) = table s.
Proof. unfold after_broadcast. destruct (can_publish s); reflexivity. Qed.

Lemma after_broadcast_session t a s :
  _agent_session (after_broadcast t a s) = _agent_session s.
Proof. unfold after_broadcast. destruct (can_publish s); reflexivity. Qed.

Lemma after_broadcast_room t a s :
  _room (after_broadcast t a s) = _room s.
Proof. unfold after_broadcast. destruct (can_publish s); reflexivity. Qed.

Lemma after_broadcast_chat_ctx t a s :
  chat_ctx (after_broadcast t a s) = chat_ctx s.
Proof. unfold after_broadcast. destruct (can_publish s); reflexivity. Qed.

Lemma after_broadcast_pending t a s :
  pending (after_broadcast t a s) = pending s.
Proof. unfold after_broadcast. destruct (can_publish s); reflexivity. Qed.

Lemma after_broadcast_the_contact t a s :
  the_contact (after_broadcast t a s) = the_contact s.
Proof.
  unfold the_contact. rewrite after_broadcast_user_contact. reflexivity.
Qed.

Lemma existsb_filter {A} (p q : A -> bool) (l : list A) :
  existsb p (filter q l) = true -> existsb p l = true.
Proof.
  rewrite !existsb_exists. intros [x [Hin Hp]].
  apply filter_In in Hin. exists x. tauto.
Qed.

Lemma not_taken_not_own slot c t :
  existsb (confirmed_at slot) (rows t) = false ->
  existsb (confirmed_at slot) (own_rows c t) = false.
Proof.
  intros H.
  destruct (existsb (confirmed_at slot) (own_rows c t)) eqn:E; [|reflexivity].
  apply existsb_filter in E. congruence.
Qed.
End Run.

Create Rewrite HintDb frame.
#[export] Hint Rewrite Run.after_broadcast_client
  Run.after_broadcast_user_contact Run.after_broadcast_user_name
  Run.after_broadcast_table Run.after_broadcast_session
  Run.after_broadcast_room Run.after_broadcast_chat_ctx
  Run.after_broadcast_pending Run.after_broadcast_the_contact : frame.

(** One statement of a tool: the bind is opened, the call at its head is
    replaced by what it returns. *)
Ltac step :=
  rewrite Run.bind_eq;
  first
    [ rewrite Run.broadcast_run
    | rewrite Run.get_run
    | rewrite Run.modify_run
    | rewrite Run.get_appointments_run
    | rewrite Run.is_slot_available_run
    | rewrite Run.create_appointment_run
    | rewrite Run.cancel_appointment_run
    | rewrite Run.update_appointment_run ];
  cbv beta iota; autorewrite with frame.

(** The test on the queried rows, under its name. *)
Ltac name_tests :=
  repeat match goal with
  | |- context [existsb (fun a => (slot_time a =? ?x) && (status a =? "confirmed")) ?l] =>
      change (existsb (fun a => (slot_time a =? x) && (status a =? "confirmed")) l)
        with (existsb (BookingAgent.confirmed_at x) l)
  end.

(** ** The booking tools *)

Module BookingFacts.
Import Database BookingAgent Run.

Section Unidentified.
Variables (e : Env) (s : State).
Hypothesis unidentified : truthy (user_contact s) = false.

Lemma book_unidentified slot details :
  book_appointment e slot details s =
  (Ok msg_book_unidentified,
   after_broadcast "book_appointment"
     [("slot", slot); ("details", details)] s).
Proof.
  unfold book_appointment. do 2 step. rewrite unidentified. reflexivity.
Qed.

Lemma cancel_unidentified slot :
  cancel_appointment e slot s =
  (Ok msg_cancel_unidentified,
   after_broadcast "cancel_appointment" [("slot", slot)] s).
Proof.
  unfold cancel_appointment. do 2 step. rewrite unidentified. reflexivity.
Qed.

Lemma modify_unidentified old_slot new_slot :
  modify_appointment e old_slot new_slot s =
  (Ok msg_modify_unidentified,
   after_broadcast "modify_appointment"
     [("old_slot", old_slot); ("new_slot", new_slot)] s).
Proof.
  unfold modify_appointment. do 2 step. rewrite unidentified. reflexivity.
Qed.
End Unidentified.

Section Identified.
Variables (e : Env) (s : State).
Hypothesis identified : truthy (user_contact s) = true.
Hypothesis has_client : client s = true.
Hypothesis by_contact_ok : select_by_contact e = None.

Lemma book_already slot details :
  existsb (confirmed_at slot) (own_rows (the_contact s) (table s)) = true ->
  book_appointment e slot details s =
  (Ok (msg_already slot),
   after_broadcast "book_appointment"
     [("slot", slot); ("details", details)] s).
Proof.
  intros Ho. unfold book_appointment.
  do 2 step. rewrite identified. cbn [negb]. step.
  rewrite has_client, by_contact_ok. name_tests. rewrite Ho.
  reflexivity.
Qed.

Lemma cancel_found slot target :
  active_at slot (own_rows (the_contact s) (table s)) = Some target ->
  cancel_appointment e slot s =
  match update_status e with
  | None =>
      (Ok (msg_cancelled slot),
       set_table (update_eq_id (with_status "cancelled") (id target)
                    (table s))
         (after_broadcast "cancel_appointment" [("slot", slot)] s))
  | Some _ =>
      (Ok (msg_cancelled slot),
       after_broadcast "cancel_appointment" [("slot", slot)] s)
  end.
Proof.
  intros Ht. unfold cancel_appointment.
  do 2 step. rewrite identified. cbn [negb]. step.
  rewrite has_client, by_contact_ok. rewrite Ht. step.
  rewrite has_client. destruct (update_status e); reflexivity.
Qed.

Lemma modify_not_found old_slot new_slot :
  active_at old_slot (own_rows (the_contact s) (table s)) = None ->
  modify_appointment e old_slot new_slot s =
  (Ok (msg_not_found old_slot),
   after_broadcast "modify_appointment"
     [("old_slot", old_slot); ("new_slot", new_slot)] s).
Proof.
  intros Ht. unfold modify_appointment.
  do 2 step. rewrite identified. cbn [negb]. step.
  rewrite has_client, by_contact_ok. rewrite Ht. reflexivity.
Qed.

(** When the availability query fails, the slot counts as free. *)
Lemma modify_unchecked old_slot new_slot target ex :
  select_by_slot e = Some ex ->
  active_at old_slot (own_rows (the_contact s) (table s)) = Some target ->
  modify_appointment e old_slot new_slot s =
  match update_slot e with
  | None =>
      (Ok (msg_changed old_slot new_slot),
       set_table (update_eq_id (with_slot_time new_slot) (id target)
                    (table s))
         (after_broadcast "modify_appointment"
            [("old_slot", old_slot); ("new_slot", new_slot)] s))
  | Some _ =>
      (Ok (msg_changed old_slot new_slot),
       after_broadcast "modify_appointment"
         [("old_slot", old_slot); ("new_slot", new_slot)] s)
  end.
Proof.
  intros Hq Ht. unfold modify_appointment.
  do 2 step. rewrite identified. cbn [negb]. step.
  rewrite has_client, by_contact_ok. rewrite Ht. step.
  rewrite has_client, Hq. cbn [negb]. step.
  rewrite has_client. destruct (update_slot e); reflexivity.
Qed.

Hypothesis by_slot_ok : select_by_slot e = None.

Lemma book_taken slot details :
  existsb (confirmed_at slot) (own_rows (the_contact s) (table s)) = false ->
  existsb (confirmed_at slot) (rows (table s)) = true ->
  book_appointment e slot details s =
  (Ok (msg_taken slot),
   after_broadcast "book_appointment"
     [("slot", slot); ("details", details)] s).
Proof.
  intros Ho Ha. unfold book_appointment.
  do 2 step. rewrite identified. cbn [negb]. step.
  rewrite has_client, by_contact_ok. name_tests. rewrite Ho. step.
  rewrite has_client, by_slot_ok, Ha. reflexivity.
Qed.

Lemma book_free slot details :
  existsb (confirmed_at slot) (rows (table s)) = false ->
  book_appointment e slot details s =
  match insert_row e with
  | None =>
      (Ok (msg_booked slot details),
       set_table (mkTable (rows (table s) ++ [new_row e s slot details])
                          (S (next_id (table s))))
         (after_broadcast "book_appointment"
            [("slot", slot); ("details", details)] s))
  | Some _ =>
      (Ok msg_system_error,
       after_broadcast "book_appointment"
         [("slot", slot); ("details", details)] s)
  end.
Proof.
  intros Ha. pose proof (not_taken_not_own slot (the_contact s) _ Ha) as Ho.
  unfold book_appointment.
  do 2 step. rewrite identified. cbn [negb]. step.
  rewrite has_client, by_contact_ok. name_tests. rewrite Ho. step.
  rewrite has_client, by_slot_ok, Ha. cbn [negb]. step.
  rewrite has_client. destruct (insert_row e); reflexivity.
Qed.

Lemma modify_taken old_slot new_slot target :
  active_at old_slot (own_rows (the_contact s) (table s)) = Some target ->
  existsb (confirmed_at new_slot) (rows (table s)) = true ->
  modify_appointment e old_slot new_slot s =
  (Ok (msg_taken new_slot),
   after_broadcast "modify_appointment"
     [("old_slot", old_slot); ("new_slot", new_slot)] s).
Proof.
  intros Ht Ha. unfold modify_appointment.
  do 2 step. rewrite identified. cbn [negb]. step.
  rewrite has_client, by_contact_ok. rewrite Ht. step.
  rewrite has_client, by_slot_ok, Ha. reflexivity.
Qed.

Lemma modify_free old_slot new_slot target :
  active_at old_slot (own_rows (the_contact s) (table s)) = Some target ->
  existsb (confirmed_at new_slot) (rows (table s)) = false ->
  modify_appointment e old_slot new_slot s =
  match update_slot e with
  | None =>
      (Ok (msg_changed old_slot new_slot),
       set_table (update_eq_id (with_slot_time new_slot) (id target)
                    (table s))
         (after_broadcast "modify_appointment"
            [("old_slot", old_slot); ("new_slot", new_slot)] s))
  | Some _ =>
      (Ok (msg_changed old_slot new_slot),
       after_broadcast "modify_appointment"
         [("old_slot", old_slot); ("new_slot", new_slot)] s)
  end.
Proof.
  intros Ht Ha. unfold modify_appointment.
  do 2 step. rewrite identified. cbn [negb]. step.
  rewrite has_client, by_contact_ok. rewrite Ht. step.
  rewrite has_client, by_slot_ok, Ha. cbn [negb]. step.
  rewrite has_client. destruct (update_slot e); reflexivity.
Qed.
End Identified.
End BookingFacts.

(** ** The claims on the booking tools *)

Module BookingClaims.
Import Database BookingAgent Run BookingFacts Samples.

(** C1, as the code has it.  For an identified caller whose store
    answers both reads, [book_appointment] decides in this order: the
    caller already holds a confirmed record for the slot: the "already
    booked" message, the table untouched; otherwise some confirmed record
    for the slot exists: the "slot taken" message, the table untouched;
    otherwise the insert is attempted: when it succeeds the table gains
    exactly one record, confirmed, for that caller and slot, and when it
    raises the system-error message is returned and the table is
    untouched.  After a successful booking a second attempt on the same
    slot by the same caller gets "already booked" and adds no record. *)
Theorem book_appointment_decision_order (e : Env) (s : State)
    (slot details : string) :
  truthy (user_contact s) = true ->
  client s = true ->
  select_by_contact e = None ->
  select_by_slot e = None ->
  let c := the_contact s in
  let out := book_appointment e slot details s in
  (existsb (confirmed_at slot) (own_rows c (table s)) = true ->
     fst out = Ok (msg_already slot) /\ table (snd out) = table s)
  /\ (existsb (confirmed_at slot) (own_rows c (table s)) = false ->
      existsb (confirmed_at slot) (rows (table s)) = true ->
      fst out = Ok (msg_taken slot) /\ table (snd out) = table s)
  /\ (existsb (confirmed_at slot) (rows (table s)) = false ->
      insert_row e = None ->
      fst out = Ok (msg_booked slot details)
      /\ exists a,
           table (snd out)
           = mkTable (rows (table s) ++ [a]) (S (next_id (table s)))
           /\ contact_number a = c /\ slot_time a = slot
           /\ status a = "confirmed"
           /\ forall e2 details2,
                select_by_contact e2 = None ->
                select_by_slot e2 = None ->
                let again := book_appointment e2 slot details2 (snd out) in
                fst again = Ok (msg_already slot)
                /\ table (snd again) = table (snd out))
  /\ (existsb (confirmed_at slot) (rows (table s)) = false ->
      insert_row e <> None ->
      fst out = Ok msg_system_error /\ table (snd out) = table s).
Proof.
  intros Hid Hcl Hq1 Hq2 c out. subst out.
  repeat split.
  - rewrite (book_already e s Hid Hcl Hq1 _ _ H). reflexivity.
  - rewrite (book_already e s Hid Hcl Hq1 _ _ H). cbn [snd].
    apply after_broadcast_table.
  - rewrite (book_taken e s Hid Hcl Hq1 Hq2 _ _ H H0). reflexivity.
  - rewrite (book_taken e s Hid Hcl Hq1 Hq2 _ _ H H0). cbn [snd].
    apply after_broadcast_table.
  - rewrite (book_free e s Hid Hcl Hq1 Hq2 _ _ H), H0. reflexivity.
  - rewrite (book_free e s Hid Hcl Hq1 Hq2 _ details H), H0. cbn [snd].
    exists (new_row e s slot details).
    repeat split.
    + set (s1 := set_table _ _).
      assert (Hid1 : truthy (user_contact s1) = true)
        by (unfold s1; cbn; rewrite after_broadcast_user_contact; exact Hid).
      assert (Hcl1 : client s1 = true)
        by (unfold s1; cbn; rewrite after_broadcast_client; exact Hcl).
      rewrite (book_already e2 s1 Hid1 Hcl1 H1 slot details2); [reflexivity|].
      unfold s1, own_rows, the_contact. cbn.
      rewrite after_broadcast_user_contact. fold (the_contact s).
      rewrite filter_app, existsb_app. cbn.
      rewrite String.eqb_refl. cbn. unfold confirmed_at. cbn.
      rewrite String.eqb_refl. cbn. apply orb_true_r.
    + set (s1 := set_table _ _).
      assert (Hid1 : truthy (user_contact s1) = true)
        by (unfold s1; cbn; rewrite after_broadcast_user_contact; exact Hid).
      assert (Hcl1 : client s1 = true)
        by (unfold s1; cbn; rewrite after_broadcast_client; exact Hcl).
      rewrite (book_already e2 s1 Hid1 Hcl1 H1 slot details2).
      * cbn [snd]. apply after_broadcast_table.
      * unfold s1, own_rows, the_contact. cbn.
        rewrite after_broadcast_user_contact. fold (the_contact s).
        rewrite filter_app, existsb_app. cbn.
        rewrite String.eqb_refl. cbn. unfold confirmed_at. cbn.
        rewrite String.eqb_refl. cbn. apply orb_true_r.
  - rewrite (book_free e s Hid Hcl Hq1 Hq2 _ _ H).
    destruct (insert_row e); [reflexivity | congruence].
  - rewrite (book_free e s Hid Hcl Hq1 Hq2 _ _ H).
    destruct (insert_row e); [|congruence]. cbn [snd].
    apply after_broadcast_table.
Qed.

Lemma book_appointment_decision_order_witness :
  let s := identified true empty_table in
  (truthy (user_contact s) = true /\ client s = true
   /\ select_by_contact quiet = None /\ select_by_slot quiet = None)
  /\ fst (book_appointment quiet morning "checkup" s)
     = Ok (msg_booked morning "checkup")
  /\ fst (book_appointment insert_fails morning "checkup" s)
     = Ok msg_system_error
  /\ fst (book_appointment quiet afternoon "checkup"
            (identified true two_callers))
     = Ok (msg_taken afternoon).
Proof.
  split; [repeat split|].
  pose proof (book_appointment_decision_order quiet
                (identified true empty_table) morning "checkup"
                eq_refl eq_refl eq_refl eq_refl) as (_ & _ & Hfree & _).
  pose proof (book_appointment_decision_order insert_fails
                (identified true empty_table) morning "checkup"
                eq_refl eq_refl eq_refl eq_refl) as (_ & _ & _ & Hfail).
  pose proof (book_appointment_decision_order quiet
                (identified true two_callers) afternoon "checkup"
                eq_refl eq_refl eq_refl eq_refl) as (_ & Htaken & _).
  split; [apply Hfree; reflexivity|].
  split; [apply Hfail; [reflexivity | discriminate]|].
  apply Htaken; reflexivity.
Defined.

(** C1 as stated fails where the agent has no store client
    ([Database.__init__] without credentials): the caller is identified,
    no confirmed record for the slot exists, and yet no record is
    created; the tool answers with the system-error message. *)
Lemma book_appointment_without_store_cex :
  let s := identified false empty_table in
  let out := book_appointment quiet morning "checkup" s in
  truthy (user_contact s) = true
  /\ existsb (confirmed_at morning) (rows (table s)) = false
  /\ fst out = Ok msg_system_error
  /\ ~ (exists a, rows (table (snd out)) = (rows (table s) ++ [a])%list).
Proof.
  repeat split. intros [a H]. discriminate H.
Qed.

(** C2 at its failing inputs.  The caller holds an active record at
    [slot] and the store answers the reads; when the write of
    [cancel_appointment] raises, the tool still returns the success
    message "has been cancelled", and when the write of
    [modify_appointment] raises, the tool still returns "Appointment
    changed": the table is untouched and no system-error message is
    returned.  Only [book_appointment] looks at what its write returned. *)
Theorem failed_write_reported_as_success (e : Env) (s : State)
    (slot new_slot : string) (target : Appointment) (ex : exn) :
  truthy (user_contact s) = true ->
  client s = true ->
  select_by_contact e = None ->
  active_at slot (own_rows (the_contact s) (table s)) = Some target ->
  (update_status e = Some ex ->
     fst (cancel_appointment e slot s) = Ok (msg_cancelled slot)
     /\ table (snd (cancel_appointment e slot s)) = table s)
  /\ (select_by_slot e = None ->
      existsb (confirmed_at new_slot) (rows (table s)) = false ->
      update_slot e = Some ex ->
      fst (modify_appointment e slot new_slot s)
      = Ok (msg_changed slot new_slot)
      /\ table (snd (modify_appointment e slot new_slot s)) = table s).
Proof.
  intros Hid Hcl Hq Ht. split.
  - intros Hw. rewrite (cancel_found e s Hid Hcl Hq _ _ Ht), Hw.
    split; [reflexivity | apply after_broadcast_table].
  - intros Hq2 Ha Hw.
    rewrite (modify_free e s Hid Hcl Hq Hq2 _ _ _ Ht Ha), Hw.
    split; [reflexivity | apply after_broadcast_table].
Qed.

Lemma failed_write_reported_as_success_witness :
  let s := identified true one_booking in
  fst (cancel_appointment update_fails morning s)
  = Ok "Appointment at 10:30am - 11:30am, 26th January has been cancelled."
  /\ table (snd (cancel_appointment update_fails morning s)) = one_booking
  /\ fst (modify_appointment update_fails morning afternoon s)
     = Ok "Appointment changed from 10:30am - 11:30am, 26th January to 2:15pm - 3:15pm, 26th January."
  /\ table (snd (modify_appointment update_fails morning afternoon s))
     = one_booking.
Proof.
  pose proof (failed_write_reported_as_success update_fails
                (identified true one_booking) morning afternoon
                (row 1 caller morning "confirmed") down
                eq_refl eq_refl eq_refl eq_refl) as [Hc Hm].
  destruct (Hc eq_refl) as [Hc1 Hc2].
  destruct (Hm eq_refl eq_refl eq_refl) as [Hm1 Hm2].
  repeat split; assumption.
Defined.

(** C7.  While [identify_user] has not set a contact number, each of
    [book_appointment], [cancel_appointment] and [modify_appointment]
    returns its "not identified" message as a result, not an exception,
    and leaves the table as it was. *)
Theorem unidentified_caller_is_refused (e : Env) (s : State)
    (slot details old_slot new_slot : string) :
  user_contact s = None ->
  (fst (book_appointment e slot details s) = Ok msg_book_unidentified
   /\ table (snd (book_appointment e slot details s)) = table s)
  /\ (fst (cancel_appointment e slot s) = Ok msg_cancel_unidentified
      /\ table (snd (cancel_appointment e slot s)) = table s)
  /\ (fst (modify_appointment e old_slot new_slot s)
      = Ok msg_modify_unidentified
      /\ table (snd (modify_appointment e old_slot new_slot s)) = table s).
Proof.
  intros Hnone.
  assert (Hf : truthy (user_contact s) = false) by (rewrite Hnone; reflexivity).
  rewrite (book_unidentified e s Hf), (cancel_unidentified e s Hf),
    (modify_unidentified e s Hf).
  cbn [fst snd]. rewrite !after_broadcast_table. repeat split.
Qed.

Lemma unidentified_caller_is_refused_witness :
  let s := agent true one_booking in
  user_contact s = None
  /\ fst (book_appointment quiet afternoon "checkup" s)
     = Ok "I need your contact number before booking. Please provide it using the identify_user tool."
  /\ fst (cancel_appointment quiet morning s)
     = Ok "Please provide your phone number."
  /\ fst (modify_appointment quiet morning afternoon s)
     = Ok "Please identify yourself first using the identify_user tool."
  /\ table (snd (cancel_appointment quiet morning s)) = one_booking.
Proof.
  pose proof (unidentified_caller_is_refused quiet (agent true one_booking)
                afternoon "checkup" morning afternoon eq_refl)
    as ((Hb & _) & (Hc & Hc') & (Hm & _)).
  split; [reflexivity|].
  split; [exact Hb|].
  split; [exact Hc|].
  split; [exact Hm|exact Hc'].
Defined.

(** C10.  [identify_user] takes any string and confirms it.  With the
    empty string it returns the confirmation and stores [""]; every
    booking tool called afterwards still returns its "not identified"
    message and leaves the table as it was, because the tools test the
    truth value of the stored contact. *)
Theorem identify_user_empty_string (e e' : Env) (s : State)
    (slot details old_slot new_slot : string) :
  (forall contact,
     fst (identify_user e contact s)
     = Ok ("Thank you! I have your contact number " ++ contact
           ++ ". How can I help you today?")
     /\ user_contact (snd (identify_user e contact s)) = Some contact)
  /\ let s1 := snd (identify_user e "" s) in
     fst (identify_user e "" s)
     = Ok "Thank you! I have your contact number . How can I help you today?"
     /\ (fst (book_appointment e' slot details s1) = Ok msg_book_unidentified
         /\ table (snd (book_appointment e' slot details s1)) = table s)
     /\ (fst (cancel_appointment e' slot s1) = Ok msg_cancel_unidentified
         /\ table (snd (cancel_appointment e' slot s1)) = table s)
     /\ (fst (modify_appointment e' old_slot new_slot s1)
         = Ok msg_modify_unidentified
         /\ table (snd (modify_appointment e' old_slot new_slot s1))
            = table s).
Proof.
  assert (Hrun : forall contact,
             identify_user e contact s
             = (Ok ("Thank you! I have your contact number " ++ contact
                    ++ ". How can I help you today?"),
                set_user_contact (Some contact)
                  (after_broadcast "identify_user"
                     [("contact_number", contact)] s))).
  { intros contact. unfold identify_user. do 2 step. reflexivity. }
  split.
  - intros contact. rewrite Hrun. split; reflexivity.
  - rewrite Hrun. cbn [fst snd].
    set (s1 := set_user_contact _ _).
    assert (Hf : truthy (user_contact s1) = false) by reflexivity.
    assert (Ht : table s1 = table s)
      by (unfold s1; cbn; apply after_broadcast_table).
    rewrite (book_unidentified e' s1 Hf), (cancel_unidentified e' s1 Hf),
      (modify_unidentified e' s1 Hf).
    cbn [fst snd]. rewrite !after_broadcast_table, Ht. repeat split.
Qed.

(** An update by identifier leaves the rows with another identifier. *)
Lemma update_other_rows change i (l : list Appointment) :
  ~ In i (map id l) ->
  map (fun a => if (id a =? i)%nat then change a else a) l = l.
Proof.
  induction l as [|a l IH]; intros Hn; [reflexivity|].
  cbn in *. destruct (Nat.eqb_spec (id a) i) as [E|E].
  - exfalso. apply Hn. left. exact E.
  - f_equal. apply IH. intros Hin. apply Hn. right. exact Hin.
Qed.

Lemma update_one_row change before target after :
  NoDup (map id (before ++ target :: after)) ->
  rows (update_eq_id change (id target)
          (mkTable (before ++ target :: after) 0))
  = (before ++ change target :: after)%list.
Proof.
  intros Hnd. rewrite map_app in Hnd. cbn [map] in Hnd.
  pose proof (NoDup_remove_2 _ _ _ Hnd) as Hout.
  unfold update_eq_id. cbn [rows]. rewrite map_app. cbn [map].
  rewrite Nat.eqb_refl.
  rewrite !update_other_rows; [reflexivity| |];
    intros Hin; apply Hout, in_or_app; [right | left]; exact Hin.
Qed.

Lemma active_at_In slot l target :
  active_at slot l = Some target ->
  In target l /\ slot_time target = slot /\ status target <> "cancelled".
Proof.
  intros H. apply find_some in H. destruct H as [Hin Hp].
  apply andb_true_iff in Hp. destruct Hp as [Hs Hst].
  apply String.eqb_eq in Hs. apply negb_true_iff, String.eqb_neq in Hst.
  auto.
Qed.

(** C8, as the code has it.  The caller is identified, the store answers
    both reads, record identifiers are unique, and [target] is the
    caller's first non-cancelled record at [old_slot].  When no confirmed
    record exists for [new_slot] and the update is written, the table
    after [modify_appointment] is the table before with [target] replaced,
    in place, by a record that differs from it in [slot_time] alone;
    when a confirmed record exists for [new_slot], the conflict message
    is returned and the table is untouched. *)
Theorem modify_appointment_frame (e : Env) (s : State)
    (old_slot new_slot : string) (target : Appointment) :
  truthy (user_contact s) = true ->
  client s = true ->
  select_by_contact e = None ->
  select_by_slot e = None ->
  NoDup (map id (rows (table s))) ->
  active_at old_slot (own_rows (the_contact s) (table s)) = Some target ->
  let out := modify_appointment e old_slot new_slot s in
  (existsb (confirmed_at new_slot) (rows (table s)) = false ->
   update_slot e = None ->
   fst out = Ok (msg_changed old_slot new_slot)
   /\ exists before after target',
        rows (table s) = (before ++ target :: after)%list
        /\ rows (table (snd out)) = (before ++ target' :: after)%list
        /\ next_id (table (snd out)) = next_id (table s)
        /\ slot_time target' = new_slot
        /\ id target' = id target
        /\ created_at target' = created_at target
        /\ contact_number target' = contact_number target
        /\ user_name target' = user_name target
        /\ details target' = details target
        /\ status target' = status target)
  /\ (existsb (confirmed_at new_slot) (rows (table s)) = true ->
      fst out = Ok (msg_taken new_slot) /\ table (snd out) = table s).
Proof.
  intros Hid Hcl Hq1 Hq2 Hnd Ht out. subst out. split.
  - intros Ha Hw.
    rewrite (modify_free e s Hid Hcl Hq1 Hq2 _ _ _ Ht Ha), Hw.
    split; [reflexivity|]. cbn [snd].
    destruct (active_at_In _ _ _ Ht) as [Hin _].
    apply filter_In in Hin. destruct Hin as [Hin _].
    destruct (in_split _ _ Hin) as (before & after & Hrows).
    exists before, after, (with_slot_time new_slot target).
    split; [exact Hrows|].
    split; [|repeat split].
    cbn. rewrite Hrows in *.
    exact (update_one_row (with_slot_time new_slot) before target after Hnd).
  - intros Ha.
    rewrite (modify_taken e s Hid Hcl Hq1 Hq2 _ _ _ Ht Ha).
    split; [reflexivity | apply after_broadcast_table].
Qed.

Lemma modify_appointment_frame_witness :
  let s := identified true two_callers in
  let out := modify_appointment quiet morning "9:00am - 10:00am, 27th January" s in
  NoDup (map id (rows (table s)))
  /\ active_at morning (own_rows (the_contact s) (table s))
     = Some (row 1 caller morning "confirmed")
  /\ fst out
     = Ok "Appointment changed from 10:30am - 11:30am, 26th January to 9:00am - 10:00am, 27th January."
  /\ fst (modify_appointment quiet morning afternoon s)
     = Ok (msg_taken afternoon)
  /\ table (snd (modify_appointment quiet morning afternoon s))
     = two_callers.
Proof.
  assert (Hnd : NoDup (map id (rows two_callers))).
  { cbn. repeat constructor; cbn; intuition discriminate. }
  split; [exact Hnd|]. split; [reflexivity|].
  pose proof (modify_appointment_frame quiet (identified true two_callers)
                morning "9:00am - 10:00am, 27th January"
                (row 1 caller morning "confirmed")
                eq_refl eq_refl eq_refl eq_refl Hnd eq_refl) as [Hfree _].
  pose proof (modify_appointment_frame quiet (identified true two_callers)
                morning afternoon (row 1 caller morning "confirmed")
                eq_refl eq_refl eq_refl eq_refl Hnd eq_refl) as [_ Htaken].
  destruct (Hfree eq_refl eq_refl) as [Hmsg _].
  destruct (Htaken eq_refl) as [Hmsg' Htab].
  split; [exact Hmsg|]. split; [exact Hmsg' | exact Htab].
Defined.

(** C8 as stated fails where a read of the store raises.  When the
    query of [get_appointments] raises it answers with the empty list
    (db.py:31-33): the caller holds the morning record, the new slot is
    free, and the tool reports that the appointment could not be found
    and changes nothing.  When the availability query raises,
    [is_slot_available] answers "available" (db.py:109-112): the
    afternoon slot holds a confirmed record of another caller, and the
    tool moves the caller's record onto it and reports the change
    instead of the conflict. *)
Lemma modify_with_failing_reads_cex :
  (let s := identified true two_callers in
   let free := "9:00am - 10:00am, 27th January" in
   let out := modify_appointment contact_query_fails morning free s in
   active_at morning (own_rows (the_contact s) (table s))
   = Some (row 1 caller morning "confirmed")
   /\ existsb (confirmed_at free) (rows (table s)) = false
   /\ fst out = Ok (msg_not_found morning)
   /\ table (snd out) = table s)
  /\ (let s := identified true two_callers in
      let out := modify_appointment slot_query_fails morning afternoon s in
      existsb (confirmed_at afternoon) (rows (table s)) = true
      /\ fst out <> Ok (msg_taken afternoon)
      /\ fst out = Ok (msg_changed morning afternoon)
      /\ rows (table (snd out))
         = [row 1 caller afternoon "confirmed";
            row 2 other_caller afternoon "confirmed"]).
Proof.
  repeat split. intros H. discriminate H.
Qed.

(** C9, as the code has it.  The caller is identified, the store answers
    both reads, and the caller holds a non-cancelled record at
    [old_slot].  When the caller holds a confirmed record at [new_slot],
    [modify_appointment] returns the "already booked by another customer"
    message and leaves the table untouched.  For [new_slot = old_slot]
    the confirmed record is itself the record at [old_slot]. *)
Theorem modify_onto_own_slot_rejected (e : Env) (s : State)
    (old_slot new_slot : string) :
  truthy (user_contact s) = true ->
  client s = true ->
  select_by_contact e = None ->
  select_by_slot e = None ->
  existsb (confirmed_at new_slot) (own_rows (the_contact s) (table s))
  = true ->
  (active_at old_slot (own_rows (the_contact s) (table s)) <> None ->
   fst (modify_appointment e old_slot new_slot s) = Ok (msg_taken new_slot)
   /\ table (snd (modify_appointment e old_slot new_slot s)) = table s)
  /\ (fst (modify_appointment e new_slot new_slot s)
      = Ok (msg_taken new_slot)
      /\ table (snd (modify_appointment e new_slot new_slot s)) = table s).
Proof.
  intros Hid Hcl Hq1 Hq2 Hown.
  pose proof (existsb_filter _ _ _ Hown) as Hany.
  assert (Hgen : forall old,
             active_at old (own_rows (the_contact s) (table s)) <> None ->
             fst (modify_appointment e old new_slot s)
             = Ok (msg_taken new_slot)
             /\ table (snd (modify_appointment e old new_slot s)) = table s).
  { intros old Hsome.
    destruct (active_at old (own_rows (the_contact s) (table s)))
      as [target|] eqn:Ht; [|congruence].
    rewrite (modify_taken e s Hid Hcl Hq1 Hq2 _ _ _ Ht Hany).
    split; [reflexivity | apply after_broadcast_table]. }
  split; [apply Hgen|]. apply Hgen.
  apply existsb_exists in Hown. destruct Hown as (a & Hin & Hconf).
  unfold active_at. intros Hnone.
  apply (find_none _ _ Hnone) in Hin.
  unfold confirmed_at in Hconf. apply andb_true_iff in Hconf.
  destruct Hconf as [Hs Hst]. rewrite Hs in Hin. cbn in Hin.
  apply String.eqb_eq in Hst. rewrite Hst in Hin. discriminate Hin.
Qed.

Lemma modify_onto_own_slot_rejected_witness :
  let s := identified true two_bookings in
  existsb (confirmed_at afternoon) (own_rows (the_contact s) (table s))
  = true
  /\ fst (modify_appointment quiet morning afternoon s)
     = Ok "I'm sorry, but the slot 2:15pm - 3:15pm, 26th January is already booked by another customer. Please choose a different time slot."
  /\ fst (modify_appointment quiet afternoon afternoon s)
     = Ok (msg_taken afternoon)
  /\ table (snd (modify_appointment quiet afternoon afternoon s))
     = two_bookings.
Proof.
  pose proof (modify_onto_own_slot_rejected quiet
                (identified true two_bookings) morning afternoon
                eq_refl eq_refl eq_refl eq_refl eq_refl) as [Hold Hsame].
  split; [reflexivity|].
  split; [apply Hold; discriminate|].
  exact Hsame.
Defined.

(** C9 as stated fails in two places.  A caller who holds a confirmed
    record at the afternoon slot and none at the morning slot is told
    that the morning appointment could not be found, not that the
    afternoon slot is taken; and when the availability query raises, a
    caller who holds both slots has the morning record moved onto the
    afternoon slot. *)
Lemma modify_onto_own_slot_cex :
  (let s := identified true afternoon_only in
   existsb (confirmed_at afternoon) (own_rows (the_contact s) (table s))
   = true
   /\ fst (modify_appointment quiet morning afternoon s)
      = Ok "Could not find appointment at 10:30am - 11:30am, 26th January."
   /\ fst (modify_appointment quiet morning afternoon s)
      <> Ok (msg_taken afternoon))
  /\ (let s := identified true two_bookings in
      existsb (confirmed_at afternoon) (own_rows (the_contact s) (table s))
      = true
      /\ fst (modify_appointment slot_query_fails morning afternoon s)
         = Ok (msg_changed morning afternoon)
      /\ rows (table (snd (modify_appointment slot_query_fails morning
                             afternoon s)))
         = [row 1 caller afternoon "confirmed";
            row 2 caller afternoon "confirmed"]).
Proof.
  repeat split. intros H. discriminate H.
Qed.
End BookingClaims.

(** ** What the computations preserve *)

Module Preservation.
Import Measure.

Section Respects.
Variable R : State -> State -> Prop.
Hypothesis R_refl : forall s, R s s.
Hypothesis R_trans : forall a b c, R a b -> R b c -> R a c.

Lemma respects_ret {A} (a : A) : Respects R (ret a).
Proof. intros s. apply R_refl. Qed.

Lemma respects_get : Respects R get.
Proof. intros s. apply R_refl. Qed.

Lemma respects_raise {A} ex : Respects R (@raise State A ex).
Proof. intros s. apply R_refl. Qed.

Lemma respects_modify f : (forall s, R s (f s)) -> Respects R (modify f).
Proof. intros H s. apply H. Qed.

Lemma respects_bind {A B} (m : P A) (k : A -> P B) :
  Respects R m -> (forall a, Respects R (k a)) -> Respects R (bind m k).
Proof.
  intros Hm Hk s. unfold bind. specialize (Hm s).
  destruct (m s) as [[a|ex] s1]; cbn [snd] in *.
  - eapply R_trans; [exact Hm | apply Hk].
  - exact Hm.
Qed.

Lemma respects_try_except {A} (m : P A) (h : exn -> P A) :
  Respects R m -> (forall ex, Respects R (h ex)) ->
  Respects R (try_except m h).
Proof.
  intros Hm Hh s. unfold try_except. specialize (Hm s).
  destruct (m s) as [[a|ex] s1]; cbn [snd] in *.
  - exact Hm.
  - eapply R_trans; [exact Hm | apply Hh].
Qed.

Lemma respects_for_each {A} (l : list A) (body : A -> P unit) :
  (forall x, Respects R (body x)) -> Respects R (for_each l body).
Proof.
  intros Hb. induction l as [|x l IH]; cbn [for_each].
  - apply respects_ret.
  - apply respects_bind; [apply Hb | intros _; exact IH].
Qed.

Lemma respects_call ev outcome :
  (forall s, R s (log ev s)) -> Respects R (call ev outcome).
Proof.
  intros H. unfold call. apply respects_bind.
  - apply respects_modify, H.
  - intros _. destruct outcome; [apply respects_raise | apply respects_ret].
Qed.

Lemma respects_wait_for ev needs outcome timeout :
  (forall ev' s, R s (log ev' s)) ->
  Respects R (Shutdown.wait_for ev needs outcome timeout).
Proof.
  intros H. unfold Shutdown.wait_for. apply respects_bind.
  - apply respects_modify, H.
  - intros _. destruct (Qle_bool needs timeout);
      (apply respects_bind; [apply respects_modify, H | intros _]);
      [destruct outcome|]; first [apply respects_raise | apply respects_ret].
Qed.

Lemma respects_publish_data s0 (send : P unit) :
  Respects R send -> Respects R (BookingAgent.publish_data s0 send).
Proof.
  intros H. unfold BookingAgent.publish_data.
  destruct (BookingAgent.has_participant s0);
    [exact H | apply respects_raise].
Qed.
End Respects.

Lemma invocations_app tr tr' :
  invocations (tr ++ tr') = invocations tr + invocations tr'.
Proof. unfold invocations. rewrite filter_app, length_app. reflexivity. Qed.

Lemma quiet_refl s : quiet s s.
Proof. split; reflexivity. Qed.

Lemma quiet_trans a b c : quiet a b -> quiet b c -> quiet a c.
Proof. intros [H1 H2] [H3 H4]. split; congruence. Qed.

Lemma balanced_refl s : balanced s s.
Proof. reflexivity. Qed.

Lemma balanced_trans a b c : balanced a b -> balanced b c -> balanced a c.
Proof. unfold balanced. congruence. Qed.

Lemma quiet_balanced a b : quiet a b -> balanced a b.
Proof. intros [H1 H2]. unfold balanced, due. congruence. Qed.

Lemma grows_refl s : grows s s.
Proof. exists []. symmetry. apply app_nil_r. Qed.

Lemma grows_trans a b c : grows a b -> grows b c -> grows a c.
Proof.
  intros [e1 H1] [e2 H2]. exists (e1 ++ e2)%list.
  rewrite H2, H1. symmetry. apply app_assoc.
Qed.

Lemma room_kept_refl s : room_kept s s.
Proof. split; reflexivity. Qed.

Lemma room_kept_trans a b c : room_kept a b -> room_kept b c -> room_kept a c.
Proof. intros [H1 H2] [H3 H4]. split; congruence. Qed.

Lemma quiet_log ev s : is_invocation ev = false -> quiet s (log ev s).
Proof.
  intros H. split; [|reflexivity]. cbn [trace log].
  rewrite invocations_app. unfold invocations at 2. cbn. rewrite H.
  cbn. lia.
Qed.

Lemma grows_log ev s : grows s (log ev s).
Proof. exists [ev]. reflexivity. Qed.

Lemma room_kept_log ev s : is_later_step ev = false -> room_kept s (log ev s).
Proof.
  intros H. split; [reflexivity|]. cbn [trace log].
  rewrite filter_app. cbn. rewrite H. apply app_nil_r.
Qed.
End Preservation.

(** Goals [Respects R m] follow the shape of [m]: [leaf] closes the
    computations that have a lemma of their own, [base] the steps between
    two states. *)
Ltac respects Rrefl Rtrans leaf base :=
  repeat first
    [ leaf
    | apply (Preservation.respects_ret _ Rrefl)
    | apply (Preservation.respects_get _ Rrefl)
    | apply (Preservation.respects_raise _ Rrefl)
    | apply (Preservation.respects_bind _ Rtrans); [|intros ?]
    | apply (Preservation.respects_try_except _ Rtrans); [|intros ?]
    | apply (Preservation.respects_publish_data _ Rrefl)
    | apply (Preservation.respects_for_each _ Rrefl Rtrans); intros ?
    | apply (Preservation.respects_call _ Rrefl Rtrans); intros ?; base
    | apply (Preservation.respects_wait_for _ Rrefl Rtrans); intros ? ?; base
    | apply Preservation.respects_modify; intros ?; base
    | match goal with
      | |- Measure.Respects _ (if ?b then _ else _) => destruct b
      | |- Measure.Respects _ (match ?x with _ => _ end) => destruct x
      end ].

(** ** The disconnect action and the background task *)

Module ShutdownFacts.
Import BookingAgent Shutdown Measure Preservation Run.

(** A handler that only logs makes the whole statement return. *)
Lemma swallowed (m : P unit) s :
  fst (try_except m (fun _ => ret tt) s) = Ok tt.
Proof.
  unfold try_except. destruct (m s) as [[[]|ex] s1]; reflexivity.
Qed.

Lemma perform_disconnection_returns e s :
  fst (_perform_disconnection e s) = Ok tt.
Proof.
  unfold _perform_disconnection. rewrite bind_eq, modify_run.
  apply swallowed.
Qed.

Lemma quiet_after_shutdown e s : quiet s (after_shutdown e s).
Proof. unfold after_shutdown. destruct (_agent_session s); split; reflexivity. Qed.

Lemma quiet_after_disconnect s : quiet s (after_disconnect s).
Proof. unfold after_disconnect. destruct (_room s); split; reflexivity. Qed.

Lemma grows_after_shutdown e s : grows s (after_shutdown e s).
Proof.
  unfold after_shutdown.
  destruct (_agent_session s); exists []; symmetry; apply app_nil_r.
Qed.

Lemma grows_after_disconnect s : grows s (after_disconnect s).
Proof.
  unfold after_disconnect.
  destruct (_room s); exists []; symmetry; apply app_nil_r.
Qed.

Ltac quiet_base :=
  first [ apply quiet_log; reflexivity
        | apply quiet_after_shutdown
        | apply quiet_after_disconnect ].

Ltac grows_base :=
  first [ apply grows_log
        | apply grows_after_shutdown
        | apply grows_after_disconnect ].

(** One call of the disconnect action is one invocation in the trace. *)
Lemma perform_disconnection_counts e s :
  invocations (trace (snd (_perform_disconnection e s)))
  = S (invocations (trace s))
  /\ pending (snd (_perform_disconnection e s)) = pending s.
Proof.
  unfold _perform_disconnection. rewrite bind_eq, modify_run.
  match goal with
  | |- context [try_except ?m ?h] =>
      assert (Hq : Respects quiet (try_except m h))
  end.
  { respects quiet_refl quiet_trans fail quiet_base. }
  destruct (Hq (log EvPerformDisconnection s)) as [H1 H2].
  rewrite H1, H2. cbn [trace pending log].
  rewrite invocations_app. cbn. split; [lia | reflexivity].
Qed.

Lemma perform_disconnection_grows e : Respects grows (_perform_disconnection e).
Proof.
  unfold _perform_disconnection.
  respects grows_refl grows_trans fail grows_base.
Qed.

Lemma try_except_returns {A} (m : P A) h s a :
  fst (m s) = Ok a -> try_except m h s = m s.
Proof.
  unfold try_except. destruct (m s) as [[a'|ex] s1]; cbn; intros H;
    [reflexivity | discriminate H].
Qed.

Lemma goodbye_wait_returns e s : fst (goodbye_wait e s) = Ok tt.
Proof.
  unfold goodbye_wait, wait_for, bind, call, modify, get, try_except, raise,
    ret.
  cbn. destruct (session_audio _); [|reflexivity].
  destruct (flush_goodbye e) as [[|?]|]; try reflexivity.
  destruct (Qle_bool _ _); [|reflexivity].
  destruct (wait_goodbye e) as [[|?]|]; reflexivity.
Qed.

Lemma disconnect_after_goodbye_eq e s :
  _disconnect_after_goodbye e s
  = _perform_disconnection e (snd (goodbye_wait e s)).
Proof.
  unfold _disconnect_after_goodbye.
  rewrite (try_except_returns _ _ s tt).
  - rewrite bind_eq. pose proof (goodbye_wait_returns e s) as H.
    destruct (goodbye_wait e s) as [[[]|ex] s1]; [reflexivity|discriminate H].
  - rewrite bind_eq. pose proof (goodbye_wait_returns e s) as H.
    destruct (goodbye_wait e s) as [[[]|ex] s1]; [|discriminate H].
    apply perform_disconnection_returns.
Qed.

Lemma goodbye_wait_quiet e : Respects quiet (goodbye_wait e).
Proof.
  unfold goodbye_wait. respects quiet_refl quiet_trans fail quiet_base.
Qed.

Lemma goodbye_wait_grows e : Respects grows (goodbye_wait e).
Proof.
  unfold goodbye_wait. respects grows_refl grows_trans fail grows_base.
Qed.

(** The background task returns and invokes the disconnect action
    exactly once. *)
Lemma run_task_spec e t s :
  fst (run_task e t s) = Ok tt
  /\ invocations (trace (snd (run_task e t s))) = S (invocations (trace s))
  /\ pending (snd (run_task e t s)) = pending s.
Proof.
  destruct t. unfold run_task. split; [apply swallowed|].
  rewrite (try_except_returns _ _ s tt);
    rewrite disconnect_after_goodbye_eq;
    [|apply perform_disconnection_returns].
  destruct (perform_disconnection_counts e (snd (goodbye_wait e s)))
    as [H1 H2].
  destruct (goodbye_wait_quiet e s) as [H3 H4].
  rewrite H1, H2, H3, H4. split; reflexivity.
Qed.

Lemma run_task_grows e t : Respects grows (run_task e t).
Proof.
  intros s. destruct t. unfold run_task.
  rewrite (try_except_returns _ _ s tt);
    rewrite disconnect_after_goodbye_eq;
    [|apply perform_disconnection_returns].
  eapply grows_trans;
    [apply goodbye_wait_grows | apply perform_disconnection_grows].
Qed.

Lemma run_tasks_spec e l s :
  fst (for_each l (run_task e) s) = Ok tt
  /\ invocations (trace (snd (for_each l (run_task e) s)))
     = invocations (trace s) + List.length l
  /\ pending (snd (for_each l (run_task e) s)) = pending s.
Proof.
  revert s. induction l as [|t l IH]; intros s; cbn [for_each].
  - cbn. repeat split. lia.
  - rewrite bind_eq. destruct (run_task_spec e t s) as (H1 & H2 & H3).
    destruct (run_task e t s) as [[[]|ex] s1]; [|discriminate H1].
    cbn [snd] in *. destruct (IH s1) as (H4 & H5 & H6).
    rewrite H4, H5, H6, H2, H3. cbn [List.length]. repeat split. lia.
Qed.

Lemma run_pending_spec e s :
  fst (run_pending e s) = Ok tt
  /\ invocations (trace (snd (run_pending e s))) = due s
  /\ pending (snd (run_pending e s)) = [].
Proof.
  unfold run_pending. rewrite bind_eq, get_run. cbv beta iota.
  rewrite bind_eq, modify_run. cbv beta iota.
  destruct (run_tasks_spec e (pending s) (set_pending [] s)) as (H1 & H2 & H3).
  rewrite H1, H2, H3. repeat split.
Qed.

Lemma run_pending_balanced e : Respects balanced (run_pending e).
Proof.
  intros s. destruct (run_pending_spec e s) as (_ & H2 & H3).
  unfold balanced. unfold due at 1. rewrite H2, H3. cbn. lia.
Qed.

Lemma run_pending_grows e : Respects grows (run_pending e).
Proof.
  unfold run_pending. apply (respects_bind _ grows_trans).
  - apply (respects_get _ grows_refl).
  - intros s0. apply (respects_bind _ grows_trans).
    + apply respects_modify. intros s. exists []. symmetry. apply app_nil_r.
    + intros _. apply (respects_for_each _ grows_refl grows_trans).
      intros t. apply run_task_grows.
Qed.
End ShutdownFacts.

(** ** The disconnect action, step by step *)

Module DisconnectFacts.
Import BookingAgent Shutdown Measure Preservation Run ShutdownFacts.

Lemma stop_tracks_run e pubs s :
  for_each pubs
    (fun track_pub =>
       match track track_pub with
       | Some kind =>
           try_except (call (EvTrackStop kind) (track_stop e kind))
                      (fun _ => ret tt)
       | None => ret tt
       end) s
  = (Ok tt, fold_left (fun s' k => log (EvTrackStop k) s') (kinds pubs) s).
Proof.
  revert s. induction pubs as [|p pubs IH]; intros s; [reflexivity|].
  cbn [for_each]. rewrite bind_eq. unfold kinds. cbn [flat_map].
  destruct (track p) as [k|].
  - unfold try_except, call, bind, modify, raise, ret.
    destruct (track_stop e k); cbn [app fold_left]; apply IH.
  - cbn [app]. unfold ret at 1. apply IH.
Qed.

Lemma stopped_trace ks s :
  trace (fold_left (fun s' k => log (EvTrackStop k) s') ks s)
  = (trace s ++ map EvTrackStop ks)%list.
Proof.
  revert s. induction ks as [|k ks IH]; intros s; cbn [fold_left map].
  - symmetry. apply app_nil_r.
  - rewrite IH. cbn [trace log]. rewrite <- app_assoc. reflexivity.
Qed.

Lemma stopped_room ks s :
  _room (fold_left (fun s' k => log (EvTrackStop k) s') ks s) = _room s.
Proof.
  revert s. induction ks as [|k ks IH]; intros s; cbn [fold_left];
    [reflexivity | rewrite IH; reflexivity].
Qed.

Lemma after_disconnect_trace s : trace (after_disconnect s) = trace s.
Proof. unfold after_disconnect. destruct (_room s); reflexivity. Qed.

Lemma after_disconnect_isconnected s : isconnected (after_disconnect s) = false.
Proof.
  unfold after_disconnect, isconnected. destruct (_room s) eqn:E; cbn;
    [reflexivity | rewrite E; reflexivity].
Qed.

(** The shutdown request raises: the handler of line 466 ends the
    action there. *)
Lemma shutdown_raises_run e s sess ex :
  _agent_session s = Some sess ->
  shutdown e = Some ex ->
  _perform_disconnection e s
  = (Ok tt, log EvShutdown (log EvPerformDisconnection s)).
Proof.
  intros Hs Hx. unfold _perform_disconnection.
  rewrite bind_eq, modify_run. cbv beta iota.
  unfold try_except. rewrite bind_eq, get_run. cbv beta iota.
  cbn [_agent_session log]. rewrite Hs, Hx.
  reflexivity.
Qed.

(** The shutdown request returns: whatever the wait for the closing task
    and the track stops do, every track is stopped and the room is
    left. *)
Lemma later_steps_attempted e s sess pubs :
  _agent_session s = Some sess ->
  shutdown e = None ->
  _room s = Some (mkRoom true (Some pubs)) ->
  trace (snd (_perform_disconnection e s))
  = (trace s
     ++ [EvPerformDisconnection; EvShutdown]
     ++ (if _closing_task sess || shutdown_creates_closing_task e
         then [EvWaitClosing;
               EvWaited (waited (closing_seconds e) (seconds 5))]
         else [])
     ++ map EvTrackStop (kinds pubs)
     ++ [EvDisconnect])%list
  /\ (disconnect e = None ->
      isconnected (snd (_perform_disconnection e s)) = false).
Proof.
  intros Hs Hx Hr. destruct s as [cl uc un ses rm ctx tb pd tr].
  cbn in Hs, Hr. subst ses rm.
  unfold _perform_disconnection, wait_for, waited, try_except, bind, get,
    modify, call, ret, raise.
  pose proof (stop_tracks_run e pubs) as Htr.
  unfold try_except, bind, modify, call, ret, raise in Htr.
  cbn -[for_each Qle_bool seconds]. rewrite Hx.
  cbn -[for_each Qle_bool seconds]. cbn -[for_each] in Htr.
  destruct (_closing_task sess || shutdown_creates_closing_task e);
    [destruct (Qle_bool (closing_seconds e) (seconds 5));
     [destruct (wait_closing e) as [[|?]|]|]|];
    cbn -[for_each Qle_bool seconds]; rewrite Htr;
    unfold isconnected; rewrite stopped_room; cbn -[for_each];
    destruct (disconnect e); cbn -[for_each];
    rewrite ?after_disconnect_trace; cbn [trace log];
    rewrite stopped_trace; cbn;
    (split; [rewrite <- ?app_assoc; reflexivity
            | intros; first [apply after_disconnect_isconnected
                            | discriminate]]).
Qed.
End DisconnectFacts.

(** ** The handler of the end of the call *)

Module EndFacts.
Import BookingAgent Shutdown Measure Preservation Run ShutdownFacts.

Lemma await_call_returns e pt ev outcome s :
  fst (await_call e pt ev outcome s)
  = match outcome with
    | Some ex => Raise ex
    | None => Ok tt
    end.
Proof.
  unfold await_call. rewrite bind_eq, modify_run. cbv beta iota.
  rewrite bind_eq.
  destruct (background_at e) as [pt'|];
    [destruct (AwaitPoint_eqb pt pt')|];
    try (destruct outcome; reflexivity).
  destruct (run_pending_spec e (log ev s)) as (H & _).
  destruct (run_pending e (log ev s)) as [[[]|ex] s2]; [|discriminate H].
  destruct outcome; reflexivity.
Qed.

Ltac balanced_base := apply quiet_balanced, quiet_log; reflexivity.

Ltac balanced_leaf := apply run_pending_balanced.

Lemma await_call_balanced e pt ev outcome :
  is_invocation ev = false -> Respects balanced (await_call e pt ev outcome).
Proof.
  intros H. unfold await_call.
  respects balanced_refl balanced_trans balanced_leaf
           ltac:(apply quiet_balanced, quiet_log; exact H).
Qed.

Lemma await_call_trace e pt ev outcome s :
  exists evs,
    trace (snd (await_call e pt ev outcome s)) = (trace s ++ ev :: evs)%list.
Proof.
  unfold await_call. rewrite bind_eq, modify_run. cbv beta iota.
  match goal with
  | |- context [bind ?m ?k (log ev s)] =>
      assert (Hg : Respects grows (bind m k))
  end.
  { respects grows_refl grows_trans ltac:(apply run_pending_grows) fail. }
  destruct (Hg (log ev s)) as [evs Hevs]. exists evs.
  rewrite Hevs. cbn [trace log]. rewrite <- app_assoc. reflexivity.
Qed.

Lemma broadcast_balanced e tool args :
  Respects balanced (_broadcast_tool_call e tool args).
Proof.
  intros s. rewrite broadcast_run. cbn [snd]. unfold after_broadcast.
  destruct (can_publish s); [balanced_base | apply balanced_refl].
Qed.

Lemma get_appointments_balanced e c :
  Respects balanced (Database.get_appointments e c).
Proof.
  intros s. rewrite get_appointments_run. apply balanced_refl.
Qed.

Lemma generate_summary_balanced e : Respects balanced (generate_summary e).
Proof.
  unfold generate_summary, chat_stream.
  respects balanced_refl balanced_trans
           ltac:(apply await_call_balanced; reflexivity) balanced_base.
Qed.

Lemma booked_appointments_balanced e :
  Respects balanced (booked_appointments e).
Proof.
  unfold booked_appointments.
  respects balanced_refl balanced_trans
           ltac:(apply get_appointments_balanced) balanced_base.
Qed.

Lemma create_task_due t s :
  create_task t s = (Ok tt, snd (create_task t s))
  /\ due (snd (create_task t s)) = S (due s).
Proof.
  unfold create_task. rewrite modify_run. cbn [snd]. split; [reflexivity|].
  unfold due. cbn [trace pending log set_pending].
  rewrite invocations_app, length_app. cbn. lia.
Qed.

(** The handler returns the goodbye, and leaves one more disconnection
    due when the session is set. *)
Lemma end_conversation_spec e s :
  fst (end_conversation e s) = Ok goodbye
  /\ due (snd (end_conversation e s))
     = due s + match _agent_session s with Some _ => 1 | None => 0 end.
Proof.
  unfold end_conversation.
  rewrite bind_eq, broadcast_run. cbv beta iota.
  rewrite bind_eq, get_run. cbv beta iota.
  rewrite after_broadcast_session.
  assert (Hb : due (after_broadcast "end_conversation" [] s) = due s)
    by (pose proof (broadcast_balanced e "end_conversation" [] s) as H;
        rewrite broadcast_run in H; exact H).
  set (s0 := after_broadcast "end_conversation" [] s) in *.
  rewrite bind_eq.
  match goal with
  | |- context [bind (try_except ?m ?h) ?k] =>
      assert (Hq : Respects balanced (try_except m h));
      [| pose proof (fun s1 => swallowed m s1) as Hr;
         set (fg := try_except m h) in * ]
  end.
  { respects balanced_refl balanced_trans
             ltac:(first [ apply await_call_balanced; reflexivity
                         | apply generate_summary_balanced
                         | apply booked_appointments_balanced ])
             balanced_base. }
  assert (Hfg : forall s1,
             fst (bind fg (fun _ => ret goodbye) s1) = Ok goodbye
             /\ due (snd (bind fg (fun _ => ret goodbye) s1)) = due s1).
  { intros s1. rewrite bind_eq. specialize (Hr s1). specialize (Hq s1).
    destruct (fg s1) as [[[]|ex] s2]; [|discriminate Hr].
    split; [reflexivity | exact Hq]. }
  destruct (_agent_session s).
  - destruct (create_task_due DisconnectAfterGoodbye s0) as [Hc Hd].
    rewrite Hc. destruct (Hfg (snd (create_task DisconnectAfterGoodbye s0)))
      as [H1 H2].
    rewrite H1, H2, Hd, Hb. split; [reflexivity | lia].
  - rewrite ret_run. destruct (Hfg s0) as [H1 H2].
    rewrite H1, H2, Hb. split; [reflexivity | lia].
Qed.

Lemma shutdown_protocol_spec e s :
  fst (shutdown_protocol e s) = Ok goodbye
  /\ invocations (trace (snd (shutdown_protocol e s)))
     = due s + match _agent_session s with Some _ => 1 | None => 0 end.
Proof.
  unfold shutdown_protocol. rewrite bind_eq.
  destruct (end_conversation_spec e s) as [H1 H2].
  destruct (end_conversation e s) as [[r|ex] s1]; [|discriminate H1].
  cbn [fst snd] in *. injection H1 as ->.
  rewrite bind_eq.
  destruct (run_pending_spec e s1) as (H3 & H4 & _).
  destruct (run_pending e s1) as [[[]|ex] s2]; [|discriminate H3].
  cbn [fst snd] in *. rewrite ret_run. cbn [fst snd].
  split; [reflexivity | congruence].
Qed.
End EndFacts.

(** ** The claims on the end of the call *)

Module ShutdownClaims.
Import BookingAgent Shutdown Measure Preservation Run ShutdownFacts
       DisconnectFacts EndFacts Samples Samples2.

(** C3.  Whatever the playout wait, the summary, the snapshot of the
    appointments, the publication and the background task do, and
    wherever the event loop runs that task, [end_conversation] returns
    the fixed goodbye text and raises nothing; so does the whole
    protocol once the event loop has run what was queued. *)
Theorem end_conversation_always_says_goodbye (e : Env) (s : State) :
  fst (end_conversation e s)
  = Ok "Thank you for calling. Have a great day! Goodbye!"
  /\ fst (shutdown_protocol e s)
     = Ok "Thank you for calling. Have a great day! Goodbye!".
Proof.
  split.
  - exact (proj1 (end_conversation_spec e s)).
  - exact (proj1 (shutdown_protocol_spec e s)).
Qed.

(** With the room left, the disconnect action stops no track and does
    not leave the room again. *)
Lemma disconnected_room_kept e s :
  isconnected s = false -> room_kept s (snd (_perform_disconnection e s)).
Proof.
  intros Hc. destruct s as [cl uc un ses rm ctx tb pd tr].
  unfold isconnected in Hc. cbn in Hc.
  unfold _perform_disconnection, wait_for, try_except, bind, get, modify,
    call, ret, raise, room_kept.
  generalize (Qle_bool (closing_seconds e) (seconds 5)). intros in_time.
  destruct ses as [sess|]; destruct rm as [[c lp]|]; cbn in Hc;
    try subst c; cbn;
    repeat match goal with
           | |- context [shutdown e] => destruct (shutdown e)
           | |- context [if in_time then _ else _] => destruct in_time
           | |- context [wait_closing e] => destruct (wait_closing e) as [[|?]|]
           | |- context [(_closing_task ?x || ?y)%bool] =>
               destruct (_closing_task x || y)%bool
           | _ => progress cbn
           end;
    rewrite ?filter_app; cbn; rewrite ?app_nil_r; split; reflexivity.
Qed.

(** C4.  One execution of the shutdown protocol, started with nothing
    queued, enters [_perform_disconnection] once when the session is set
    and never otherwise: the handler itself never calls it, the
    background task calls it exactly once.  Calling the action twice in
    a row raises nothing, and a call that finds the room left stops no
    track and does not disconnect again. *)
Theorem disconnect_invoked_at_most_once (e : Env) (s : State) :
  pending s = [] ->
  invocations (trace (snd (shutdown_protocol e s)))
  = invocations (trace s)
    + match _agent_session s with Some _ => 1 | None => 0 end
  /\ invocations (trace (snd (shutdown_protocol e s)))
     <= invocations (trace s) + 1
  /\ invocations (trace (snd (end_conversation e s)))
     + List.length (pending (snd (end_conversation e s)))
     = invocations (trace s)
       + match _agent_session s with Some _ => 1 | None => 0 end
  /\ (forall e1 e2 s',
        fst ((_perform_disconnection e1 ;; _perform_disconnection e2) s')
        = Ok tt)
  /\ (forall e2 s',
        isconnected s' = false ->
        room_kept s' (snd (_perform_disconnection e2 s'))).
Proof.
  intros Hp.
  assert (Hdue : due s = invocations (trace s))
    by (unfold due; rewrite Hp; cbn; lia).
  destruct (shutdown_protocol_spec e s) as [_ H].
  destruct (end_conversation_spec e s) as [_ H'].
  rewrite Hdue in H, H'.
  split; [|split; [|split; [|split]]].
  - exact H.
  - rewrite H. destruct (_agent_session s); lia.
  - exact H'.
  - intros e1 e2 s'. rewrite bind_eq.
    pose proof (perform_disconnection_returns e1 s') as H1.
    destruct (_perform_disconnection e1 s') as [[[]|ex] s1];
      [|discriminate H1].
    apply perform_disconnection_returns.
  - intros e2 s'. apply disconnected_room_kept.
Qed.

Lemma disconnect_invoked_at_most_once_witness :
  pending in_call = []
  /\ invocations (trace (snd (shutdown_protocol restless in_call))) = 1
  /\ invocations (trace (snd (shutdown_protocol quiet in_call))) = 1.
Proof.
  split; [reflexivity|]. split.
  - exact (proj1 (disconnect_invoked_at_most_once restless in_call eq_refl)).
  - exact (proj1 (disconnect_invoked_at_most_once quiet in_call eq_refl)).
Defined.

(** C5 at its failing input.  The three steps sit in one [try] block
    (agent.py:421-467); the wait for the closing task and each track
    stop have handlers of their own, the shutdown request has none.
    When [shutdown(drain=True)] raises, the action ends there: it
    returns, no track is stopped, [disconnect] is not called and the
    room stays as it was. *)
Theorem shutdown_failure_skips_later_steps (e : Env) (s : State)
    (sess : Session) (ex : exn) :
  _agent_session s = Some sess ->
  shutdown e = Some ex ->
  fst (_perform_disconnection e s) = Ok tt
  /\ trace (snd (_perform_disconnection e s))
     = (trace s ++ [EvPerformDisconnection; EvShutdown])%list
  /\ _room (snd (_perform_disconnection e s)) = _room s.
Proof.
  intros Hs Hx. rewrite (shutdown_raises_run e s sess ex Hs Hx).
  cbn. rewrite <- app_assoc. repeat split.
Qed.

Lemma shutdown_failure_skips_later_steps_witness :
  let out := _perform_disconnection shutdown_raises in_call in
  trace (snd out) = [EvPerformDisconnection; EvShutdown]
  /\ isconnected (snd out) = true
  /\ trace (snd (_perform_disconnection restless
                   (set_session None in_call)))
     = [EvPerformDisconnection; EvTrackStop "audio"; EvTrackStop "video";
        EvDisconnect].
Proof.
  pose proof (shutdown_failure_skips_later_steps shutdown_raises in_call
                (mkSession true true false)
                (Error "AgentSession is not running") eq_refl eq_refl)
    as (_ & Htrace & Hroom).
  split; [exact Htrace|]. split; [|reflexivity].
  unfold isconnected. rewrite Hroom. reflexivity.
Defined.

Lemma chat_stream_returns e ctx s :
  fst (chat_stream e ctx s)
  = match snd (chat e ctx) with
    | Some ex => Raise ex
    | None => Ok (kept_contents (fst (chat e ctx)))
    end.
Proof.
  unfold chat_stream. rewrite bind_eq.
  pose proof (await_call_returns e AtChat (EvChat ctx) (snd (chat e ctx)) s)
    as H.
  destruct (await_call e AtChat (EvChat ctx) (snd (chat e ctx)) s)
    as [[[]|ex] s1]; cbn [fst] in H;
    destruct (snd (chat e ctx)); try discriminate H;
    [reflexivity | injection H as ->; reflexivity].
Qed.

Lemma chat_stream_trace e ctx s :
  exists evs,
    trace (snd (chat_stream e ctx s)) = (trace s ++ EvChat ctx :: evs)%list.
Proof.
  unfold chat_stream. rewrite bind_eq.
  destruct (await_call_trace e AtChat (EvChat ctx) (snd (chat e ctx)) s)
    as [evs H].
  exists evs.
  destruct (await_call e AtChat (EvChat ctx) (snd (chat e ctx)) s)
    as [[[]|ex] s1]; exact H.
Qed.

(** The lines submitted: the user and assistant messages that have a
    text and are not summaries, each as [role: text], the text
    stripped. *)
Lemma conversation_messages_In items line :
  In line (conversation_messages items)
  <-> exists role text,
        In (ChatMessage role (Some text) false) items
        /\ text <> ""
        /\ (role = "user" \/ role = "assistant")
        /\ line = role ++ ": " ++ strip text.
Proof.
  unfold conversation_messages. rewrite in_flat_map. split.
  - intros ([role text sm|] & Hin & Hline); [|destruct Hline].
    destruct text as [text|]; [|destruct Hline].
    unfold truthy, or_else, truthy, in_user_assistant in Hline.
    destruct (String.eqb_spec text "") as [E|E]; cbn in Hline;
      [destruct Hline|].
    destruct (String.eqb_spec role "user") as [Eu|Eu];
      destruct (String.eqb_spec role "assistant") as [Ea|Ea];
      cbn in Hline; destruct sm; cbn in Hline;
      try contradiction; destruct Hline as [Hl|[]];
      exists role, text; auto.
  - intros (role & text & Hin & Hne & Hrole & ->).
    exists (ChatMessage role (Some text) false). split; [exact Hin|].
    unfold truthy, or_else, truthy, in_user_assistant.
    destruct (String.eqb_spec text "") as [E|E]; [congruence|]. cbn.
    destruct Hrole as [-> | ->]; cbn; left; reflexivity.
Qed.

Lemma history_parts_nonempty items :
  conversation_messages items <> [] -> history_parts items <> [].
Proof.
  induction items as [|[role text sm|] items IH]; cbn; intros H.
  - congruence.
  - destruct (truthy text); [|exact (IH H)].
    cbn. discriminate.
  - exact (IH H).
Qed.

(** [strip] takes the blanks beyond ASCII away with the others. *)
Lemma strip_beyond_ascii :
  strip (nbsp ++ " Hello. " ++ ideographic_space ++ next_line) = "Hello."
  /\ strip (nbsp ++ ideographic_space ++ next_line) = "".
Proof. split; vm_compute; reflexivity. Qed.

Lemma flat_map_filter {A B} (f : A -> list B) (p : A -> bool) (g : A -> B)
    (l : list A) :
  (forall x, f x = if p x then [g x] else []) ->
  flat_map f l = map g (filter p l).
Proof.
  intros H. induction l as [|a l IH]; [reflexivity|].
  cbn [flat_map filter]. rewrite H, IH. destruct (p a); reflexivity.
Qed.

Lemma conversation_messages_turns items :
  conversation_messages items = map turn_line (filter is_turn items).
Proof.
  unfold conversation_messages. apply flat_map_filter.
  intros [role [text|] sm|]; try reflexivity.
  unfold truthy, or_else, truthy, in_user_assistant, is_turn, turn_line.
  destruct (text =? ""); [reflexivity|]. cbn [negb andb].
  destruct ((role =? "user") || (role =? "assistant")); [|reflexivity].
  destruct sm; reflexivity.
Qed.

Lemma history_parts_texts items :
  history_parts items = map raw_line (filter has_text items).
Proof.
  unfold history_parts. apply flat_map_filter.
  intros [role [text|] sm|]; try reflexivity.
  unfold truthy, or_else, truthy, has_text, raw_line.
  destruct (text =? ""); reflexivity.
Qed.

Lemma last_n_spec {A} n (l : list A) :
  exists dropped,
    l = (dropped ++ last_n n l)%list
    /\ List.length (last_n n l) = Nat.min n (List.length l).
Proof.
  unfold last_n. exists (firstn (List.length l - n) l). split.
  - symmetry. apply firstn_skipn.
  - rewrite length_skipn. lia.
Qed.

(** C6, as the code has it.  With a language model set and at least one
    line to submit, the request made is [summary_ctx] of the lines of
    [conversation_messages]: the user and assistant turns that have a
    text, in the order of the chat context, each as [role: text] with the
    blanks around the text removed; prior summaries and every other role
    (the system turns too) are left out.  When the stream ends and what it
    gave is empty once stripped, the summary is the last 10 of those
    lines, all of them when there are fewer; when it is not empty, the
    summary is that text; when the request raises, the summary is the raw
    history: every message that has a text, whatever its role, in order,
    as [role: text] lines. *)
Theorem summary_and_fallbacks (e : Env) (s : State) :
  session_llm s = true ->
  conversation_messages (chat_ctx s) <> [] ->
  let lines := conversation_messages (chat_ctx s) in
  let request := summary_ctx lines in
  let answer := strip (join "" (kept_contents (fst (chat e request)))) in
  let out := generate_summary e s in
  lines = map turn_line (filter is_turn (chat_ctx s))
  /\ (forall line,
        In line lines
        <-> exists role text,
              In (ChatMessage role (Some text) false) (chat_ctx s)
              /\ text <> ""
              /\ (role = "user" \/ role = "assistant")
              /\ line = role ++ ": " ++ strip text)
  /\ (exists evs, trace (snd out) = (trace s ++ EvChat request :: evs)%list)
  /\ (snd (chat e request) = None -> answer = "" ->
      fst out = Ok (join nl (last_n 10 lines))
      /\ exists dropped,
           lines = (dropped ++ last_n 10 lines)%list
           /\ List.length (last_n 10 lines)
              = Nat.min 10 (List.length lines))
  /\ (snd (chat e request) = None -> answer <> "" ->
      fst out = Ok answer)
  /\ (forall ex, snd (chat e request) = Some ex ->
      fst out = Ok (join nl (history_parts (chat_ctx s)))
      /\ history_parts (chat_ctx s)
         = map raw_line (filter has_text (chat_ctx s))).
Proof.
  intros Hllm Hne lines request answer out.
  split; [apply conversation_messages_turns|].
  split; [intros line; apply conversation_messages_In|].
  assert (Hrun : out
                 = try_except
                     (chunks <- chat_stream e request ;;
                      let summary := strip (join "" chunks) in
                      if negb (summary =? "") then ret summary
                      else ret (join nl (last_n 10 lines)))
                     (fun _ => ret (history_fallback (chat_ctx s))) s).
  { subst out request lines. unfold generate_summary.
    rewrite bind_eq, get_run. cbv beta iota. rewrite Hllm.
    destruct (conversation_messages (chat_ctx s)) as [|l0 ls];
      [congruence | reflexivity]. }
  assert (Hhist : history_fallback (chat_ctx s)
                  = join nl (history_parts (chat_ctx s))).
  { unfold history_fallback.
    pose proof (history_parts_nonempty _ Hne) as Hh.
    destruct (history_parts (chat_ctx s)); [congruence | reflexivity]. }
  rewrite Hrun. unfold try_except. rewrite bind_eq.
  pose proof (chat_stream_returns e request s) as Hret.
  destruct (chat_stream_trace e request s) as [evs Htr].
  destruct (chat_stream e request s) as [[chunks|ex'] s1];
    cbn [fst snd] in *.
  - destruct (snd (chat e request)) as [ex|]; [discriminate Hret|].
    injection Hret as ->. fold answer.
    split; [|split; [|split]].
    + exists evs.
      destruct (negb (answer =? "")); exact Htr.
    + intros _ Ha. rewrite Ha. split; [reflexivity | apply last_n_spec].
    + intros _ Ha. apply String.eqb_neq in Ha. rewrite Ha. reflexivity.
    + intros ex H. discriminate H.
  - destruct (snd (chat e request)) as [ex|]; [|discriminate Hret].
    split; [|split; [|split]].
    + exists evs. exact Htr.
    + intros H. discriminate H.
    + intros H. discriminate H.
    + intros ex0 _. rewrite Hhist.
      split; [reflexivity | apply history_parts_texts].
Qed.

Lemma summary_and_fallbacks_witness :
  session_llm in_call = true
  /\ conversation_messages (chat_ctx in_call)
     = ["user: I would like a checkup."; "assistant: Your checkup is booked."]
  /\ fst (generate_summary silent_model in_call)
     = Ok (join nl ["user: I would like a checkup.";
                    "assistant: Your checkup is booked."])
  /\ fst (generate_summary quiet in_call) = Ok "Booked a checkup."
  /\ fst (generate_summary failing_model in_call)
     = Ok (join nl (history_parts transcript))
  /\ List.length (conversation_messages (chat_ctx long_call)) = 12
  /\ fst (generate_summary blank_model long_call)
     = Ok (join nl ["assistant: Your number?"; "user: +15551234";
                    "assistant: How can I help?"; "user: A checkup.";
                    "assistant: Which slot?"; "user: The morning.";
                    "assistant: Booked."; "user: Thanks.";
                    "assistant: Anything else?"; "user: No, bye."])
  /\ hd "" (conversation_messages (chat_ctx long_call)) = "assistant: Hello.".
Proof.
  assert (Hne : conversation_messages (chat_ctx in_call) <> [])
    by (vm_compute; discriminate).
  assert (Hne' : conversation_messages (chat_ctx long_call) <> [])
    by (vm_compute; discriminate).
  split; [reflexivity|]. split; [vm_compute; reflexivity|].
  split; [|split; [|split; [|split; [|split]]]].
  - exact (proj1 (proj1 (proj2 (proj2 (proj2 (summary_and_fallbacks
                                  silent_model in_call eq_refl Hne))))
                    eq_refl eq_refl)).
  - refine (proj1 (proj2 (proj2 (proj2 (proj2 (summary_and_fallbacks quiet
                                          in_call eq_refl Hne)))))
              eq_refl _).
    vm_compute. discriminate.
  - exact (proj1 (proj2 (proj2 (proj2 (proj2 (proj2 (summary_and_fallbacks
                                         failing_model in_call eq_refl
                                         Hne)))))
                    down eq_refl)).
  - vm_compute. reflexivity.
  - exact (proj1 (proj1 (proj2 (proj2 (proj2 (summary_and_fallbacks
                                  blank_model long_call eq_refl Hne'))))
                    eq_refl eq_refl)).
  - vm_compute. reflexivity.
Defined.

(** C6 as stated fails on the system turns: the specification counts
    them in the transcript, the code leaves them out (agent.py:303-305).
    The request made for [transcript] carries the user and the assistant
    line only. *)
Lemma summary_skips_system_turns_cex :
  conversation_messages transcript <> transcript_as_specified transcript
  /\ conversation_messages transcript
     = ["user: I would like a checkup."; "assistant: Your checkup is booked."]
  /\ transcript_as_specified transcript
     = ["system: You are a helpful voice assistant for booking appointments.";
        "user: I would like a checkup.";
        "assistant: Your checkup is booked."].
Proof.
  split; [vm_compute; discriminate|]. split; vm_compute; reflexivity.
Qed.
End ShutdownClaims.

(** ** The tools, case by case *)

Module ToolCases.
Import Database BookingAgent Listing Invariants Run BookingFacts.

(** [book_appointment] either leaves the table alone or has inserted the
    record of the caller, after an availability answer of "available". *)
Lemma book_cases e s slot details :
  let out := book_appointment e slot details s in
  let s0 := after_broadcast "book_appointment"
              [("slot", slot); ("details", details)] s in
  snd out = s0
  \/ (fst out = Ok (msg_booked slot details)
      /\ snd out
         = set_table (mkTable (rows (table s) ++ [new_row e s slot details])
                              (S (next_id (table s)))) s0
      /\ truthy (user_contact s) = true
      /\ client s = true
      /\ insert_row e = None
      /\ existsb (confirmed_at slot) (fetched e s) = false
      /\ answered_available e s slot = true).
Proof.
  cbv zeta. unfold book_appointment. do 2 step.
  destruct (truthy (user_contact s)) eqn:Hid; cbn [negb];
    [|left; reflexivity].
  step. name_tests. fold (fetched e s).
  destruct (existsb (confirmed_at slot) (fetched e s)) eqn:Ho;
    [left; reflexivity|].
  step. fold (answered_available e s slot).
  destruct (answered_available e s slot) eqn:Ha; cbn [negb];
    [|left; reflexivity].
  step. destruct (client s) eqn:Hcl; [destruct (insert_row e) eqn:Hw|];
    try (left; reflexivity).
  right. repeat split.
Qed.

(** [cancel_appointment] either leaves the table alone or has written
    the cancellation of the first active record it was given. *)
Lemma cancel_cases e s slot :
  let out := cancel_appointment e slot s in
  let s0 := after_broadcast "cancel_appointment" [("slot", slot)] s in
  (snd out = s0
   /\ (truthy (user_contact s) = true ->
       active_at slot (fetched e s) = None ->
       fst out = Ok (msg_no_active slot)))
  \/ (exists target,
        active_at slot (fetched e s) = Some target
        /\ truthy (user_contact s) = true
        /\ fst out = Ok (msg_cancelled slot)
        /\ (snd out = s0
            \/ (update_status e = None
                /\ snd out
                   = set_table (written (with_status "cancelled")
                                        (id target) s) s0))).
Proof.
  cbv zeta. unfold cancel_appointment. do 2 step.
  destruct (truthy (user_contact s)) eqn:Hid; cbn [negb];
    [|left; split; [reflexivity | discriminate]].
  step. fold (fetched e s).
  destruct (active_at slot (fetched e s)) as [target|] eqn:Ht.
  - right. exists target. split; [reflexivity|]. split; [reflexivity|].
    step. destruct (client s); [destruct (update_status e)|];
      cbn [fst snd]; split; auto.
  - left. split; reflexivity.
Qed.

(** [modify_appointment] either leaves the table alone or has written
    the new slot of the first active record it was given, after an
    availability answer of "available". *)
Lemma modify_cases e s old_slot new_slot :
  let out := modify_appointment e old_slot new_slot s in
  let s0 := after_broadcast "modify_appointment"
              [("old_slot", old_slot); ("new_slot", new_slot)] s in
  snd out = s0
  \/ (exists target,
        active_at old_slot (fetched e s) = Some target
        /\ truthy (user_contact s) = true
        /\ answered_available e s new_slot = true
        /\ update_slot e = None
        /\ fst out = Ok (msg_changed old_slot new_slot)
        /\ snd out
           = set_table (written (with_slot_time new_slot) (id target) s) s0).
Proof.
  cbv zeta. unfold modify_appointment. do 2 step.
  destruct (truthy (user_contact s)) eqn:Hid; cbn [negb];
    [|left; reflexivity].
  step. fold (fetched e s).
  destruct (active_at old_slot (fetched e s)) as [target|] eqn:Ht;
    [|left; reflexivity].
  step. fold (answered_available e s new_slot).
  destruct (answered_available e s new_slot) eqn:Ha; cbn [negb];
    [|left; reflexivity].
  step. destruct (client s); [destruct (update_slot e) eqn:Hw|];
    try (left; reflexivity).
  right. exists target. repeat split.
Qed.

(** What was fetched belongs to the caller and is in the table. *)
Lemma fetched_In e s a :
  In a (fetched e s) ->
  In a (rows (table s)) /\ contact_number a = the_contact s
  /\ client s = true /\ select_by_contact e = None.
Proof.
  unfold fetched. destruct (client s); [|intros []].
  destruct (select_by_contact e); [intros []|].
  unfold own_rows. intros H. apply filter_In in H. destruct H as [Hin Hc].
  apply String.eqb_eq in Hc. auto.
Qed.

Lemma active_at_spec slot l target :
  active_at slot l = Some target ->
  In target l /\ is_active_at slot target = true.
Proof. intros H. apply find_some in H. exact H. Qed.

Lemma active_at_none slot l :
  active_at slot l = None <-> filter (is_active_at slot) l = [].
Proof.
  unfold active_at. split; intros H.
  - induction l as [|a l IH]; [reflexivity|]. cbn in *.
    fold (is_active_at slot a) in *.
    destruct (is_active_at slot a); [discriminate H | exact (IH H)].
  - induction l as [|a l IH]; [reflexivity|]. cbn in *.
    fold (is_active_at slot a) in *.
    destruct (is_active_at slot a); [discriminate H | exact (IH H)].
Qed.
End ToolCases.

(** ** What the tools keep of the store *)

Module StoreFacts.
Import Database BookingAgent Listing Invariants Run BookingFacts ToolCases.

Lemma in_confirmed_slots slot t :
  In slot (confirmed_slots t)
  <-> existsb (confirmed_at slot) (rows t) = true.
Proof.
  unfold confirmed_slots. rewrite in_map_iff, existsb_exists. split.
  - intros (a & Hs & Hin). apply filter_In in Hin. destruct Hin as [Hin Hc].
    exists a. split; [exact Hin|]. unfold confirmed_at, is_confirmed in *.
    rewrite Hs, String.eqb_refl, Hc. reflexivity.
  - intros (a & Hin & Hc). unfold confirmed_at in Hc.
    apply andb_true_iff in Hc. destruct Hc as [Hs Hc].
    apply String.eqb_eq in Hs. exists a. split; [exact Hs|].
    apply filter_In. split; assumption.
Qed.

Lemma available_is_free e s slot :
  client s = true ->
  select_by_slot e = None ->
  answered_available e s slot = true ->
  ~ In slot (confirmed_slots (table s)).
Proof.
  unfold answered_available. intros -> -> H Hin.
  apply in_confirmed_slots in Hin. rewrite Hin in H. discriminate H.
Qed.

Lemma NoDup_middle {A} (x : A) l1 l2 :
  NoDup (l1 ++ l2) -> ~ In x (l1 ++ l2) -> NoDup (l1 ++ x :: l2).
Proof.
  induction l1 as [|a l1 IH]; cbn; intros Hnd Hx.
  - constructor; assumption.
  - inversion Hnd as [|? ? Ha Hnd']; subst. constructor.
    + intros Hin. apply in_app_or in Hin. cbn in Hin.
      destruct Hin as [Hin|[Hin|Hin]].
      * apply Ha, in_or_app. left. exact Hin.
      * apply Hx. left. symmetry. exact Hin.
      * apply Ha, in_or_app. right. exact Hin.
    + apply IH; [exact Hnd'|]. intros Hin. apply Hx. right. exact Hin.
Qed.

Lemma written_rows change i s :
  rows (written change i s)
  = map (fun a => if (id a =? i)%nat then change a else a) (rows (table s)).
Proof. reflexivity. Qed.

(** A cancellation by identifier takes confirmed slots away and adds
    none. *)
Lemma cancelled_slots_In i l x :
  In x (map slot_time
          (filter is_confirmed
             (map (fun a => if (id a =? i)%nat
                            then with_status "cancelled" a else a) l))) ->
  In x (map slot_time (filter is_confirmed l)).
Proof.
  induction l as [|a l IH]; cbn; [tauto|].
  destruct (id a =? i)%nat; cbn.
  - intros H. destruct (is_confirmed a); cbn; auto.
  - destruct (is_confirmed a); cbn; [|exact IH].
    intros [H|H]; auto.
Qed.

Lemma cancelled_slots_NoDup i l :
  NoDup (map slot_time (filter is_confirmed l)) ->
  NoDup (map slot_time
           (filter is_confirmed
              (map (fun a => if (id a =? i)%nat
                             then with_status "cancelled" a else a) l))).
Proof.
  induction l as [|a l IH]; cbn; [auto|].
  destruct (id a =? i)%nat; cbn.
  - destruct (is_confirmed a); cbn; [|exact IH].
    intros H. inversion H; subst. auto.
  - destruct (is_confirmed a); cbn; [|exact IH].
    intros H. inversion H as [|? ? Hn Hnd]; subst. constructor; [|auto].
    intros Hin. apply Hn. eapply cancelled_slots_In. exact Hin.
Qed.

Lemma moved_slots new_slot before target after :
  map slot_time
    (filter is_confirmed (before ++ with_slot_time new_slot target :: after))
  = (map slot_time (filter is_confirmed before)
     ++ (if is_confirmed target then [new_slot] else [])
     ++ map slot_time (filter is_confirmed after))%list.
Proof.
  rewrite filter_app, map_app. cbn [filter].
  change (is_confirmed (with_slot_time new_slot target))
    with (is_confirmed target).
  destruct (is_confirmed target); reflexivity.
Qed.

Lemma kept_slots before target after :
  map slot_time (filter is_confirmed (before ++ target :: after))
  = (map slot_time (filter is_confirmed before)
     ++ (if is_confirmed target then [slot_time target] else [])
     ++ map slot_time (filter is_confirmed after))%list.
Proof.
  rewrite filter_app, map_app. cbn [filter].
  destruct (is_confirmed target); reflexivity.
Qed.
End StoreFacts.

(** ** A session among the others *)

Module SessionFacts.
Import Database BookingAgent Listing Invariants Run BookingFacts ToolCases
       StoreFacts Sessions.

Lemma served_run {A} others (request : P A) s :
  served others request s = request (set_table (others (table s)) s).
Proof. reflexivity. Qed.

Lemma set_table_same s : set_table (table s) s = s.
Proof. destruct s; reflexivity. Qed.

Lemma served_at_rest {A} (request : P A) s :
  served (fun t => t) request s = request s.
Proof. rewrite served_run, set_table_same. reflexivity. Qed.

Lemma book_alone e slot details s :
  book_appointment_among at_rest e slot details s
  = book_appointment e slot details s.
Proof.
  unfold book_appointment_among, book_appointment, at_rest.
  cbn [before_query before_check before_write].
  rewrite !bind_eq. destruct (_broadcast_tool_call _ _ _ s) as [[[]|ex] s0];
    [|reflexivity].
  rewrite !bind_eq, !get_run. cbv beta iota.
  destruct (negb (truthy (user_contact s0))); [reflexivity|].
  rewrite !bind_eq, served_at_rest.
  destruct (get_appointments _ _ s0) as [[existing|ex] s1]; [|reflexivity].
  destruct (existsb _ existing); [reflexivity|].
  rewrite !bind_eq, served_at_rest.
  destruct (is_slot_available _ _ s1) as [[av|ex] s2]; [|reflexivity].
  destruct (negb av); [reflexivity|].
  rewrite !bind_eq, served_at_rest. reflexivity.
Qed.

Lemma modify_alone e old_slot new_slot s :
  modify_appointment_among at_rest e old_slot new_slot s
  = modify_appointment e old_slot new_slot s.
Proof.
  unfold modify_appointment_among, modify_appointment, at_rest.
  cbn [before_query before_check before_write].
  rewrite !bind_eq. destruct (_broadcast_tool_call _ _ _ s) as [[[]|ex] s0];
    [|reflexivity].
  rewrite !bind_eq, !get_run. cbv beta iota.
  destruct (negb (truthy (user_contact s0))); [reflexivity|].
  rewrite !bind_eq, served_at_rest.
  destruct (get_appointments _ _ s0) as [[appts|ex] s1]; [|reflexivity].
  destruct (active_at old_slot appts) as [target|]; [|reflexivity].
  rewrite !bind_eq, served_at_rest.
  destruct (is_slot_available _ _ s1) as [[av|ex] s2]; [|reflexivity].
  destruct (negb av); [reflexivity|].
  rewrite !bind_eq, served_at_rest. reflexivity.
Qed.

Lemma confirmed_slots_insert t a n :
  confirmed_slots (mkTable (rows t ++ [a]) n)
  = (confirmed_slots t ++ (if is_confirmed a then [slot_time a] else []))%list.
Proof.
  unfold confirmed_slots. cbn [rows]. rewrite filter_app, map_app.
  cbn [filter]. destruct (is_confirmed a); reflexivity.
Qed.

Lemma insert_keeps t a n :
  one_confirmed_per_slot t ->
  ~ In (slot_time a) (confirmed_slots t) ->
  one_confirmed_per_slot (mkTable (rows t ++ [a]) n).
Proof.
  intros Hinv Hfree. unfold one_confirmed_per_slot in *.
  rewrite confirmed_slots_insert.
  destruct (is_confirmed a); [|rewrite app_nil_r; exact Hinv].
  apply NoDup_middle; rewrite app_nil_r; assumption.
Qed.

Lemma update_absent change i l :
  (forall a, In a l -> (id a =? i)%nat = false) ->
  map (fun a => if (id a =? i)%nat then change a else a) l = l.
Proof.
  intros H. induction l as [|a l IH]; [reflexivity|].
  cbn [map]. rewrite (H a (or_introl eq_refl)), IH; [reflexivity|].
  intros b Hb. apply H. right. exact Hb.
Qed.

(** Moving the record of an identifier to a free slot leaves no slot
    with two confirmed records. *)
Lemma update_slot_keeps new_slot i t :
  unique_ids t ->
  one_confirmed_per_slot t ->
  ~ In new_slot (confirmed_slots t) ->
  one_confirmed_per_slot (update_eq_id (with_slot_time new_slot) i t).
Proof.
  intros Hids Hinv Hfree. destruct t as [l n].
  unfold unique_ids, one_confirmed_per_slot, confirmed_slots, update_eq_id
    in *.
  cbn [rows] in *.
  destruct (find (fun a => (id a =? i)%nat) l) as [target|] eqn:Hf.
  - apply find_some in Hf. destruct Hf as [Hin Hid].
    apply Nat.eqb_eq in Hid. subst i.
    destruct (in_split _ _ Hin) as (before & after & ->).
    pose proof (BookingClaims.update_one_row (with_slot_time new_slot)
                  before target after Hids) as Hupd.
    unfold update_eq_id in Hupd. cbn [rows] in Hupd. rewrite Hupd.
    rewrite moved_slots. rewrite kept_slots in Hinv, Hfree.
    destruct (is_confirmed target); [|exact Hinv].
    cbn [app] in *. apply NoDup_remove in Hinv. destruct Hinv as [Hnd _].
    apply NoDup_middle; [exact Hnd|].
    intros Hx. apply Hfree. apply in_app_or in Hx.
    apply in_or_app. destruct Hx as [Hx|Hx]; [left | right; right]; exact Hx.
  - rewrite update_absent; [exact Hinv|].
    intros a Ha. exact (find_none _ _ Hf a Ha).
Qed.


Ltac table_done :=
  rewrite ?Run.ret_run; cbn [fst snd table set_table];
  autorewrite with frame; reflexivity.

Ltac served_step :=
  rewrite Run.bind_eq, served_run;
  first
    [ rewrite Run.get_appointments_run
    | rewrite Run.is_slot_available_run
    | rewrite Run.create_appointment_run
    | rewrite Run.update_appointment_run ];
  cbv beta iota zeta;
  cbn [client table set_table user_contact user_name' the_contact];
  autorewrite with frame.

(** The table [book_appointment_among] leaves: the table as the other
    sessions have left it, or that table with the record of the caller
    inserted after an availability answer of "available". *)
Lemma book_among_cases o e s slot details :
  let t1 := before_query o (table s) in
  let t2 := before_check o t1 in
  let t3 := before_write o t2 in
  let out := book_appointment_among o e slot details s in
  table (snd out) = table s
  \/ table (snd out) = t1
  \/ table (snd out) = t2
  \/ table (snd out) = t3
  \/ (fst out = Ok (msg_booked slot details)
      /\ table (snd out)
         = mkTable (rows t3
                    ++ [mkAppointment (next_id t3) (now e) (the_contact s)
                          (or_else (user_name' s) "Unknown") slot details
                          "confirmed"])
                   (S (next_id t3))
      /\ client s = true
      /\ insert_row e = None
      /\ (select_by_slot e = None -> ~ In slot (confirmed_slots t2))).
Proof.
  cbv zeta. unfold book_appointment_among. do 2 step.
  destruct (truthy (user_contact s)) eqn:Hid; cbn [negb snd];
    [|left; table_done].
  served_step. name_tests.
  match goal with
  | |- context [existsb ?p ?l] => destruct (existsb p l)
  end; [right; left; table_done|].
  served_step.
  match goal with
  | |- context [negb ?b] => destruct b eqn:Ha
  end; cbn [negb]; [|right; right; left; table_done].
  served_step.
  destruct (client s) eqn:Hcl; [destruct (insert_row e) eqn:Hw|];
    try (right; right; right; left; table_done).
  right; right; right; right. repeat split.
  intros Hq Hin. rewrite Hq in Ha.
  apply in_confirmed_slots in Hin. rewrite Hin in Ha. discriminate Ha.
Qed.

Lemma modify_among_cases o e s old_slot new_slot :
  let t1 := before_query o (table s) in
  let t2 := before_check o t1 in
  let t3 := before_write o t2 in
  let out := modify_appointment_among o e old_slot new_slot s in
  table (snd out) = table s
  \/ table (snd out) = t1
  \/ table (snd out) = t2
  \/ table (snd out) = t3
  \/ (exists i,
        fst out = Ok (msg_changed old_slot new_slot)
        /\ table (snd out) = update_eq_id (with_slot_time new_slot) i t3
        /\ (select_by_slot e = None -> ~ In new_slot (confirmed_slots t2))).
Proof.
  cbv zeta. unfold modify_appointment_among. do 2 step.
  destruct (truthy (user_contact s)) eqn:Hid; cbn [negb snd];
    [|left; table_done].
  served_step.
  match goal with
  | |- context [active_at old_slot ?l] =>
      destruct (active_at old_slot l) as [target|]
  end; [|right; left; table_done].
  served_step.
  match goal with
  | |- context [negb ?b] => destruct b eqn:Ha
  end; cbn [negb]; [|right; right; left; table_done].
  served_step.
  destruct (client s) eqn:Hcl; [destruct (update_slot e) eqn:Hw|];
    try (right; right; right; left; table_done).
  right; right; right; right. exists (id target). repeat split.
  intros Hq Hin. rewrite Hq in Ha.
  apply in_confirmed_slots in Hin. rewrite Hin in Ha. discriminate Ha.
Qed.
End SessionFacts.

(** ** Invariants of the appointment store *)

Module StoreExtras.
Import Database BookingAgent Listing Invariants Run BookingFacts ToolCases
       StoreFacts Sessions SessionFacts Samples Samples2.

(** X1.  [book_appointment] keeps the table free of double bookings as
    long as no other session confirms a record at the slot between the
    availability check of the call and its insertion.  The availability
    query answers; what the other sessions write between the requests of
    the call leaves no slot with two confirmed records; then if no slot
    holds two confirmed records before the call, none does after it,
    whoever calls, whatever the other outcomes are.  With the other
    sessions at rest the call is [book_appointment] itself. *)
Theorem book_keeps_one_confirmed_per_slot (o : Others) (e : Env) (s : State)
    (slot details : string) :
  select_by_slot e = None ->
  keeps_one_confirmed (before_query o) ->
  keeps_one_confirmed (before_check o) ->
  keeps_one_confirmed (before_write o) ->
  books_nothing_at slot (before_write o) ->
  one_confirmed_per_slot (table s) ->
  one_confirmed_per_slot
    (table (snd (book_appointment_among o e slot details s)))
  /\ book_appointment_among at_rest e slot details s
     = book_appointment e slot details s.
Proof.
  intros Hq K1 K2 K3 Hfree Hinv. split; [|apply book_alone].
  pose proof (K1 _ Hinv) as H1. pose proof (K2 _ H1) as H2.
  pose proof (K3 _ H2) as H3.
  destruct (book_among_cases o e s slot details)
    as [E | [E | [E | [E | (_ & E & _ & _ & Ha)]]]]; rewrite E;
    try assumption.
  apply insert_keeps; [exact H3|]. cbn [slot_time].
  apply Hfree, Ha, Hq.
Qed.

Lemma book_keeps_one_confirmed_per_slot_witness :
  select_by_slot quiet = None
  /\ one_confirmed_per_slot two_callers
  /\ one_confirmed_per_slot
       (table (snd (book_appointment quiet free_slot "checkup"
                      (identified true two_callers))))
  /\ confirmed_slots
       (table (snd (book_appointment quiet free_slot "checkup"
                      (identified true two_callers))))
     = [morning; afternoon; free_slot].
Proof.
  assert (Hinv : one_confirmed_per_slot two_callers).
  { unfold one_confirmed_per_slot. cbn.
    repeat constructor; cbn; intuition discriminate. }
  split; [reflexivity|]. split; [exact Hinv|]. split; [|reflexivity].
  destruct (book_keeps_one_confirmed_per_slot at_rest quiet
              (identified true two_callers) free_slot "checkup" eq_refl
              (fun t H => H) (fun t H => H) (fun t H => H) (fun t H => H)
              Hinv) as [H E].
  rewrite <- E. exact H.
Defined.

(** X2.  [modify_appointment] keeps the table free of double bookings as
    long as no other session confirms a record at the new slot between
    the availability check of the call and its write.  The availability
    query answers; what the other sessions write between the requests of
    the call leaves record identifiers unique and no slot with two
    confirmed records; then if that holds of the table before the call,
    no slot holds two confirmed records after it.  With the other
    sessions at rest the call is [modify_appointment] itself. *)
Theorem modify_keeps_one_confirmed_per_slot (o : Others) (e : Env)
    (s : State) (old_slot new_slot : string) :
  select_by_slot e = None ->
  keeps_one_confirmed (before_query o) ->
  keeps_one_confirmed (before_check o) ->
  keeps_one_confirmed (before_write o) ->
  keeps_unique_ids (before_query o) ->
  keeps_unique_ids (before_check o) ->
  keeps_unique_ids (before_write o) ->
  books_nothing_at new_slot (before_write o) ->
  unique_ids (table s) ->
  one_confirmed_per_slot (table s) ->
  one_confirmed_per_slot
    (table (snd (modify_appointment_among o e old_slot new_slot s)))
  /\ modify_appointment_among at_rest e old_slot new_slot s
     = modify_appointment e old_slot new_slot s.
Proof.
  intros Hq K1 K2 K3 U1 U2 U3 Hfree Hids Hinv. split; [|apply modify_alone].
  pose proof (K1 _ Hinv) as H1. pose proof (K2 _ H1) as H2.
  pose proof (K3 _ H2) as H3.
  pose proof (U3 _ (U2 _ (U1 _ Hids))) as Hids3.
  destruct (modify_among_cases o e s old_slot new_slot)
    as [E | [E | [E | [E | (i & _ & E & Ha)]]]]; rewrite E;
    try assumption.
  apply update_slot_keeps; [exact Hids3 | exact H3|].
  apply Hfree, Ha, Hq.
Qed.

Lemma modify_keeps_one_confirmed_per_slot_witness :
  let out := modify_appointment quiet morning free_slot
               (identified true two_callers) in
  unique_ids two_callers
  /\ one_confirmed_per_slot (table (snd out))
  /\ confirmed_slots (table (snd out)) = [free_slot; afternoon].
Proof.
  assert (Hids : unique_ids two_callers).
  { unfold unique_ids. cbn. repeat constructor; cbn; intuition discriminate. }
  assert (Hinv : one_confirmed_per_slot two_callers).
  { unfold one_confirmed_per_slot. cbn.
    repeat constructor; cbn; intuition discriminate. }
  split; [exact Hids|]. split; [|reflexivity].
  destruct (modify_keeps_one_confirmed_per_slot at_rest quiet
              (identified true two_callers) morning free_slot eq_refl
              (fun t H => H) (fun t H => H) (fun t H => H)
              (fun t H => H) (fun t H => H) (fun t H => H)
              (fun t H => H) Hids Hinv) as [H E].
  rewrite <- E. exact H.
Defined.

(** X3.  [cancel_appointment] keeps the table free of double bookings,
    whatever the store answers: a cancellation takes confirmed records
    away and adds none. *)
Theorem cancel_keeps_one_confirmed_per_slot (e : Env) (s : State)
    (slot : string) :
  one_confirmed_per_slot (table s) ->
  one_confirmed_per_slot (table (snd (cancel_appointment e slot s))).
Proof.
  intros Hinv.
  destruct (cancel_cases e s slot)
    as [[Hs _] | (target & _ & _ & _ & [Hs | [_ Hs]])]; rewrite Hs;
    try (rewrite after_broadcast_table; exact Hinv).
  cbn [table set_table]. unfold one_confirmed_per_slot, confirmed_slots.
  rewrite written_rows. apply cancelled_slots_NoDup. exact Hinv.
Qed.

Lemma cancel_keeps_one_confirmed_per_slot_witness :
  one_confirmed_per_slot two_callers
  /\ one_confirmed_per_slot
       (table (snd (cancel_appointment quiet morning
                      (identified true two_callers))))
  /\ confirmed_slots
       (table (snd (cancel_appointment quiet morning
                      (identified true two_callers))))
     = [afternoon].
Proof.
  assert (Hinv : one_confirmed_per_slot two_callers).
  { unfold one_confirmed_per_slot. cbn.
    repeat constructor; cbn; intuition discriminate. }
  split; [exact Hinv|]. split; [|reflexivity].
  exact (cancel_keeps_one_confirmed_per_slot quiet
           (identified true two_callers) morning Hinv).
Defined.

Lemma same_record_refl a : same_record a a.
Proof. unfold same_record. tauto. Qed.

Lemma Forall2_same_refl l : Forall2 same_record l l.
Proof. induction l; constructor; [apply same_record_refl | assumption]. Qed.

Lemma Forall2_written change i l :
  (forall a, same_record a (change a)) ->
  Forall2 same_record l
    (map (fun a => if (id a =? i)%nat then change a else a) l).
Proof.
  intros H. induction l as [|a l IH]; cbn; constructor; [|exact IH].
  destruct (id a =? i)%nat; [apply H | apply same_record_refl].
Qed.

Lemma evolves_refl t : evolves [] t t.
Proof.
  exists (rows t). split; [symmetry; apply app_nil_r|].
  apply Forall2_same_refl.
Qed.

(** X4.  No tool deletes a record or rewrites its identity, whatever the
    store answers.  After [book_appointment], [cancel_appointment] or
    [modify_appointment] every record of the table is still there, in
    place, with the same identifier, creation time, owner, name and
    details, and a cancelled record is still cancelled; only
    [book_appointment] adds a record, one at most, the caller's own
    confirmed record for the slot. *)
Theorem records_are_never_deleted (e : Env) (s : State)
    (slot details old_slot new_slot : string) :
  (exists added,
     evolves added (table s) (table (snd (book_appointment e slot details s)))
     /\ (added = []
         \/ (added = [new_row e s slot details]
             /\ truthy (user_contact s) = true)))
  /\ evolves [] (table s) (table (snd (cancel_appointment e slot s)))
  /\ evolves [] (table s)
       (table (snd (modify_appointment e old_slot new_slot s))).
Proof.
  split; [|split].
  - destruct (book_cases e s slot details)
      as [Hs | (_ & Hs & Hid & _)]; rewrite Hs.
    + exists []. rewrite after_broadcast_table.
      split; [apply evolves_refl | left; reflexivity].
    + exists [new_row e s slot details]. split; [|right; auto].
      exists (rows (table s)). split; [reflexivity|].
      apply Forall2_same_refl.
  - destruct (cancel_cases e s slot)
      as [[Hs _] | (target & _ & _ & _ & [Hs | [_ Hs]])]; rewrite Hs;
      try (rewrite after_broadcast_table; apply evolves_refl).
    cbn [table set_table]. eexists. rewrite written_rows.
    split; [symmetry; apply app_nil_r|].
    apply Forall2_written. intros a. unfold same_record. cbn. tauto.
  - destruct (modify_cases e s old_slot new_slot)
      as [Hs | (target & _ & _ & _ & _ & _ & Hs)]; rewrite Hs;
      try (rewrite after_broadcast_table; apply evolves_refl).
    cbn [table set_table]. eexists. rewrite written_rows.
    split; [symmetry; apply app_nil_r|].
    apply Forall2_written. intros a. unfold same_record. cbn. tauto.
Qed.




End StoreExtras.

(** ** Cancelling, moving and listing appointments *)

Module BookingExtras.
Import Database BookingAgent Listing Invariants Run BookingFacts ToolCases
       StoreFacts Samples Samples2.

(** X6.  For an identified caller whose store answers and writes, with
    unique record identifiers, [cancel_appointment] sets the status of
    the caller's first non-cancelled record at the slot to "cancelled"
    and changes nothing else: every other record and every other field
    of that record are as before. *)
Theorem cancel_appointment_frame (e : Env) (s : State) (slot : string)
    (target : Appointment) :
  truthy (user_contact s) = true ->
  client s = true ->
  select_by_contact e = None ->
  update_status e = None ->
  NoDup (map id (rows (table s))) ->
  active_at slot (own_rows (the_contact s) (table s)) = Some target ->
  let out := cancel_appointment e slot s in
  fst out = Ok (msg_cancelled slot)
  /\ exists before after target',
       rows (table s) = (before ++ target :: after)%list
       /\ rows (table (snd out)) = (before ++ target' :: after)%list
       /\ next_id (table (snd out)) = next_id (table s)
       /\ status target' = "cancelled"
       /\ id target' = id target
       /\ created_at target' = created_at target
       /\ contact_number target' = contact_number target
       /\ user_name target' = user_name target
       /\ slot_time target' = slot_time target
       /\ details target' = details target.
Proof.
  intros Hid Hcl Hq Hw Hnd Ht out. subst out.
  rewrite (cancel_found e s Hid Hcl Hq _ _ Ht), Hw.
  split; [reflexivity|]. cbn [snd].
  destruct (active_at_spec _ _ _ Ht) as [Hin _].
  apply filter_In in Hin. destruct Hin as [Hin _].
  destruct (in_split _ _ Hin) as (before & after & Hrows).
  exists before, after, (with_status "cancelled" target).
  split; [exact Hrows|]. split; [|repeat split].
  cbn. rewrite Hrows in *.
  exact (BookingClaims.update_one_row (with_status "cancelled")
           before target after Hnd).
Qed.

Lemma cancel_appointment_frame_witness :
  let out := cancel_appointment quiet morning (identified true two_callers) in
  NoDup (map id (rows two_callers))
  /\ fst out
     = Ok "Appointment at 10:30am - 11:30am, 26th January has been cancelled."
  /\ rows (table (snd out))
     = [row 1 caller morning "cancelled";
        row 2 other_caller afternoon "confirmed"].
Proof.
  assert (Hids : NoDup (map id (rows two_callers))).
  { cbn. repeat constructor; cbn; intuition discriminate. }
  split; [exact Hids|]. split; [|reflexivity].
  exact (proj1 (cancel_appointment_frame quiet (identified true two_callers)
                  morning (row 1 caller morning "confirmed")
                  eq_refl eq_refl eq_refl eq_refl Hids eq_refl)).
Defined.

Lemma fetched_no_active e s slot :
  filter (is_active_at slot) (own_rows (the_contact s) (table s)) = [] ->
  active_at slot (fetched e s) = None.
Proof.
  intros H. unfold fetched.
  destruct (client s); [destruct (select_by_contact e)|]; try reflexivity.
  apply active_at_none. exact H.
Qed.

Lemma cancel_finds_nothing e s slot :
  truthy (user_contact s) = true ->
  filter (is_active_at slot) (own_rows (the_contact s) (table s)) = [] ->
  fst (cancel_appointment e slot s) = Ok (msg_no_active slot)
  /\ table (snd (cancel_appointment e slot s)) = table s.
Proof.
  intros Hid Hnone. pose proof (fetched_no_active e s slot Hnone) as Hf.
  destruct (cancel_cases e s slot)
    as [[Hs Hmsg] | (target & Ht & _)]; [|congruence].
  rewrite Hs, after_broadcast_table. split; [auto | reflexivity].
Qed.

(** X7.  When the identified caller has no non-cancelled record at the
    slot (none at all, or cancelled ones only), [cancel_appointment]
    answers that it found no active appointment and leaves the table
    untouched, whatever the store answers. *)
Theorem cancel_without_active_record (e : Env) (s : State) (slot : string) :
  truthy (user_contact s) = true ->
  filter (is_active_at slot) (own_rows (the_contact s) (table s)) = [] ->
  fst (cancel_appointment e slot s) = Ok (msg_no_active slot)
  /\ table (snd (cancel_appointment e slot s)) = table s.
Proof.
  intros Hid Hnone. exact (cancel_finds_nothing e s slot Hid Hnone).
Qed.

Lemma cancel_without_active_record_witness :
  let s := identified true one_cancelled in
  fst (cancel_appointment quiet morning s)
  = Ok "I couldn't find an active appointment at 10:30am - 11:30am, 26th January."
  /\ fst (cancel_appointment quiet free_slot s)
     = Ok (msg_no_active free_slot)
  /\ table (snd (cancel_appointment quiet morning s)) = one_cancelled.
Proof.
  pose proof (cancel_without_active_record quiet
                (identified true one_cancelled) morning eq_refl eq_refl)
    as [H1 H2].
  pose proof (cancel_without_active_record quiet
                (identified true one_cancelled) free_slot eq_refl eq_refl)
    as [H3 _].
  split; [exact H1|]. split; [exact H3 | exact H2].
Defined.

Lemma only_active slot c t target a :
  filter (is_active_at slot) (own_rows c t) = [target] ->
  In a (rows t) -> (contact_number a =? c) = true ->
  is_active_at slot a = true -> a = target.
Proof.
  intros H Hin Hc Ha.
  assert (Hm : In a (filter (is_active_at slot) (own_rows c t))).
  { apply filter_In. split; [|exact Ha]. apply filter_In. auto. }
  rewrite H in Hm. destruct Hm as [Hm|[]]. symmetry. exact Hm.
Qed.

Lemma filter_none {A} (p : A -> bool) l :
  (forall a, In a l -> p a = false) -> filter p l = [].
Proof.
  induction l as [|a l IH]; intros H; [reflexivity|]. cbn.
  rewrite (H a (or_introl eq_refl)). apply IH. intros b Hb.
  apply H. right. exact Hb.
Qed.

(** After the write, no record of the caller is active at the slot the
    only active record was at. *)
Lemma no_active_after_write slot c t target change :
  filter (is_active_at slot) (own_rows c t) = [target] ->
  (forall a, is_active_at slot (change a) = false) ->
  (forall a, contact_number (change a) = contact_number a) ->
  filter (is_active_at slot)
    (own_rows c (update_eq_id change (id target) t)) = [].
Proof.
  intros Honly Hoff Hown. apply filter_none. intros a' Hin.
  unfold own_rows, update_eq_id in Hin. cbn [rows] in Hin.
  apply filter_In in Hin. destruct Hin as [Hin Hc].
  apply in_map_iff in Hin. destruct Hin as (a & <- & Hin).
  destruct (Nat.eqb_spec (id a) (id target)) as [E|E]; [apply Hoff|].
  destruct (is_active_at slot a) eqn:Ha; [|reflexivity].
  exfalso. apply E. f_equal.
  exact (only_active slot c t target a Honly Hin Hc Ha).
Qed.

(** X8.  A cancelled appointment is gone for the tools: when the record
    that was cancelled was the caller's only non-cancelled record at the
    slot, a second [cancel_appointment] for the slot finds no active
    appointment and changes nothing, whatever the store answers then. *)
Theorem cancelled_appointment_is_gone (e e2 : Env) (s : State)
    (slot : string) (target : Appointment) :
  truthy (user_contact s) = true ->
  client s = true ->
  select_by_contact e = None ->
  update_status e = None ->
  filter (is_active_at slot) (own_rows (the_contact s) (table s))
  = [target] ->
  let s1 := snd (cancel_appointment e slot s) in
  fst (cancel_appointment e slot s) = Ok (msg_cancelled slot)
  /\ fst (cancel_appointment e2 slot s1) = Ok (msg_no_active slot)
  /\ table (snd (cancel_appointment e2 slot s1)) = table s1.
Proof.
  intros Hid Hcl Hq Hw Honly s1.
  assert (Ht : active_at slot (own_rows (the_contact s) (table s))
               = Some target).
  { unfold active_at. fold (is_active_at slot).
    destruct (find (is_active_at slot) (own_rows (the_contact s) (table s)))
      as [r|] eqn:Hf.
    - f_equal. destruct (find_some _ _ Hf) as [Hin Ha].
      assert (Hm : In r (filter (is_active_at slot)
                           (own_rows (the_contact s) (table s))))
        by (apply filter_In; auto).
      rewrite Honly in Hm. destruct Hm as [Hm|[]]. symmetry. exact Hm.
    - assert (Hm : In target (filter (is_active_at slot)
                                (own_rows (the_contact s) (table s))))
        by (rewrite Honly; left; reflexivity).
      apply filter_In in Hm. destruct Hm as [Hin Ha].
      rewrite (find_none _ _ Hf _ Hin) in Ha. discriminate Ha. }
  subst s1. rewrite (cancel_found e s Hid Hcl Hq _ _ Ht), Hw. cbn [fst snd].
  split; [reflexivity|].
  apply cancel_finds_nothing.
  - cbn. rewrite after_broadcast_user_contact. exact Hid.
  - unfold the_contact. cbn [user_contact set_table table].
    rewrite after_broadcast_user_contact. fold (the_contact s).
    apply no_active_after_write; [exact Honly | | reflexivity].
    intros a. unfold is_active_at. cbn. apply andb_false_r.
Qed.

Lemma cancelled_appointment_is_gone_witness :
  let s1 := snd (cancel_appointment quiet morning
                   (identified true two_callers)) in
  fst (cancel_appointment restless morning s1) = Ok (msg_no_active morning)
  /\ fst (cancel_appointment quiet morning s1) = Ok (msg_no_active morning)
  /\ table (snd (cancel_appointment quiet morning s1)) = table s1.
Proof.
  pose proof (cancelled_appointment_is_gone quiet restless
                (identified true two_callers) morning
                (row 1 caller morning "confirmed")
                eq_refl eq_refl eq_refl eq_refl eq_refl) as (_ & H1 & _).
  pose proof (cancelled_appointment_is_gone quiet quiet
                (identified true two_callers) morning
                (row 1 caller morning "confirmed")
                eq_refl eq_refl eq_refl eq_refl eq_refl) as (_ & H2 & H3).
  split; [exact H1|]. split; [exact H2 | exact H3].
Defined.

Lemma NoDup_map_inj {A B} (f : A -> B) l a b :
  NoDup (map f l) -> In a l -> In b l -> f a = f b -> a = b.
Proof.
  induction l as [|x l IH]; cbn; intros Hnd Ha Hb Hf; [destruct Ha|].
  inversion Hnd as [|? ? Hx Hnd']; subst.
  destruct Ha as [Ha|Ha], Hb as [Hb|Hb]; subst.
  - reflexivity.
  - exfalso. apply Hx. rewrite Hf. apply in_map. exact Hb.
  - exfalso. apply Hx. rewrite <- Hf. apply in_map. exact Ha.
  - apply IH; assumption.
Qed.

(** X9.  Cancelling frees the slot.  In a table with no double booking,
    once the identified caller's confirmed record at the slot has been
    cancelled no confirmed record is left for the slot, and any caller
    who identifies next and books the slot (store answering) gets it. *)
Theorem cancel_frees_the_slot (e e2 : Env) (s : State) (slot : string)
    (target : Appointment) (next_contact details : string) :
  truthy (user_contact s) = true ->
  client s = true ->
  select_by_contact e = None ->
  update_status e = None ->
  one_confirmed_per_slot (table s) ->
  active_at slot (own_rows (the_contact s) (table s)) = Some target ->
  status target = "confirmed" ->
  next_contact <> "" ->
  select_by_contact e2 = None ->
  select_by_slot e2 = None ->
  insert_row e2 = None ->
  let s1 := snd (cancel_appointment e slot s) in
  existsb (confirmed_at slot) (rows (table s1)) = false
  /\ fst (book_appointment e2 slot details
            (snd (identify_user e2 next_contact s1)))
     = Ok (msg_booked slot details).
Proof.
  intros Hid Hcl Hq Hw Hinv Ht Hst Hne Hq1 Hq2 Hw2 s1.
  assert (Hfree : existsb (confirmed_at slot) (rows (table s1)) = false).
  { subst s1. rewrite (cancel_found e s Hid Hcl Hq _ _ Ht), Hw.
    cbn [snd table set_table].
    destruct (existsb (confirmed_at slot)
                (rows (update_eq_id (with_status "cancelled") (id target)
                         (table s)))) eqn:Hex; [|reflexivity].
    exfalso. apply existsb_exists in Hex. destruct Hex as (a' & Hin & Hc).
    unfold update_eq_id in Hin. cbn [rows] in Hin.
    apply in_map_iff in Hin. destruct Hin as (a & <- & Hin).
    destruct (Nat.eqb_spec (id a) (id target)) as [E|E].
    - unfold confirmed_at in Hc. cbn in Hc. rewrite andb_false_r in Hc.
      discriminate Hc.
    - apply E. f_equal.
      destruct (active_at_spec _ _ _ Ht) as [Hin' Hact].
      apply filter_In in Hin'. destruct Hin' as [Hin' _].
      unfold confirmed_at in Hc. apply andb_true_iff in Hc.
      destruct Hc as [Hs Hc]. apply String.eqb_eq in Hs.
      unfold is_active_at in Hact. apply andb_true_iff in Hact.
      destruct Hact as [Hs' _]. apply String.eqb_eq in Hs'.
      apply (NoDup_map_inj slot_time (filter is_confirmed (rows (table s))));
        [exact Hinv | | | congruence].
      + apply filter_In. split; [exact Hin | exact Hc].
      + apply filter_In. split; [exact Hin'|].
        unfold is_confirmed. rewrite Hst. reflexivity. }
  split; [exact Hfree|].
  assert (Hrun : identify_user e2 next_contact s1
                 = (Ok ("Thank you! I have your contact number "
                        ++ next_contact ++ ". How can I help you today?"),
                    set_user_contact (Some next_contact)
                      (after_broadcast "identify_user"
                         [("contact_number", next_contact)] s1))).
  { unfold identify_user. do 2 step. reflexivity. }
  rewrite Hrun. cbn [snd]. set (s2 := set_user_contact _ _).
  assert (Hid2 : truthy (user_contact s2) = true).
  { cbn. apply negb_true_iff, String.eqb_neq. exact Hne. }
  assert (Hcl2 : client s2 = true).
  { unfold s2. cbn. rewrite after_broadcast_client. subst s1.
    rewrite (cancel_found e s Hid Hcl Hq _ _ Ht), Hw. cbn.
    rewrite after_broadcast_client. exact Hcl. }
  assert (Ht2 : table s2 = table s1)
    by (unfold s2; cbn; apply after_broadcast_table).
  rewrite (book_free e2 s2 Hid2 Hcl2 Hq1 Hq2 slot details), Hw2;
    [reflexivity|].
  rewrite Ht2. exact Hfree.
Qed.

Lemma cancel_frees_the_slot_witness :
  let s1 := snd (cancel_appointment quiet morning
                   (identified true two_callers)) in
  one_confirmed_per_slot two_callers
  /\ existsb (confirmed_at morning) (rows (table s1)) = false
  /\ fst (book_appointment quiet morning "follow-up"
            (snd (identify_user quiet other_caller s1)))
     = Ok (msg_booked morning "follow-up").
Proof.
  assert (Hinv : one_confirmed_per_slot two_callers).
  { unfold one_confirmed_per_slot. cbn.
    repeat constructor; cbn; intuition discriminate. }
  split; [exact Hinv|].
  apply (cancel_frees_the_slot quiet quiet (identified true two_callers)
           morning (row 1 caller morning "confirmed") other_caller
           "follow-up");
    try reflexivity; [exact Hinv | discriminate].
Defined.

(** X10.  A moved appointment is found at its new slot and no longer at
    the old one: after a [modify_appointment] that was written, for a
    caller whose only non-cancelled record at [old_slot] was moved to a
    different slot, [cancel_appointment old_slot] finds no active
    appointment and changes nothing, while the caller has an active
    record at [new_slot]. *)
Theorem moved_appointment_changes_slot (e e2 : Env) (s : State)
    (old_slot new_slot : string) (target : Appointment) :
  truthy (user_contact s) = true ->
  client s = true ->
  select_by_contact e = None ->
  select_by_slot e = None ->
  update_slot e = None ->
  old_slot <> new_slot ->
  existsb (confirmed_at new_slot) (rows (table s)) = false ->
  filter (is_active_at old_slot) (own_rows (the_contact s) (table s))
  = [target] ->
  let s1 := snd (modify_appointment e old_slot new_slot s) in
  fst (modify_appointment e old_slot new_slot s)
  = Ok (msg_changed old_slot new_slot)
  /\ fst (cancel_appointment e2 old_slot s1) = Ok (msg_no_active old_slot)
  /\ table (snd (cancel_appointment e2 old_slot s1)) = table s1
  /\ active_at new_slot (own_rows (the_contact s) (table s1)) <> None.
Proof.
  intros Hid Hcl Hq1 Hq2 Hw Hdiff Hfree Honly s1.
  assert (Hm : In target (filter (is_active_at old_slot)
                            (own_rows (the_contact s) (table s))))
    by (rewrite Honly; left; reflexivity).
  apply filter_In in Hm. destruct Hm as [Hown Hact].
  assert (Ht : active_at old_slot (own_rows (the_contact s) (table s))
               = Some target).
  { unfold active_at. fold (is_active_at old_slot).
    destruct (find (is_active_at old_slot)
                (own_rows (the_contact s) (table s))) as [r|] eqn:Hf.
    - f_equal. destruct (find_some _ _ Hf) as [Hin Ha].
      assert (Hr : In r (filter (is_active_at old_slot)
                           (own_rows (the_contact s) (table s))))
        by (apply filter_In; auto).
      rewrite Honly in Hr. destruct Hr as [Hr|[]]. symmetry. exact Hr.
    - rewrite (find_none _ _ Hf _ Hown) in Hact. discriminate Hact. }
  subst s1.
  rewrite (modify_free e s Hid Hcl Hq1 Hq2 _ _ _ Ht Hfree), Hw.
  cbn [fst snd]. split; [reflexivity|].
  set (s1 := set_table _ _).
  assert (Hid1 : truthy (user_contact s1) = true)
    by (unfold s1; cbn; rewrite after_broadcast_user_contact; exact Hid).
  assert (Hc1 : the_contact s1 = the_contact s)
    by (unfold the_contact, s1; cbn;
        rewrite after_broadcast_user_contact; reflexivity).
  assert (Hnone : filter (is_active_at old_slot)
                    (own_rows (the_contact s1) (table s1)) = []).
  { rewrite Hc1. unfold s1. cbn [table set_table].
    apply no_active_after_write; [exact Honly | | reflexivity].
    intros a. unfold is_active_at. cbn.
    destruct (String.eqb_spec new_slot old_slot) as [E|E];
      [congruence | reflexivity]. }
  destruct (cancel_finds_nothing e2 s1 old_slot Hid1 Hnone)
    as [H1 H2].
  split; [exact H1|]. split; [exact H2|].
  intros Hfind. apply active_at_none in Hfind.
  assert (Hin : In (with_slot_time new_slot target)
                  (filter (is_active_at new_slot)
                     (own_rows (the_contact s) (table s1)))).
  { apply filter_In. split.
    - unfold s1, own_rows. cbn [table set_table update_eq_id rows].
      apply filter_In in Hown. destruct Hown as [Hrow Hc].
      apply filter_In. split; [|exact Hc].
      apply in_map_iff. exists target. rewrite Nat.eqb_refl. auto.
    - unfold is_active_at in *. cbn. rewrite String.eqb_refl.
      apply andb_true_iff in Hact. destruct Hact as [_ Hact]. exact Hact. }
  rewrite Hfind in Hin. destruct Hin.
Qed.

Lemma moved_appointment_changes_slot_witness :
  let s1 := snd (modify_appointment quiet morning free_slot
                   (identified true two_callers)) in
  fst (cancel_appointment quiet morning s1) = Ok (msg_no_active morning)
  /\ fst (cancel_appointment quiet free_slot s1)
     = Ok (msg_cancelled free_slot).
Proof.
  split; [|reflexivity].
  assert (Hd : morning <> free_slot) by discriminate.
  exact (proj1 (proj2 (moved_appointment_changes_slot quiet quiet
                         (identified true two_callers) morning free_slot
                         (row 1 caller morning "confirmed")
                         eq_refl eq_refl eq_refl eq_refl eq_refl Hd
                         eq_refl eq_refl))).
Defined.

Lemma retrieve_run e s :
  retrieve_appointments e s
  = (Ok (if truthy (user_contact s) then listing (fetched e s)
         else msg_retrieve_unidentified),
     after_broadcast "retrieve_appointments" [] s).
Proof.
  unfold retrieve_appointments. do 2 step.
  destruct (truthy (user_contact s)); cbn [negb]; [|reflexivity].
  step. fold (fetched e s). destruct (fetched e s); reflexivity.
Qed.

(** X11.  For an identified caller whose store answers,
    [retrieve_appointments] lists every record of the caller, cancelled
    ones included, in the order of the table and no record of anyone
    else, or says that there is none; it changes nothing in the table.
    After a booking that went through, the listing is the listing before
    followed by the line of the new appointment. *)
Theorem retrieve_lists_own_records (e e2 : Env) (s : State)
    (slot details : string) :
  truthy (user_contact s) = true ->
  client s = true ->
  select_by_contact e = None ->
  fst (retrieve_appointments e s)
  = Ok (listing (own_rows (the_contact s) (table s)))
  /\ table (snd (retrieve_appointments e s)) = table s
  /\ (select_by_contact e2 = None ->
      select_by_slot e2 = None ->
      insert_row e2 = None ->
      existsb (confirmed_at slot) (rows (table s)) = false ->
      fst (retrieve_appointments e
             (snd (book_appointment e2 slot details s)))
      = Ok ("Here are your appointments: "
            ++ join ", "
                 (map listing_line (own_rows (the_contact s) (table s))
                  ++ [slot ++ " (" ++ details ++ ") - confirmed"]))).
Proof.
  intros Hid Hcl Hq. rewrite retrieve_run. cbn [fst snd].
  rewrite Hid. unfold fetched at 1. rewrite Hcl, Hq.
  split; [reflexivity|]. split; [apply after_broadcast_table|].
  intros Hq1 Hq2 Hw Hfree.
  rewrite (book_free e2 s Hid Hcl Hq1 Hq2 slot details Hfree), Hw.
  cbn [snd]. rewrite retrieve_run. cbn [fst].
  unfold fetched, the_contact.
  cbn [user_contact client table set_table].
  rewrite after_broadcast_user_contact, after_broadcast_client, Hid, Hcl, Hq.
  fold (the_contact s). unfold own_rows. cbn [rows].
  rewrite filter_app. cbn [filter new_row contact_number].
  rewrite String.eqb_refl. unfold listing.
  destruct (filter _ (rows (table s)) ++ [_])%list as [|x l] eqn:El.
  - apply app_eq_nil in El. destruct El as [_ El]. discriminate El.
  - rewrite <- El, map_app. reflexivity.
Qed.

Lemma retrieve_lists_own_records_witness :
  fst (retrieve_appointments quiet (identified true one_cancelled))
  = Ok "Here are your appointments: 10:30am - 11:30am, 26th January (checkup) - cancelled, 2:15pm - 3:15pm, 26th January (checkup) - confirmed"
  /\ fst (retrieve_appointments quiet (identified true empty_table))
     = Ok "You have no appointments on record.".
Proof.
  split.
  - exact (proj1 (retrieve_lists_own_records quiet quiet
                    (identified true one_cancelled) morning "checkup"
                    eq_refl eq_refl eq_refl)).
  - exact (proj1 (retrieve_lists_own_records quiet quiet
                    (identified true empty_table) morning "checkup"
                    eq_refl eq_refl eq_refl)).
Defined.
End BookingExtras.

(** ** Identification, the constructors and the queries of the client *)

Module ClientExtras.
Import Database BookingAgent Listing Invariants Run BookingFacts ToolCases
       StoreFacts Samples Samples2.

Lemma identify_user_run e c s :
  identify_user e c s
  = (Ok ("Thank you! I have your contact number " ++ c
         ++ ". How can I help you today?"),
     set_user_contact (Some c)
       (after_broadcast "identify_user" [("contact_number", c)] s)).
Proof. unfold identify_user. do 2 step. reflexivity. Qed.

(** X12.  Identification overwrites: after two [identify_user] calls the
    tools act for the contact given last.  A booking that goes through
    then inserts a record owned by that contact, and the two
    identifications themselves leave the table untouched. *)
Theorem last_identification_wins (e1 e2 e3 : Env) (s : State)
    (c1 c2 slot details : string) :
  c2 <> "" ->
  client s = true ->
  select_by_contact e3 = None ->
  select_by_slot e3 = None ->
  insert_row e3 = None ->
  existsb (confirmed_at slot) (rows (table s)) = false ->
  let s2 := snd (identify_user e2 c2 (snd (identify_user e1 c1 s))) in
  let out := book_appointment e3 slot details s2 in
  user_contact s2 = Some c2
  /\ table s2 = table s
  /\ fst out = Ok (msg_booked slot details)
  /\ rows (table (snd out))
     = (rows (table s)
        ++ [mkAppointment (next_id (table s)) (now e3) c2
              (or_else (user_name' s) "Unknown") slot details "confirmed"])%list.
Proof.
  intros Hne Hcl Hq1 Hq2 Hw Hfree s2 out. subst out s2.
  rewrite !identify_user_run. cbn [snd].
  set (s2 := set_user_contact (Some c2) _).
  assert (Hid2 : truthy (user_contact s2) = true).
  { cbn. apply negb_true_iff, String.eqb_neq. exact Hne. }
  assert (Hcl2 : client s2 = true).
  { unfold s2. cbn. rewrite after_broadcast_client. cbn.
    rewrite after_broadcast_client. exact Hcl. }
  assert (Ht2 : table s2 = table s).
  { unfold s2. cbn. rewrite after_broadcast_table. cbn.
    apply after_broadcast_table. }
  assert (Hn2 : user_name' s2 = user_name' s).
  { unfold s2. cbn. rewrite after_broadcast_user_name. cbn.
    apply after_broadcast_user_name. }
  split; [reflexivity|]. split; [exact Ht2|].
  rewrite (book_free e3 s2 Hid2 Hcl2 Hq1 Hq2 slot details), Hw;
    [|rewrite Ht2; exact Hfree].
  cbn [fst snd table set_table rows]. split; [reflexivity|].
  unfold new_row. rewrite Ht2, Hn2. reflexivity.
Qed.

Lemma last_identification_wins_witness :
  let s2 := snd (identify_user quiet other_caller
                   (snd (identify_user quiet caller
                           (agent true one_booking)))) in
  rows (table (snd (book_appointment quiet afternoon "checkup" s2)))
  = [row 1 caller morning "confirmed";
     row 2 other_caller afternoon "confirmed"].
Proof.
  assert (Hne : other_caller <> "") by discriminate.
  exact (proj2 (proj2 (proj2
           (last_identification_wins quiet quiet quiet
              (agent true one_booking) caller other_caller afternoon
              "checkup" Hne eq_refl eq_refl eq_refl eq_refl eq_refl)))).
Defined.

(** X13.  Insert, then look up.  A [create_appointment] that is written
    returns the new confirmed record; afterwards [get_appointments]
    gives the contact its former records followed by the new one, leaves
    the records of any other contact as they were, and
    [is_slot_available] answers that the slot is taken. *)
Theorem created_appointment_is_read_back (e e2 : Env) (s : State)
    (contact name slot details : string) :
  client s = true ->
  insert_row e = None ->
  select_by_contact e2 = None ->
  select_by_slot e2 = None ->
  let inserted := mkAppointment (next_id (table s)) (now e) contact name
                    slot details "confirmed" in
  let s1 := snd (create_appointment e contact name slot details s) in
  fst (create_appointment e contact name slot details s)
  = Ok (Some [inserted])
  /\ fst (get_appointments e2 contact s1)
     = Ok (own_rows contact (table s) ++ [inserted])%list
  /\ (forall other,
        other <> contact ->
        fst (get_appointments e2 other s1)
        = fst (get_appointments e2 other s))
  /\ fst (is_slot_available e2 slot s1) = Ok false.
Proof.
  intros Hcl Hw Hq1 Hq2 inserted s1. subst s1.
  rewrite create_appointment_run, Hcl, Hw. cbv zeta. cbn [fst snd].
  split; [reflexivity|].
  rewrite !get_appointments_run, is_slot_available_run.
  cbn [fst client table set_table]. rewrite Hcl, Hq1, Hq2.
  unfold own_rows. cbn [rows]. split; [|split].
  - rewrite filter_app. cbn. rewrite String.eqb_refl. reflexivity.
  - intros other Hne. rewrite !get_appointments_run.
    cbn [fst client table set_table].
    rewrite Hcl, Hq1. unfold own_rows. cbn [rows]. rewrite filter_app. cbn.
    destruct (String.eqb_spec contact other) as [E|E]; [congruence|].
    rewrite app_nil_r. reflexivity.
  - rewrite existsb_app. cbn. unfold confirmed_at. cbn.
    rewrite String.eqb_refl. cbn. rewrite orb_true_r. reflexivity.
Qed.

Lemma created_appointment_is_read_back_witness :
  let s1 := snd (create_appointment quiet other_caller "Unknown" afternoon
                   "checkup" (agent true one_booking)) in
  fst (get_appointments quiet other_caller s1)
  = Ok [row 2 other_caller afternoon "confirmed"]
  /\ fst (get_appointments quiet caller s1)
     = Ok [row 1 caller morning "confirmed"]
  /\ fst (is_slot_available quiet afternoon s1) = Ok false.
Proof.
  pose proof (created_appointment_is_read_back quiet quiet
                (agent true one_booking) other_caller "Unknown" afternoon
                "checkup" eq_refl eq_refl eq_refl eq_refl)
    as (_ & H1 & H2 & H3).
  split; [exact H1|]. split; [|exact H3].
  rewrite (H2 caller); [reflexivity | discriminate].
Defined.

(** X14.  A write for an identifier that no record has changes nothing:
    [Database.cancel_appointment] and [update_appointment] leave the
    table as it was, and when the write goes through the data returned
    is the empty list. *)
Theorem write_for_unknown_id_changes_nothing (e : Env) (s : State)
    (appointment_id : nat) (new_slot : string) :
  ~ In appointment_id (map id (rows (table s))) ->
  table (snd (Database.cancel_appointment e appointment_id s)) = table s
  /\ table (snd (update_appointment e appointment_id new_slot s)) = table s
  /\ (client s = true -> update_status e = None ->
      fst (Database.cancel_appointment e appointment_id s) = Ok (Some []))
  /\ (client s = true -> update_slot e = None ->
      fst (update_appointment e appointment_id new_slot s) = Ok (Some [])).
Proof.
  intros Hno.
  assert (Hsame : forall change,
             update_eq_id change appointment_id (table s) = table s).
  { intros change. unfold update_eq_id.
    rewrite (BookingClaims.update_other_rows change _ _ Hno).
    destruct (table s); reflexivity. }
  assert (Hempty : forall change,
             updated change appointment_id (table s) = []).
  { intros change. unfold updated.
    rewrite (BookingExtras.filter_none
               (fun a => (id a =? appointment_id)%nat)); [reflexivity|].
    intros a Hin. apply Nat.eqb_neq. intros E. apply Hno.
    rewrite <- E. apply in_map. exact Hin. }
  rewrite cancel_appointment_run, update_appointment_run.
  repeat split.
  - destruct (client s); [destruct (update_status e)|]; cbn;
      try reflexivity. apply Hsame.
  - destruct (client s); [destruct (update_slot e)|]; cbn;
      try reflexivity. apply Hsame.
  - intros -> ->. cbn. rewrite Hempty. reflexivity.
  - intros -> ->. cbn. rewrite Hempty. reflexivity.
Qed.

Lemma write_for_unknown_id_changes_nothing_witness :
  ~ In 7 (map id (rows two_callers))
  /\ table (snd (Database.cancel_appointment quiet 7
                   (agent true two_callers))) = two_callers
  /\ fst (update_appointment quiet 7 free_slot (agent true two_callers))
     = Ok (Some []).
Proof.
  assert (Hno : ~ In 7 (map id (rows two_callers)))
    by (cbn; intuition discriminate).
  pose proof (write_for_unknown_id_changes_nothing quiet
                (agent true two_callers) 7 free_slot Hno)
    as (H1 & _ & _ & H4).
  split; [exact Hno|]. split; [exact H1|]. apply H4; reflexivity.
Defined.

(** X15.  Without both credentials the constructor does not call
    [create_client] and returns an agent that has no client, and each
    tool of an identified caller degrades without touching the table:
    booking reports the system error, cancelling and modifying find no
    appointment, the listing is empty, and the availability check answers
    "available". *)
Theorem tools_without_credentials (url key : option string)
    (create_client : option exn) (items : list ChatItem) (t : Table)
    (e : Env) (contact slot details new_slot : string) :
  truthy url = false \/ truthy key = false ->
  contact <> "" ->
  exists s0,
    BookingAgent__init__ url key create_client items t = Ok s0
    /\ let s := snd (identify_user e contact s0) in
       client s = false
       /\ fst (book_appointment e slot details s) = Ok msg_system_error
       /\ fst (cancel_appointment e slot s) = Ok (msg_no_active slot)
       /\ fst (modify_appointment e slot new_slot s) = Ok (msg_not_found slot)
       /\ fst (retrieve_appointments e s) = Ok msg_no_appointments
       /\ fst (is_slot_available e slot s) = Ok true
       /\ table (snd (book_appointment e slot details s)) = t
       /\ table (snd (cancel_appointment e slot s)) = t
       /\ table (snd (modify_appointment e slot new_slot s)) = t.
Proof.
  intros Hcred Hne.
  exists (mkState false None None None None items t [] []).
  split.
  { unfold BookingAgent__init__, Database__init__.
    destruct Hcred as [-> | ->];
      [reflexivity | rewrite orb_true_r; reflexivity]. }
  intros s. subst s. rewrite identify_user_run. cbn [snd].
  set (s := set_user_contact _ _).
  assert (Hcl : client s = false) by reflexivity.
  assert (Hid : truthy (user_contact s) = true).
  { cbn. apply negb_true_iff, String.eqb_neq. exact Hne. }
  assert (Ht : table s = t)
    by (unfold s; cbn; reflexivity).
  assert (Hf : fetched e s = []) by (unfold fetched; rewrite Hcl; reflexivity).
  split; [exact Hcl|].
  assert (Hbook : book_appointment e slot details s
                  = (Ok msg_system_error,
                     after_broadcast "book_appointment"
                       [("slot", slot); ("details", details)] s)).
  { unfold book_appointment. do 2 step. rewrite Hid. cbn [negb]. step.
    rewrite Hcl. cbn [existsb]. step. rewrite Hcl. cbn [negb]. step.
    rewrite Hcl. reflexivity. }
  assert (Hmod : modify_appointment e slot new_slot s
                 = (Ok (msg_not_found slot),
                    after_broadcast "modify_appointment"
                      [("old_slot", slot); ("new_slot", new_slot)] s)).
  { unfold modify_appointment. do 2 step. rewrite Hid. cbn [negb]. step.
    rewrite Hcl. reflexivity. }
  destruct (cancel_cases e s slot)
    as [[Hs Hmsg] | (target & Hfound & _)];
    [|rewrite Hf in Hfound; discriminate Hfound].
  rewrite Hbook, Hmod, BookingExtras.retrieve_run, is_slot_available_run, Hs.
  cbn [fst snd]. rewrite !after_broadcast_table, Ht, Hid, Hf, Hcl.
  repeat split. apply Hmsg; [exact Hid | rewrite Hf; reflexivity].
Qed.

Lemma tools_without_credentials_witness :
  exists s0,
    BookingAgent__init__ (Some "https://db.example") None None [] one_booking
    = Ok s0
    /\ let s := snd (identify_user quiet caller s0) in
       fst (book_appointment quiet afternoon "checkup" s)
       = Ok msg_system_error
       /\ fst (cancel_appointment quiet morning s)
          = Ok (msg_no_active morning)
       /\ fst (retrieve_appointments quiet s)
          = Ok "You have no appointments on record.".
Proof.
  assert (Hne : caller <> "") by discriminate.
  destruct (tools_without_credentials (Some "https://db.example") None None
              [] one_booking quiet caller morning "checkup" afternoon
              (or_intror eq_refl) Hne) as (s0 & H0 & _ & _ & Hc & _ & Hr & _).
  destruct (tools_without_credentials (Some "https://db.example") None None
              [] one_booking quiet caller afternoon "checkup" morning
              (or_intror eq_refl) Hne) as (s1 & H1 & _ & Hb & _).
  exists s0. split; [exact H0|].
  assert (E : s1 = s0) by congruence. subst s1.
  split; [exact Hb|]. split; [exact Hc | exact Hr].
Defined.
End ClientExtras.

(** ** What every tool announces and what the reading tools keep *)

Module ToolExtras.
Import Database BookingAgent Listing Shutdown Measure Invariants Run
       BookingFacts ToolCases Preservation ShutdownFacts EndFacts Samples
       Samples2.

Lemma table_kept_refl s : table_kept s s.
Proof. reflexivity. Qed.

Lemma table_kept_trans a b c : table_kept a b -> table_kept b c -> table_kept a c.
Proof. unfold table_kept. congruence. Qed.

Ltac table_base :=
  unfold table_kept, after_shutdown, after_disconnect;
  repeat match goal with
         | |- context [match ?x with _ => _ end] => destruct x
         end;
  reflexivity.

Lemma get_appointments_table_kept e c :
  Respects table_kept (get_appointments e c).
Proof. intros s. rewrite get_appointments_run. reflexivity. Qed.

Lemma shutdown_protocol_table_kept e : Respects table_kept (shutdown_protocol e).
Proof.
  unfold shutdown_protocol, end_conversation, run_pending, run_task,
    _disconnect_after_goodbye, goodbye_wait, _perform_disconnection,
    generate_summary, chat_stream, await_call, run_pending, run_task,
    _disconnect_after_goodbye, goodbye_wait, _perform_disconnection,
    booked_appointments, create_task, _broadcast_tool_call.
  respects table_kept_refl table_kept_trans
           ltac:(apply get_appointments_table_kept) table_base.
Qed.

Lemma end_conversation_table_kept e : Respects table_kept (end_conversation e).
Proof.
  unfold end_conversation, generate_summary, chat_stream, await_call,
    run_pending, run_task, _disconnect_after_goodbye, goodbye_wait,
    _perform_disconnection, booked_appointments, create_task,
    _broadcast_tool_call.
  respects table_kept_refl table_kept_trans
           ltac:(apply get_appointments_table_kept) table_base.
Qed.

(** X16.  The tools that only read never change the appointment table,
    whatever the collaborators do: identifying, fetching the slots,
    listing the appointments, ending the call (handler and background
    task) and the disconnect action all leave it as it was. *)
Theorem reading_tools_keep_the_table (e : Env) (s : State) (contact : string) :
  table (snd (identify_user e contact s)) = table s
  /\ table (snd (fetch_slots e s)) = table s
  /\ table (snd (retrieve_appointments e s)) = table s
  /\ table (snd (end_conversation e s)) = table s
  /\ table (snd (shutdown_protocol e s)) = table s
  /\ table (snd (_perform_disconnection e s)) = table s.
Proof.
  split; [|split; [|split; [|split; [|split]]]].
  - rewrite ClientExtras.identify_user_run. cbn.
    apply after_broadcast_table.
  - unfold fetch_slots. step. cbn. apply after_broadcast_table.
  - rewrite BookingExtras.retrieve_run. apply after_broadcast_table.
  - apply end_conversation_table_kept.
  - apply shutdown_protocol_table_kept.
  - assert (H : Respects table_kept (_perform_disconnection e)).
    { unfold _perform_disconnection.
      respects table_kept_refl table_kept_trans fail table_base. }
    apply H.
Qed.


End ToolExtras.

(** ** The end of the call: the wait, the disconnection, the summary *)

Module ShutdownExtras.
Import Database BookingAgent Listing Shutdown Measure Invariants Run
       BookingFacts Preservation ShutdownFacts DisconnectFacts EndFacts
       Samples Samples2.




Lemma later_steps_without_session e s pubs :
  _agent_session s = None ->
  _room s = Some (mkRoom true (Some pubs)) ->
  trace (snd (_perform_disconnection e s))
  = (trace s ++ [EvPerformDisconnection]
     ++ map EvTrackStop (kinds pubs) ++ [EvDisconnect])%list
  /\ (disconnect e = None ->
      isconnected (snd (_perform_disconnection e s)) = false).
Proof.
  intros Hs Hr. destruct s as [cl uc un ses rm ctx tb pd tr].
  cbn in Hs, Hr. subst ses rm.
  pose proof (stop_tracks_run e pubs) as Htr.
  unfold _perform_disconnection, try_except, bind, get, modify, call, ret,
    raise.
  unfold try_except, bind, modify, call, ret, raise in Htr.
  cbn -[for_each]. cbn -[for_each] in Htr. rewrite Htr.
  unfold isconnected; rewrite stopped_room; cbn -[for_each].
  destruct (disconnect e); cbn -[for_each];
    rewrite ?after_disconnect_trace; cbn [trace log];
    rewrite stopped_trace; cbn;
    (split; [rewrite <- ?app_assoc; reflexivity
            | intros; first [apply after_disconnect_isconnected
                            | discriminate]]).
Qed.

(** X19.  When the session is not set, or its shutdown request returns,
    the disconnect action of a connected room stops every published
    track that has one, in the order of the publications, then calls
    [disconnect], whatever the wait for the closing task and the track
    stops do; it returns, and when [disconnect] returns the room is no
    longer connected. *)
Theorem disconnection_stops_tracks_and_leaves (e : Env) (s : State)
    (pubs : list TrackPublication) :
  _agent_session s = None \/ shutdown e = None ->
  _room s = Some (mkRoom true (Some pubs)) ->
  let out := _perform_disconnection e s in
  fst out = Ok tt
  /\ filter is_later_step (trace (snd out))
     = (filter is_later_step (trace s)
        ++ map EvTrackStop (kinds pubs) ++ [EvDisconnect])%list
  /\ (disconnect e = None -> isconnected (snd out) = false).
Proof.
  intros Hs Hr out. subst out.
  split; [apply perform_disconnection_returns|].
  assert (Hstops : forall ks,
             filter is_later_step (map EvTrackStop ks) = map EvTrackStop ks).
  { induction ks as [|k ks IH]; cbn; [reflexivity | rewrite IH; reflexivity]. }
  destruct (_agent_session s) as [sess|] eqn:Hsess.
  - destruct Hs as [Hs|Hs]; [discriminate Hs|].
    destruct (later_steps_attempted e s sess pubs Hsess Hs Hr) as [Ht Hc].
    split; [|exact Hc]. rewrite Ht, !filter_app, Hstops. cbn.
    destruct (_closing_task sess || shutdown_creates_closing_task e);
      reflexivity.
  - destruct (later_steps_without_session e s pubs Hsess Hr) as [Ht Hc].
    split; [|exact Hc]. rewrite Ht, !filter_app, Hstops. reflexivity.
Qed.

Lemma disconnection_stops_tracks_and_leaves_witness :
  filter is_later_step (trace (snd (_perform_disconnection restless in_call)))
  = [EvTrackStop "audio"; EvTrackStop "video"; EvDisconnect]
  /\ isconnected (snd (_perform_disconnection quiet no_session)) = false.
Proof.
  split.
  - exact (proj1 (proj2 (disconnection_stops_tracks_and_leaves restless
                           in_call _ (or_intror eq_refl) eq_refl))).
  - exact (proj2 (proj2 (disconnection_stops_tracks_and_leaves quiet
                           no_session _ (or_introl eq_refl) eq_refl))
             eq_refl).
Defined.

Lemma before_summary_refl s : before_summary s s.
Proof.
  unfold before_summary. repeat split. exists [].
  split; [symmetry; apply app_nil_r | reflexivity].
Qed.

Lemma before_summary_trans a b c :
  before_summary a b -> before_summary b c -> before_summary a c.
Proof.
  intros (H1 & H2 & H3 & H4 & H5 & H6 & evs & H7 & H8)
         (K1 & K2 & K3 & K4 & K5 & K6 & evs' & K7 & K8).
  unfold before_summary. repeat split; try congruence.
  exists (evs ++ evs')%list. split.
  - rewrite K7, H7. symmetry. apply app_assoc.
  - rewrite filter_app, H8, K8. reflexivity.
Qed.

Lemma before_summary_log ev s :
  is_summary_event ev = false -> before_summary s (log ev s).
Proof.
  intros H. unfold before_summary. repeat split. exists [ev].
  split; [reflexivity|]. cbn. rewrite H. reflexivity.
Qed.

Ltac summary_base :=
  first [ apply before_summary_log; reflexivity
        | apply before_summary_refl ].

Lemma booked_appointments_run e s :
  booked_appointments e s = (Ok (booked_list e s), s).
Proof.
  unfold booked_appointments, booked_list.
  rewrite bind_eq, get_run. cbv beta iota.
  destruct (truthy (user_contact s)); [|reflexivity]. cbn [andb].
  unfold try_except. rewrite bind_eq, get_appointments_run. cbv beta iota.
  destruct (client s); [destruct (select_by_contact e)|]; reflexivity.
Qed.

Lemma generate_summary_returns e s :
  exists summary, fst (generate_summary e s) = Ok summary.
Proof.
  unfold generate_summary. rewrite bind_eq, get_run. cbv beta iota.
  destruct (session_llm s); [|eexists; reflexivity].
  unfold try_except.
  match goal with
  | |- context [let (_, _) := ?m s in _] => destruct (m s) as [[a|ex] s1]
  end; eexists; reflexivity.
Qed.

Lemma generate_summary_before_summary e :
  background_at e = None -> Respects before_summary (generate_summary e).
Proof.
  intros Hbg. unfold generate_summary, chat_stream, await_call.
  rewrite Hbg.
  respects before_summary_refl before_summary_trans fail summary_base.
Qed.

(** The summary depends on the session and on the chat context only. *)
Lemma generate_summary_value e s s1 :
  _agent_session s1 = _agent_session s ->
  chat_ctx s1 = chat_ctx s ->
  fst (generate_summary e s1) = fst (generate_summary e s).
Proof.
  intros Hs Hc. unfold generate_summary. rewrite !bind_eq, !get_run.
  cbv beta iota. unfold session_llm. rewrite Hs, Hc.
  destruct (_agent_session s) as [sess|]; [|reflexivity].
  destruct (llm sess); [|reflexivity].
  unfold try_except.
  destruct (conversation_messages (chat_ctx s)) as [|l0 ls]; [reflexivity|].
  rewrite !bind_eq.
  pose proof (ShutdownClaims.chat_stream_returns e (summary_ctx (l0 :: ls)) s1)
    as H1.
  pose proof (ShutdownClaims.chat_stream_returns e (summary_ctx (l0 :: ls)) s)
    as H2.
  destruct (chat_stream e (summary_ctx (l0 :: ls)) s1) as [[c1|x1] t1];
    destruct (chat_stream e (summary_ctx (l0 :: ls)) s) as [[c2|x2] t2];
    cbn [fst] in *;
    destruct (snd (chat e (summary_ctx (l0 :: ls)))); try discriminate;
    try reflexivity.
  injection H1 as ->. injection H2 as ->.
  destruct (negb (strip (join "" _) =? "")); reflexivity.
Qed.

Lemma published_quietly e pt ev outcome s :
  background_at e = None ->
  try_except (await_call e pt ev outcome) (fun _ => ret tt) s
  = (Ok tt, log ev s).
Proof.
  intros Hbg. unfold try_except, await_call, bind, modify, ret, raise.
  rewrite Hbg. destruct outcome; reflexivity.
Qed.

Lemma booked_list_before e s s' :
  before_summary s s' -> booked_list e s' = booked_list e s.
Proof.
  intros (H1 & H2 & _ & _ & _ & H6 & _).
  unfold booked_list, the_contact. rewrite H1, H2, H6. reflexivity.
Qed.

(** X20.  When the background task has not run before and nobody else
    has closed the room meanwhile, the handler of the end of the call
    ends by publishing one conversation summary, and no other, if the
    room is connected and has its local participant; it publishes none
    if the room is not connected or has no local participant.  The
    summary published carries the summary of the summarization step, the
    caller's confirmed appointments as [slot - details (status)] lines
    (none for a caller who is not identified or a store that does not
    answer) and the contact. *)
Theorem summary_is_published (e : Env) (s : State) :
  background_at e = None ->
  exists summary evs,
    fst (generate_summary e s) = Ok summary
    /\ trace (snd (end_conversation e s))
       = (trace s ++ evs
          ++ (if can_publish s
              then [EvPublish (ConversationSummary summary (booked_list e s)
                                 (user_contact s))]
              else []))%list
    /\ filter is_summary_event evs = [].
Proof.
  intros Hbg.
  unfold end_conversation.
  rewrite bind_eq, broadcast_run. cbv beta iota.
  rewrite bind_eq, get_run. cbv beta iota.
  rewrite after_broadcast_session.
  set (s0 := after_broadcast "end_conversation" [] s).
  assert (H0 : before_summary s s0).
  { unfold s0, after_broadcast. destruct (can_publish s); summary_base. }
  rewrite bind_eq.
  match goal with
  | |- context [let (_, _) := ?m s0 in _] =>
      assert (HA : exists sA, m s0 = (Ok tt, sA) /\ before_summary s0 sA)
  end.
  { destruct (_agent_session s).
    - eexists. split; [reflexivity|]. unfold before_summary. cbn.
      repeat split. exists [EvCreateTask]. split; reflexivity.
    - eexists. split; [reflexivity | apply before_summary_refl]. }
  destruct HA as (sA & HAeq & HAb).
  rewrite HAeq. cbv beta iota.
  pose proof (before_summary_trans _ _ _ H0 HAb) as HsA.
  rewrite bind_eq. unfold try_except at 1.
  rewrite bind_eq, get_run. cbv beta iota.
  match goal with
  | |- context [bind ?m ?k sA] => set (step1 := m)
  end.
  assert (Hr1 : Respects before_summary step1).
  { unfold step1, await_call. rewrite Hbg.
    respects before_summary_refl before_summary_trans fail summary_base. }
  assert (Hok1 : fst (step1 sA) = Ok tt).
  { unfold step1. destruct (session_audio sA);
      [apply swallowed | reflexivity]. }
  rewrite bind_eq. specialize (Hr1 sA).
  destruct (step1 sA) as [[[]|ex] s1]; [|discriminate Hok1].
  cbn [snd] in Hr1. clear Hok1.
  pose proof (before_summary_trans _ _ _ HsA Hr1) as Hs1.
  rewrite bind_eq.
  destruct (generate_summary_returns e s1) as [summary Hsm].
  pose proof (generate_summary_before_summary e Hbg s1) as Hr2.
  assert (Hval : fst (generate_summary e s) = Ok summary).
  { rewrite <- Hsm. symmetry.
    destruct Hs1 as (_ & _ & Hsess & _ & Hctx & _).
    apply generate_summary_value; assumption. }
  destruct (generate_summary e s1) as [[sm|ex] s2]; [|discriminate Hsm].
  cbn [fst snd] in *. injection Hsm as ->.
  pose proof (before_summary_trans _ _ _ Hs1 Hr2) as Hs2.
  rewrite bind_eq, booked_appointments_run. cbv beta iota.
  rewrite bind_eq, get_run. cbv beta iota.
  rewrite (booked_list_before e s s2 Hs2).
  destruct Hs2 as (_ & Hu & _ & Hroom & _ & _ & evs & Htr & Hnone).
  assert (Hc2 : isconnected s2 = isconnected s)
    by (unfold isconnected; rewrite Hroom; reflexivity).
  assert (Hp2 : has_participant s2 = has_participant s)
    by (unfold has_participant; rewrite Hroom; reflexivity).
  exists summary, evs. unfold can_publish, publish_data.
  rewrite Hc2, Hp2, Hu.
  destruct (isconnected s); cbn [andb];
    [destruct (has_participant s);
     [rewrite (published_quietly _ _ _ _ _ Hbg)
     | unfold try_except, raise]|];
    cbv beta iota; rewrite ?ret_run; cbn [snd trace log];
    rewrite Htr, <- ?app_assoc, ?app_nil_r; repeat split; assumption.
Qed.

Lemma summary_is_published_witness :
  background_at quiet = None
  /\ can_publish in_call = true
  /\ (exists evs,
        trace (snd (end_conversation quiet in_call))
        = (evs
           ++ [EvPublish
                 (ConversationSummary "Booked a checkup."
                    ["10:30am - 11:30am, 26th January - checkup (confirmed)"]
                    (Some caller))])%list)
  /\ isconnected no_participant_call = true
  /\ filter is_summary_event
       (trace (snd (end_conversation quiet no_participant_call))) = [].
Proof.
  split; [reflexivity|]. split; [reflexivity|]. split; [|split].
  - destruct (summary_is_published quiet in_call eq_refl)
      as (summary & evs & Hsm & Htr & _).
    exists evs. rewrite Htr. vm_compute in Hsm. injection Hsm as <-.
    reflexivity.
  - reflexivity.
  - destruct (summary_is_published quiet no_participant_call eq_refl)
      as (summary & evs & _ & Htr & Hnone).
    rewrite Htr. cbn [can_publish]. rewrite app_nil_r. exact Hnone.
Defined.
End ShutdownExtras.
